(** * RENTYFI: the accrual and reconciliation core of [server/storage.ts]

    A shallow embedding of the storage layer of the bookkeeping server
    (bank balances, transfers, rent periods, backup and restore) and of the
    two client forms that guard it, with the properties of the written
    specification stated against it.

    Conventions of the embedding.
    - Money.  A [decimal(_, 2)] column holds a number of hundredths; it is
      read with [Number(..)] or [parseFloat(..)] and written back with
      [toFixed(2)].  An amount is the integer count of hundredths ([Z]), on
      which those conversions are the identity.  A [NULL] balance reads as
      zero on every path of the source and is not distinguished from it.
    - Identifiers.  A [serial] primary key is a [positive]: it is never
      zero, hence always truthy in a JavaScript condition.
    - Clock.  Every [new Date()] of one call is the same instant, passed as
      the argument [now].
    - Tables.  Tables addressed by primary key are finite maps from the
      key; the rent table is the list of its rows in insertion order, which
      is the order [select] hands them out.
    - Layout.  The embedding comes first, one module for each component,
      each closed by the vocabulary its statements use; the properties
      follow, in the same order. *)

From Stdlib Require Import ZArith String List Lia Bool.
From stdpp Require Import gmap strings list fin_maps.

Local Open Scope string_scope.
Local Open Scope Z_scope.
Local Open Scope list_scope.

(** ** Errors thrown by the storage layer *)

Inductive Error : Type :=
| AccountNotFound
| InvalidTransactionType
| TransactionNotFound
| TransactionWithoutAccount
| TransferAccountsNotFound
| InsufficientBalance
| TransferNotFound
| Unauthorized
| InvalidBackup (key : string)
| MissingField (prop context : string)
| InvalidDate (table field : string)
| TypeError (what : string)
| DbError (msg : string)
| OutOfFuel.

(** The [message] of the JavaScript [Error] object each one stands for.
    [DbError] is an error of the datastore, with its message.  [OutOfFuel]
    is no error of the source: it is what a loop of the embedding returns
    when its fuel runs out, which the accrual loop never does
    ([accrue_from_finishes]). *)
Definition message (e : Error) : string :=
  match e with
  | AccountNotFound => "Account not found"
  | InvalidTransactionType => "Invalid transaction type"
  | TransactionNotFound => "Transaction not found"
  | TransactionWithoutAccount => "Transaction does not have a valid accountId"
  | TransferAccountsNotFound => "One or both accounts not found"
  | InsufficientBalance => "Insufficient balance in the source account"
  | TransferNotFound => "Transfer not found"
  | Unauthorized => "Unauthorized to delete this transfer"
  | InvalidBackup key =>
      ("Invalid backup: missing or invalid '" ++ key ++ "' array")%string
  | MissingField prop context =>
      ("Invalid backup: missing required property '" ++ prop ++ "' in "
         ++ context)%string
  | InvalidDate table field =>
      ("Invalid date in " ++ table ++ "." ++ field)%string
  | TypeError what => what
  | DbError msg => msg
  | OutOfFuel => "loop out of fuel"
  end.

(** ** Stateful code that may throw

    [Ok a s] is a normal return with the state reached; [Throw e s] is an
    exception, with the state reached when it was raised: the writes made
    before the [throw] are in [s]. *)

Inductive outcome (S A : Type) : Type :=
| Ok (a : A) (s : S)
| Throw (e : Error) (s : S).
Arguments Ok {S A} a s.
Arguments Throw {S A} e s.

Definition M (S A : Type) : Type := S -> outcome S A.

Definition ret {S A} (a : A) : M S A := fun s => Ok a s.
Definition throw {S A} (e : Error) : M S A := fun s => Throw e s.
Definition bind {S A B} (c : M S A) (k : A -> M S B) : M S B :=
  fun s => match c s with
           | Ok a s' => k a s'
           | Throw e s' => Throw e s'
           end.
Definition gets {S A} (f : S -> A) : M S A := fun s => Ok (f s) s.
Definition modify {S} (f : S -> S) : M S unit := fun s => Ok tt (f s).

Notation "'let!' x ':=' c 'in' k" := (bind c (fun x => k))
  (at level 10, x name, c at level 200, k at level 200).
Notation "'run!' c 'in' k" := (bind c (fun _ => k))
  (at level 10, c at level 200, k at level 200).

(** [db.transaction(body)]: all the writes of [body], or none of them. *)
Definition db_transaction {S A} (body : M S A) : M S A :=
  fun s => match body s with
           | Ok a s' => Ok a s'
           | Throw e _ => Throw e s
           end.

(** The state a call leaves behind, whichever way it ended. *)
Definition final {S A} (o : outcome S A) : S :=
  match o with
  | Ok _ s => s
  | Throw _ s => s
  end.

(** ** Dates

    A valid [Date], seen through the getters the source calls on it.
    [getMonth] is zero-based. *)

Record JsDate : Type := mkDate {
  getTime : Z;
  getFullYear : Z;
  getMonth : Z;
  getDate : Z
}.

Definition valid_month (d : JsDate) : Prop := 0 <= getMonth d <= 11.

(** * Balance Mutator *)

Module Balance.

Record BankAccount : Type := mkAccount {
  acc_userId : positive;
  acc_name : string;
  initialBalance : Z;
  currentBalance : Z
}.

Definition set_currentBalance (v : Z) (a : BankAccount) : BankAccount :=
  {| acc_userId := acc_userId a; acc_name := acc_name a;
     initialBalance := initialBalance a; currentBalance := v |}.

(** A row of [transactions]; also the shape of [InsertTransaction]. *)
Record Transaction : Type := mkTransaction {
  tx_userId : positive;
  tx_accountId : option positive;
  tx_tenantId : option positive;
  tx_shopId : option positive;
  tx_amount : Z;
  tx_type : string;
  tx_context : string;
  tx_date : option JsDate
}.

(** A row of [transfers]; also the shape of [InsertTransfer]. *)
Record Transfer : Type := mkTransfer {
  tr_userId : positive;
  fromAccountId : positive;
  toAccountId : positive;
  tr_amount : Z
}.

Record Bank : Type := mkBank {
  bankAccounts : gmap positive BankAccount;
  transactions : gmap positive Transaction;
  transactions_seq : positive;
  transfers : gmap positive Transfer;
  transfers_seq : positive
}.

Definition with_accounts (f : gmap positive BankAccount -> gmap positive BankAccount)
    (b : Bank) : Bank :=
  {| bankAccounts := f (bankAccounts b);
     transactions := transactions b; transactions_seq := transactions_seq b;
     transfers := transfers b; transfers_seq := transfers_seq b |}.

Definition with_transactions (f : gmap positive Transaction -> gmap positive Transaction)
    (b : Bank) : Bank :=
  {| bankAccounts := bankAccounts b;
     transactions := f (transactions b); transactions_seq := transactions_seq b;
     transfers := transfers b; transfers_seq := transfers_seq b |}.

Definition with_transfers (f : gmap positive Transfer -> gmap positive Transfer)
    (b : Bank) : Bank :=
  {| bankAccounts := bankAccounts b;
     transactions := transactions b; transactions_seq := transactions_seq b;
     transfers := f (transfers b); transfers_seq := transfers_seq b |}.

(** [update(bankAccounts).set({currentBalance}).where(eq(id, ..))]: no row
    matches a missing id, and nothing is written then. *)
Definition set_balance (id : positive) (v : Z)
    (m : gmap positive BankAccount) : gmap positive BankAccount :=
  match m !! id with
  | Some a => <[id := set_currentBalance v a]> m
  | None => m
  end.

Definition update_balance (id : positive) (v : Z) : M Bank unit :=
  modify (with_accounts (set_balance id v)).

(** [insert(..).values(..).returning()]: the row takes the next value of
    the table's sequence.  The sequence is ahead of the stored keys (it is
    realigned after every import), so the insert does not collide. *)
Definition insert_transaction (t : Transaction) : M Bank positive :=
  fun b =>
    let id := transactions_seq b in
    Ok id {| bankAccounts := bankAccounts b;
             transactions := <[id := t]> (transactions b);
             transactions_seq := Pos.succ id;
             transfers := transfers b; transfers_seq := transfers_seq b |}.

Definition insert_transfer (t : Transfer) : M Bank positive :=
  fun b =>
    let id := transfers_seq b in
    Ok id {| bankAccounts := bankAccounts b;
             transactions := transactions b;
             transactions_seq := transactions_seq b;
             transfers := <[id := t]> (transfers b);
             transfers_seq := Pos.succ id |}.

(** [select().from(bankAccounts).where(eq(bankAccounts.id, id))], first row.
    [Number(null)] is 0 and [Number(undefined)] is NaN: neither is a key. *)
Definition select_account (id : option positive) : M Bank (option BankAccount) :=
  gets (fun b => match id with
                 | Some i => bankAccounts b !! i
                 | None => None
                 end).

(** The body handed to [db.transaction] by [createTransaction]. *)
Definition createTransaction_body (ins : Transaction) : M Bank positive :=
  let accountId := tx_accountId ins in
  let amount := tx_amount ins in
  let! account := select_account accountId in
  match account, accountId with
  | Some account, Some accountId =>
      let currentBalance := currentBalance account in
      let! newBalance :=
        (if String.eqb (tx_type ins) "income" then ret (currentBalance + amount)
         else if String.eqb (tx_type ins) "expense" then ret (currentBalance - amount)
         else throw InvalidTransactionType) in
      run! update_balance accountId newBalance in
      insert_transaction ins
  | _, _ => throw AccountNotFound
  end.

Definition createTransaction (ins : Transaction) : M Bank positive :=
  db_transaction (createTransaction_body ins).

(** The body handed to [db.transaction] by [deleteTransaction]. *)
Definition deleteTransaction_body (id : positive) : M Bank unit :=
  let! transaction := gets (fun b => transactions b !! id) in
  match transaction with
  | None => throw TransactionNotFound
  | Some transaction =>
      match tx_accountId transaction with
      | None => throw TransactionWithoutAccount
      | Some accountId =>
          let! account := select_account (Some accountId) in
          match account with
          | None => throw AccountNotFound
          | Some account =>
              let currentBalance := currentBalance account in
              let amount := tx_amount transaction in
              let newBalance :=
                if String.eqb (tx_type transaction) "income"
                then currentBalance - amount
                else if String.eqb (tx_type transaction) "expense"
                then currentBalance + amount
                else currentBalance in
              run! update_balance accountId newBalance in
              modify (with_transactions (delete id))
          end
      end
  end.

Definition deleteTransaction (id : positive) : M Bank unit :=
  db_transaction (deleteTransaction_body id).

(** The body handed to [db.transaction] by [createTransfer].  The two
    balances are read before either is written. *)
Definition createTransfer_body (ins : Transfer) : M Bank positive :=
  let fromId := fromAccountId ins in
  let toId := toAccountId ins in
  let amount := tr_amount ins in
  let! fromAccount := select_account (Some fromId) in
  let! toAccount := select_account (Some toId) in
  match fromAccount, toAccount with
  | Some fromAccount, Some toAccount =>
      if currentBalance fromAccount <? amount then throw InsufficientBalance
      else
        let newFromBalance := currentBalance fromAccount - amount in
        let newToBalance := currentBalance toAccount + amount in
        run! update_balance fromId newFromBalance in
        run! update_balance toId newToBalance in
        insert_transfer ins
  | _, _ => throw TransferAccountsNotFound
  end.

Definition createTransfer (ins : Transfer) : M Bank positive :=
  db_transaction (createTransfer_body ins).

(** [deleteTransfer] runs outside any transaction.  Its guard
    [fromAccountId && toAccountId && amount] tests two serial keys and a
    non-empty decimal string, and always holds. *)
Definition deleteTransfer (id userId : positive) : M Bank unit :=
  let! transfer := gets (fun b => transfers b !! id) in
  match transfer with
  | None => throw TransferNotFound
  | Some transfer =>
      if negb (Pos.eqb (tr_userId transfer) userId) then throw Unauthorized
      else
        let! fromAccount := select_account (Some (fromAccountId transfer)) in
        let! toAccount := select_account (Some (toAccountId transfer)) in
        run! (match fromAccount, toAccount with
              | Some fromAccount, Some toAccount =>
                  let amount := tr_amount transfer in
                  let newFromBalance := currentBalance fromAccount + amount in
                  let newToBalance := currentBalance toAccount - amount in
                  run! update_balance (fromAccountId transfer) newFromBalance in
                  update_balance (toAccountId transfer) newToBalance
              | _, _ => ret tt
              end) in
        modify (with_transfers (delete id))
  end.

(** The balance of an account, when it exists. *)
Definition balance (b : Bank) (id : positive) : option Z :=
  currentBalance <$> bankAccounts b !! id.





(** ** Vocabulary of the statements about the Balance Mutator *)

(** What [createTransaction] does to a bank whose account resolves, for a
    signed amount [delta]. *)
Definition credited (b : Bank) (id : positive) (acc : BankAccount) (delta : Z)
    (ins : Transaction) : Bank :=
  {| bankAccounts :=
       <[id := set_currentBalance (currentBalance acc + delta) acc]> (bankAccounts b);
     transactions := <[transactions_seq b := ins]> (transactions b);
     transactions_seq := Pos.succ (transactions_seq b);
     transfers := transfers b; transfers_seq := transfers_seq b |}.

Definition signed_amount (ty : string) (amount : Z) : Z :=
  if String.eqb ty "income" then amount
  else if String.eqb ty "expense" then - amount else 0.

(** The bank of Scenario C: one account opened with 5000.00. *)
Definition scenarioC_bank : Bank :=
  {| bankAccounts := {[ 1%positive := mkAccount 1 "Savings" 500000 500000 ]};
     transactions := ∅; transactions_seq := 1;
     transfers := ∅; transfers_seq := 1 |}.

Definition scenarioC_tx (ty : string) (amount : Z) : Transaction :=
  mkTransaction 1 (Some 1%positive) None None amount ty "personal" None.

(** The bank of Scenario D: account 1 holds 500.00, account 2 nothing. *)
Definition scenarioD_bank : Bank :=
  {| bankAccounts := {[ 1%positive := mkAccount 1 "A" 50000 50000;
                        2%positive := mkAccount 1 "B" 0 0 ]};
     transactions := ∅; transactions_seq := 1;
     transfers := ∅; transfers_seq := 1 |}.

Definition translate (d : positive -> Z) (j : positive) (a : BankAccount) :
    BankAccount :=
  set_currentBalance (currentBalance a + d j) a.

Definition shifted (d : positive -> Z) (m m' : gmap positive BankAccount) : Prop :=
  forall j, m' !! j = translate d j <$> m !! j.


(** The translation a transfer of [x] from [a] to [c] applies. *)
Definition transfer_shift (a c : positive) (x : Z) (j : positive) : Z :=
  (if decide (j = a) then - x else 0) + (if decide (j = c) then x else 0).



Definition orphan_tx : Transaction :=
  mkTransaction 1 (Some 7%positive) None None 100 "income" "personal" None.

End Balance.

(** * Rent ledger *)

Module Rent.

(** A row of [rent_payments].  [month] is 1 to 12.  The nullable columns
    [paid_amount] and [pending_amount] read as zero when [NULL]. *)
Record RentPayment : Type := mkRent {
  rp_id : positive;
  rp_userId : positive;
  rp_tenantId : positive;
  rp_shopId : positive;
  rp_month : Z;
  rp_year : Z;
  rp_amount : Z;
  rp_paidAmount : Z;
  rp_pendingAmount : Z;
  rp_status : string;
  rp_paymentDate : option JsDate;
  rp_notes : option string
}.

Record RentDb : Type := mkRentDb {
  rentPayments : list RentPayment;
  rentPayments_seq : positive
}.

(** A row of [shops]. *)
Record Shop : Type := mkShop {
  shop_id : positive;
  shop_userId : positive;
  buildingId : positive;
  shopNumber : string;
  monthlyRent : Z;
  isOccupied : bool;
  isAdvancePaid : bool;
  tenantId : option positive;
  allocated_at : option JsDate
}.

(** ** Ledger Primitives

    The source has no function of its own for them: [Math.max(amount -
    paid, 0)] and the status derived from it are written out in
    [upsertRentPayment], [updateRentPaymentAfterTransactionDelete] and
    [recalculateAllPendingRents], and so they are below. *)

(** The ledger invariant of a row. *)
Definition ledger_ok (r : RentPayment) : Prop :=
  rp_pendingAmount r = Z.max (rp_amount r - rp_paidAmount r) 0 /\
  rp_status r = (if rp_pendingAmount r =? 0 then "paid" else "pending").

(** ** Queries and updates on the rent table *)

(** The [where] clause shared by the accrual loops, the upsert and the
    reversal: user, tenant, shop, month and year. *)
Definition same_period (u t s : positive) (m y : Z) (r : RentPayment) : bool :=
  (rp_userId r =? u)%positive && (rp_tenantId r =? t)%positive &&
  (rp_shopId r =? s)%positive && (rp_month r =? m) && (rp_year r =? y).

Definition select_period (u t s : positive) (m y : Z)
    (rows : list RentPayment) : list RentPayment :=
  filter (fun r => same_period u t s m y r = true) rows.

(** [update(rentPayments).set(..).where(eq(rentPayments.id, id))]. *)
Definition update_where_id (id : positive) (f : RentPayment -> RentPayment)
    (rows : list RentPayment) : list RentPayment :=
  map (fun r => if (rp_id r =? id)%positive then f r else r) rows.

Definition set_paid (paid pending : Z) (status : string)
    (r : RentPayment) : RentPayment :=
  {| rp_id := rp_id r; rp_userId := rp_userId r; rp_tenantId := rp_tenantId r;
     rp_shopId := rp_shopId r; rp_month := rp_month r; rp_year := rp_year r;
     rp_amount := rp_amount r;
     rp_paidAmount := paid; rp_pendingAmount := pending; rp_status := status;
     rp_paymentDate := rp_paymentDate r; rp_notes := rp_notes r |}.

Definition set_pending (pending : Z) (status : string)
    (r : RentPayment) : RentPayment :=
  set_paid (rp_paidAmount r) pending status r.

Definition set_payment (paid pending : Z) (status : string)
    (paymentDate : JsDate) (notes : option string) (r : RentPayment) : RentPayment :=
  {| rp_id := rp_id r; rp_userId := rp_userId r; rp_tenantId := rp_tenantId r;
     rp_shopId := rp_shopId r; rp_month := rp_month r; rp_year := rp_year r;
     rp_amount := rp_amount r;
     rp_paidAmount := paid; rp_pendingAmount := pending; rp_status := status;
     rp_paymentDate := Some paymentDate; rp_notes := notes |}.

(** [insert(rentPayments).values(..)]: the row takes the next value of the
    sequence and goes to the end of the table. *)
Definition insert_rent (mk : positive -> RentPayment) (db : RentDb) : RentDb :=
  {| rentPayments := rentPayments db ++ [mk (rentPayments_seq db)];
     rentPayments_seq := Pos.succ (rentPayments_seq db) |}.

(** ** Rent Accrual Generator *)

(** The row the three accrual loops insert for a missing period. *)
Definition accrued (u t s : positive) (rent : Z) (m y : Z) (id : positive) :
    RentPayment :=
  {| rp_id := id; rp_userId := u; rp_tenantId := t; rp_shopId := s;
     rp_month := m; rp_year := y;
     rp_amount := rent; rp_paidAmount := 0; rp_pendingAmount := rent;
     rp_status := "pending"; rp_paymentDate := None; rp_notes := None |}.

(** One turn of the loop body: look the period up, insert it when no row
    comes back. *)
Definition accrue_period (u t s : positive) (rent : Z) (m y : Z)
    (db : RentDb) : RentDb :=
  match select_period u t s m y (rentPayments db) with
  | [] => insert_rent (accrued u t s rent m y) db
  | _ :: _ => db
  end.

(** [while (y < lastYear || (y === lastYear && m <= lastMonth))], the loop
    of [createShop], [updateShop] and
    [createMissingRentPaymentsForAllocatedShops].  [None] is a loop that
    did not finish within [fuel] turns. *)
Fixpoint accrual_loop (fuel : nat) (u t s : positive) (rent : Z)
    (lastYear lastMonth y m : Z) (db : RentDb) : option RentDb :=
  if (y <? lastYear) || ((y =? lastYear) && (m <=? lastMonth)) then
    match fuel with
    | O => None
    | S fuel =>
        let db := accrue_period u t s rent m y db in
        let m := m + 1 in
        if m >? 12 then accrual_loop fuel u t s rent lastYear lastMonth (y + 1) 1 db
        else accrual_loop fuel u t s rent lastYear lastMonth y m db
    end
  else Some db.

(** Turns that suffice for the loop to finish, from any integers. *)
Definition accrual_fuel (lastYear lastMonth y m : Z) : nat :=
  Z.to_nat (13 * (lastYear - y) - Z.min m 12 + 14).

(** The last period to generate, as [createShop] computes it: both
    branches of the test on the day of the month are written out. *)
Definition lastPeriod_createShop (now : JsDate) : Z * Z :=
  let lastMonth := getMonth now + 1 in
  let lastYear := getFullYear now in
  if getDate now =? 1 then
    let lastMonth := getMonth now in
    if lastMonth =? 0 then (getFullYear now - 1, 12) else (lastYear, lastMonth)
  else
    let lastMonth := getMonth now in
    if lastMonth =? 0 then (getFullYear now - 1, 12) else (lastYear, lastMonth).

(** The same, as [updateShop] and the sweep compute it (year, month). *)
Definition lastPeriod (now : JsDate) : Z * Z :=
  let currentYear := getFullYear now in
  let currentMonth := getMonth now + 1 in
  let lastYear := currentYear in
  let lastMonth := currentMonth - 1 in
  if lastMonth =? 0 then (currentYear - 1, 12) else (lastYear, lastMonth).

(** The loop started at the month of the allocation date. *)
Definition accrue_from (last : Z * Z) (u t s : positive) (rent : Z)
    (allocationDate : JsDate) (db : RentDb) : option RentDb :=
  let y := getFullYear allocationDate in
  let m := getMonth allocationDate + 1 in
  accrual_loop (accrual_fuel (fst last) (snd last) y m) u t s rent
    (fst last) (snd last) y m db.

(** The tail of [createShop], run on the row [insert(shops)] returned. *)
Definition createShop_accrual (now : JsDate) (shop : Shop) (db : RentDb) :
    option RentDb :=
  match tenantId shop, allocated_at shop with
  | Some t, Some allocationDate =>
      if getTime allocationDate <=? getTime now then
        accrue_from (lastPeriod_createShop now) (shop_userId shop) t
          (shop_id shop) (monthlyRent shop) allocationDate db
      else Some db
  | _, _ => Some db
  end.

(** The body of the sweep's [for (const shop of allShops)]. *)
Definition sweep_shop (now : JsDate) (shop : Shop) (db : RentDb) : option RentDb :=
  match tenantId shop, allocated_at shop with
  | Some t, Some allocDate =>
      if getTime allocDate >? getTime now then Some db
      else accrue_from (lastPeriod now) (shop_userId shop) t (shop_id shop)
             (monthlyRent shop) allocDate db
  | _, _ => Some db
  end.

Fixpoint createMissingRentPaymentsForAllocatedShops (now : JsDate)
    (allShops : list Shop) (db : RentDb) : option RentDb :=
  match allShops with
  | [] => Some db
  | shop :: allShops =>
      match sweep_shop now shop db with
      | Some db => createMissingRentPaymentsForAllocatedShops now allShops db
      | None => None
      end
  end.

(** ** Vocabulary of the statements about the generator *)

(** The periods (month, year) the loop visits, in order. *)
Fixpoint accrual_periods (fuel : nat) (lastYear lastMonth y m : Z) :
    option (list (Z * Z)) :=
  if (y <? lastYear) || ((y =? lastYear) && (m <=? lastMonth)) then
    match fuel with
    | O => None
    | S fuel =>
        cons (m, y) <$>
          (if m + 1 >? 12 then accrual_periods fuel lastYear lastMonth (y + 1) 1
           else accrual_periods fuel lastYear lastMonth y (m + 1))
    end
  else Some [].

Definition accrue_all (u t s : positive) (rent : Z) (ps : list (Z * Z))
    (db : RentDb) : RentDb :=
  fold_left (fun db p => accrue_period u t s rent (fst p) (snd p) db) ps db.

(** The specification's enumeration: every calendar month from the month
    numbered [first] to the month numbered [last], months being numbered
    [12 * year + (month - 1)]. *)
Definition months_between (first last : Z) : list (Z * Z) :=
  map (fun i => let k := first + Z.of_nat i in (k mod 12 + 1, k / 12))
      (seq 0 (Z.to_nat (last - first + 1))).

(** From the month of the allocation date A through the calendar month
    before [now]. *)
Definition expected_periods (A now : JsDate) : list (Z * Z) :=
  months_between (12 * getFullYear A + getMonth A)
                 (12 * getFullYear now + getMonth now - 1).

(** The periods of [ps] no row of the table answers for. *)
Definition missing_periods (u t s : positive) (rows : list RentPayment)
    (ps : list (Z * Z)) : list (Z * Z) :=
  filter (fun p => select_period u t s (fst p) (snd p) rows = []) ps.

(** Rows accrued for the periods [ps], keyed from [id] on. *)
Fixpoint accrued_rows (u t s : positive) (rent : Z) (id : positive)
    (ps : list (Z * Z)) : list RentPayment :=
  match ps with
  | [] => []
  | p :: ps => accrued u t s rent (fst p) (snd p) id
               :: accrued_rows u t s rent (Pos.succ id) ps
  end.

(** A period has a row. *)
Definition covered (u t s : positive) (rows : list RentPayment) (p : Z * Z) : Prop :=
  select_period u t s (fst p) (snd p) rows <> [].

(** The same shop, whatever its monthly rent has become. *)
Definition same_allocation (shop shop' : Shop) : Prop :=
  shop_id shop' = shop_id shop /\ shop_userId shop' = shop_userId shop /\
  tenantId shop' = tenantId shop /\ allocated_at shop' = allocated_at shop.

(** Scenario A: allocated on 2024-01-15 at 10000.00 a month; today is
    2024-04-10. *)
Definition scenarioA_shop : Shop :=
  mkShop 1 1 1 "S1" 1000000 true false (Some 7%positive)
         (Some (mkDate 1705276800000 2024 0 15)).
Definition scenarioA_now : JsDate := mkDate 1712707200000 2024 3 10.
Definition scenarioA_db : RentDb := mkRentDb [] 1.

(** Scenario A run again after the rent went up to 12000.00. *)
Definition scenarioA_shop_raised : Shop :=
  mkShop 1 1 1 "S1" 1200000 true false (Some 7%positive)
         (Some (mkDate 1705276800000 2024 0 15)).

Definition scenarioA_after : RentDb :=
  mkRentDb [ mkRent 1 1 7 1 1 2024 1000000 0 1000000 "pending" None None;
             mkRent 2 1 7 1 2 2024 1000000 0 1000000 "pending" None None;
             mkRent 3 1 7 1 3 2024 1000000 0 1000000 "pending" None None ] 4.

End Rent.

(** * Rent Payment Reconciler *)

Module Reconciler.
Import Rent.

(** The argument of [upsertRentPayment] ([data: any]).  [None] is a
    property that is [null] or [undefined], which is what [??] tests. *)
Record UpsertData : Type := mkUpsert {
  d_userId : positive;
  d_tenantId : positive;
  d_shopId : positive;
  d_month : Z;
  d_year : Z;
  d_amount : option Z;
  d_paidAmount : option Z;
  d_pendingAmount : option Z;
  d_status : option string;
  d_paymentDate : option JsDate;
  d_notes : option string
}.

(** [a ?? b]. *)
Definition nullish {A} (a : option A) (b : A) : A :=
  match a with
  | Some a => a
  | None => b
  end.

(** [upsertRentPayment].  The insert of a row without an amount violates
    the [NOT NULL] constraint of the column and is refused by the
    database. *)
Definition upsertRentPayment (now : JsDate) (data : UpsertData) :
    M RentDb RentPayment :=
  let! existing :=
    gets (fun db => select_period (d_userId data) (d_tenantId data)
                      (d_shopId data) (d_month data) (d_year data)
                      (rentPayments db)) in
  match existing with
  | prev :: _ =>
      let prevPaid := rp_paidAmount prev in
      let newPaid := prevPaid + nullish (d_paidAmount data) 0 in
      let amount := nullish (d_amount data) (rp_amount prev) in
      let pending := Z.max (amount - newPaid) 0 in
      let status := if pending =? 0 then "paid" else "pending" in
      let paymentDate := nullish (d_paymentDate data) now in
      let notes := match d_notes data with
                   | Some n => Some n
                   | None => rp_notes prev
                   end in
      run! modify (fun db =>
             {| rentPayments :=
                  update_where_id (rp_id prev)
                    (set_payment newPaid pending status paymentDate notes)
                    (rentPayments db);
                rentPayments_seq := rentPayments_seq db |}) in
      ret (set_payment newPaid pending status paymentDate notes prev)
  | [] =>
      match d_amount data with
      | None => throw (DbError "null value in column amount violates not-null constraint")
      | Some amount =>
          let created id :=
            {| rp_id := id; rp_userId := d_userId data;
               rp_tenantId := d_tenantId data; rp_shopId := d_shopId data;
               rp_month := d_month data; rp_year := d_year data;
               rp_amount := amount;
               rp_paidAmount := nullish (d_paidAmount data) 0;
               rp_pendingAmount := nullish (d_pendingAmount data) 0;
               rp_status :=
                 nullish (d_status data)
                   (if nullish (d_pendingAmount data) 0 =? 0
                    then "paid" else "pending");
               rp_paymentDate := d_paymentDate data;
               rp_notes := d_notes data |} in
          let! id := gets rentPayments_seq in
          run! modify (insert_rent created) in
          ret (created id)
      end
  end.

(** The argument of [updateRentPaymentAfterTransactionDelete]. *)
Record ReversalParams : Type := mkReversal {
  p_userId : positive;
  p_tenantId : positive;
  p_shopId : positive;
  p_month : Z;
  p_year : Z;
  p_amount : Z
}.

Definition updateRentPaymentAfterTransactionDelete (params : ReversalParams)
    (db : RentDb) : RentDb :=
  let existing :=
    select_period (p_userId params) (p_tenantId params) (p_shopId params)
      (p_month params) (p_year params) (rentPayments db) in
  match existing with
  | rent :: _ =>
      let prevPaid := rp_paidAmount rent in
      let newPaid := Z.max (prevPaid - p_amount params) 0 in
      let amount := rp_amount rent in
      let pending := Z.max (amount - newPaid) 0 in
      let status := if pending =? 0 then "paid" else "pending" in
      {| rentPayments :=
           update_where_id (rp_id rent) (set_paid newPaid pending status)
             (rentPayments db);
         rentPayments_seq := rentPayments_seq db |}
  | [] => db
  end.

(** [recalculateAllPendingRents].  The key of a group is the string
    [`${tenantId}-${shopId}-${month}-${year}`], which determines the four
    numbers; the groups are visited in the order their first row was met. *)
Definition group_key (p : RentPayment) : positive * positive * Z * Z :=
  (rp_tenantId p, rp_shopId p, rp_month p, rp_year p).

Record Group : Type := mkGroup {
  g_key : positive * positive * Z * Z;
  g_payments : list RentPayment;
  g_amount : Z
}.

(** [if (!grouped[key]) grouped[key] = {payments: [], amount};
     grouped[key].payments.push(p)]. *)
Fixpoint group_push (p : RentPayment) (grouped : list Group) : list Group :=
  match grouped with
  | [] => [mkGroup (group_key p) [p] (rp_amount p)]
  | g :: grouped =>
      if decide (g_key g = group_key p)
      then mkGroup (g_key g) (g_payments g ++ [p]) (g_amount g) :: grouped
      else g :: group_push p grouped
  end.

Definition group_all (allRentPayments : list RentPayment) : list Group :=
  fold_left (fun grouped p => group_push p grouped) allRentPayments [].

Definition recalculate_group (rows : list RentPayment) (g : Group) :
    list RentPayment :=
  let totalPaid := fold_left (fun sum p => sum + rp_paidAmount p) (g_payments g) 0 in
  let pending := Z.max (g_amount g - totalPaid) 0 in
  fold_left
    (fun rows p =>
       update_where_id (rp_id p)
         (set_pending pending (if pending =? 0 then "paid" else "pending")) rows)
    (g_payments g) rows.

Definition recalculateAllPendingRents (userId : positive)
    (rows : list RentPayment) : list RentPayment :=
  let allRentPayments := filter (fun p => rp_userId p = userId) rows in
  fold_left recalculate_group (group_all allRentPayments) rows.

(** ** Vocabulary of the statements about the reconciler *)

(** Primary keys are unique. *)
Definition unique_ids (rows : list RentPayment) : Prop :=
  NoDup (map rp_id rows).


(** Scenario B: the January 2024 period of Scenario A, at 10000.00. *)
Definition scenarioB_row (paid pending : Z) (status : string)
    (paymentDate : option JsDate) : RentPayment :=
  mkRent 1 1 7 1 1 2024 1000000 paid pending status paymentDate None.

Definition scenarioB_db (paid pending : Z) (status : string)
    (paymentDate : option JsDate) : RentDb :=
  mkRentDb [scenarioB_row paid pending status paymentDate] 2.

Definition scenarioB_now : JsDate := mkDate 1712707200000 2024 3 10.



Definition single_group (p : RentPayment) : Group :=
  mkGroup (group_key p) [p] (rp_amount p).

(** The values the pass writes to a row that is alone in its group. *)
Definition recalculated (p : RentPayment) : RentPayment :=
  set_pending (Z.max (rp_amount p - rp_paidAmount p) 0)
    (if Z.max (rp_amount p - rp_paidAmount p) 0 =? 0 then "paid" else "pending") p.

Definition recalculate_as (p r : RentPayment) : RentPayment :=
  set_pending (rp_pendingAmount (recalculated p)) (rp_status (recalculated p)) r.

End Reconciler.

(** * The rent payment form (AddRentPaymentModal), caller of the upsert *)

Module RentForm.
Import Rent Reconciler.

(** The state of the form.  The identifiers and the amount are strings in
    the source: [None] is the empty string, which is falsy and which
    [Number] turns into 0, the key of no row; the amount comes from an
    [input type="number"], so a non-empty string is a number. *)
Record Form : Type := mkForm {
  selectedTenantId : option positive;
  selectedShopId : option positive;
  selectedMonth : Z;
  selectedYear : Z;
  paidAmount : option Z;
  selectedAccountId : option positive;
  paymentDate : option JsDate
}.

(** The toasts [handleSubmit] returns on, by title. *)
Inductive Toast : Type :=
| ToastRequiredFields
| ToastNotAllocated
| ToastAlreadyPaid
| ToastAmountExceedsActualRent
| ToastInvalidAmount.

Definition toast_title (t : Toast) : string :=
  match t with
  | ToastRequiredFields | ToastNotAllocated => "Error"
  | ToastAlreadyPaid => "Already Paid"
  | ToastAmountExceedsActualRent => "Amount Exceeds Actual Rent"
  | ToastInvalidAmount => "Invalid Amount"
  end.

Definition tenantShops (form : Form) (shops : list Shop) : list Shop :=
  match selectedTenantId form with
  | None => []
  | Some t => filter (fun shop => tenantId shop = Some t) shops
  end.

Definition shopRent (form : Form) (shops : list Shop) : Z :=
  match selectedShopId form with
  | None => 0
  | Some s =>
      match List.find (fun shop => (shop_id shop =? s)%positive) shops with
      | Some shop => monthlyRent shop
      | None => 0
      end
  end.

(** [rentPayments.filter(p => p.tenantId === .. && p.shopId === .. &&
    p.month === .. && p.year === ..)]. *)
Definition period_payments (form : Form) (rentPayments : list RentPayment) :
    list RentPayment :=
  match selectedTenantId form, selectedShopId form with
  | Some t, Some s =>
      filter (fun p => rp_tenantId p = t /\ rp_shopId p = s /\
                       rp_month p = selectedMonth form /\
                       rp_year p = selectedYear form) rentPayments
  | _, _ => []
  end.

Definition periodAmount (form : Form) (shops : list Shop)
    (rentPayments : list RentPayment) : Z :=
  match period_payments form rentPayments with
  | p :: _ => rp_amount p
  | [] => shopRent form shops
  end.

Definition totalPaidSoFar (form : Form) (rentPayments : list RentPayment) : Z :=
  fold_left (fun sum p => sum + rp_paidAmount p)
    (period_payments form rentPayments) 0.

Definition isFullyPaidForPeriod (form : Form) (shops : list Shop)
    (rentPayments : list RentPayment) : bool :=
  match selectedTenantId form, selectedShopId form with
  | Some _, Some _ =>
      (periodAmount form shops rentPayments >? 0) &&
      (totalPaidSoFar form rentPayments >=? periodAmount form shops rentPayments)
  | _, _ => false
  end.

(** [handleSubmit]: a toast and no request, or the body of the request to
    [POST /api/rent-payments/upsert], to which the route adds the user of
    the session.  The page's [onSubmitTransform] only turns the amounts
    into strings. *)
Definition handleSubmit (userId : positive) (form : Form) (shops : list Shop)
    (rentPayments : list RentPayment) : Toast + UpsertData :=
  match selectedTenantId form, selectedShopId form, paidAmount form,
        selectedAccountId form, paymentDate form with
  | Some t, Some s, Some paid, Some _, Some paymentDateObj =>
      match tenantShops form shops with
      | [] => inl ToastNotAllocated
      | _ :: _ =>
          if isFullyPaidForPeriod form shops rentPayments then inl ToastAlreadyPaid
          else
            let periodAmount := periodAmount form shops rentPayments in
            let totalPaidSoFar := totalPaidSoFar form rentPayments in
            if paid + totalPaidSoFar >? periodAmount
            then inl ToastAmountExceedsActualRent
            else if paid <=? 0 then inl ToastInvalidAmount
            else
              let pending := Z.max (periodAmount - (totalPaidSoFar + paid)) 0 in
              inr {| d_userId := userId; d_tenantId := t; d_shopId := s;
                     d_month := selectedMonth form; d_year := selectedYear form;
                     d_amount := Some (shopRent form shops);
                     d_paidAmount := Some paid;
                     d_pendingAmount := Some pending;
                     d_status := Some (if pending =? 0 then "paid" else "pending");
                     d_paymentDate := Some paymentDateObj;
                     d_notes := None |}
      end
  | _, _, _, _, _ =>
      match tenantShops form shops with
      | [] => inl ToastNotAllocated
      | _ :: _ => inl ToastRequiredFields
      end
  end.

(** [getRentPayments(userId)], the list the page hands to the form. *)
Definition getRentPayments (userId : positive) (db : RentDb) : list RentPayment :=
  filter (fun r => rp_userId r = userId) (rentPayments db).

(** Submitting the form against the server: the upsert runs only when
    [handleSubmit] lets the request go. *)
Definition submitRentPayment (now : JsDate) (userId : positive) (form : Form)
    (shops : list Shop) : M RentDb (Toast + RentPayment) :=
  let! rentPayments := gets (getRentPayments userId) in
  match handleSubmit userId form shops rentPayments with
  | inl toast => ret (inl toast)
  | inr data =>
      let! row := upsertRentPayment now data in
      ret (inr row)
  end.

(** ** Vocabulary of the statements about the form *)


(** Scenario B at the form: tenant 7 pays for shop 1, January 2024. *)
Definition scenarioB_form (paid : Z) : Form :=
  mkForm (Some 7%positive) (Some 1%positive) 1 2024 (Some paid)
         (Some 1%positive) (Some scenarioB_now).

Definition scenarioB_shops : list Shop := [scenarioA_shop].

End RentForm.

(** * Updating a shop *)

Module ShopUpdate.
Import Rent.

(** A property of the [updates] object sent in the body of
    [PUT /api/shops/:id]: not there, [null], or a value.  A tenant is a
    serial key, hence truthy. *)
Inductive Field (A : Type) : Type :=
| Absent
| Null
| Value (a : A).
Arguments Absent {A}.
Arguments Null {A}.
Arguments Value {A} a.

(** An allocation date as it may come in: a string, or a [Date] object
    that is valid or not. *)
Inductive DateInput : Type :=
| DateString (s : string)
| DateObject (d : option JsDate).

Record ShopUpdates : Type := mkUpdates {
  u_tenantId : Field positive;
  u_allocated_at : Field DateInput;
  u_allocatedAt : Field DateInput;
  u_monthlyRent : option Z;
  u_shopNumber : option string;
  u_isOccupied : option bool;
  u_isAdvancePaid : option bool
}.

Record PropertyDb : Type := mkPropertyDb {
  shops : list Shop;
  rents : RentDb
}.

(** JavaScript truthiness of a date property: the empty string is falsy,
    an object is truthy even when it is an invalid [Date]. *)
Definition truthy (f : Field DateInput) : bool :=
  match f with
  | Value (DateString s) => negb (String.eqb s "")
  | Value (DateObject _) => true
  | Absent | Null => false
  end.

(** ['allocated_at' in updates]. *)
Definition in_updates {A} (f : Field A) : bool :=
  match f with
  | Absent => false
  | Null | Value _ => true
  end.

Section UpdateShop.

(** The date parsing of the host: the test [/^\d{4}-\d{2}-\d{2}$/], the
    date [Date.UTC(year, month - 1, day)] of a string that passes it, and
    [new Date(str)], which is [None] when [isNaN(getTime())]. *)
Variable isDateOnly : string -> bool.
Variable utcDate : string -> JsDate.
Variable newDate : string -> option JsDate.
Variable now : JsDate.

Definition with_allocated_at (v : Field DateInput) (u : ShopUpdates) : ShopUpdates :=
  {| u_tenantId := u_tenantId u; u_allocated_at := v;
     u_allocatedAt := u_allocatedAt u; u_monthlyRent := u_monthlyRent u;
     u_shopNumber := u_shopNumber u; u_isOccupied := u_isOccupied u;
     u_isAdvancePaid := u_isAdvancePaid u |}.

Definition with_isOccupied (v : bool) (u : ShopUpdates) : ShopUpdates :=
  {| u_tenantId := u_tenantId u; u_allocated_at := u_allocated_at u;
     u_allocatedAt := u_allocatedAt u; u_monthlyRent := u_monthlyRent u;
     u_shopNumber := u_shopNumber u; u_isOccupied := Some v;
     u_isAdvancePaid := u_isAdvancePaid u |}.

Definition of_date (d : option JsDate) : Field DateInput :=
  match d with
  | Some d => Value (DateObject (Some d))
  | None => Null
  end.

(** The date a truthy property denotes, when it denotes one. *)
Definition date_of (f : Field DateInput) : option JsDate :=
  match f with
  | Value (DateString s) => newDate s
  | Value (DateObject d) => d
  | Absent | Null => None
  end.

(** Lines 470 to 512 of [updateShop]: the [updates] object as it is handed
    to [db.update(shops).set(updates)]. *)
Definition normalize (updates : ShopUpdates) : ShopUpdates :=
  (* accept allocatedAt, but always use allocated_at *)
  let updates :=
    if truthy (u_allocatedAt updates) && negb (truthy (u_allocated_at updates))
    then with_allocated_at (u_allocatedAt updates) updates else updates in
  let updates :=
    if truthy (u_allocated_at updates) then
      match u_allocated_at updates with
      | Value (DateString dateStr) =>
          let allocationDate :=
            if isDateOnly dateStr then Some (utcDate dateStr) else newDate dateStr in
          with_allocated_at (of_date allocationDate) updates
      | Value (DateObject d) => with_allocated_at (of_date d) updates
      | Absent | Null => updates
      end
    else if truthy (u_allocatedAt updates) then
      with_allocated_at (of_date (date_of (u_allocatedAt updates))) updates
    else updates in
  let updates :=
    match u_tenantId updates with
    | Value _ =>
        if negb (truthy (u_allocated_at updates))
        then with_allocated_at (Value (DateObject (Some now))) updates
        else updates
    | Absent | Null => updates
    end in
  (* if deallocating (tenantId is null/undefined), set allocated_at to null *)
  let updates :=
    match u_tenantId updates with
    | Absent | Null => with_isOccupied false (with_allocated_at Null updates)
    | Value _ =>
        let allocDate :=
          if truthy (u_allocated_at updates)
          then match date_of (u_allocated_at updates) with
               | Some d => d
               | None => now
               end
          else now in
        with_isOccupied (getTime allocDate <=? getTime now) updates
    end in
  (* delete updates.allocatedAt *)
  {| u_tenantId := u_tenantId updates; u_allocated_at := u_allocated_at updates;
     u_allocatedAt := Absent; u_monthlyRent := u_monthlyRent updates;
     u_shopNumber := u_shopNumber updates; u_isOccupied := u_isOccupied updates;
     u_isAdvancePaid := u_isAdvancePaid updates |}.

(** The value a date property puts in the [timestamp] column; a string
    that is no date is refused by the database. *)
Definition allocated_at_column (f : Field DateInput) (old : option JsDate) :
    Error + option JsDate :=
  match f with
  | Absent => inr old
  | Null => inr None
  | Value (DateObject d) => inr d
  | Value (DateString _) => inl (DbError "invalid input syntax for type timestamp")
  end.

(** [set(updates)] on one row: a property that is not there leaves its
    column alone. *)
Definition set_updates (updates : ShopUpdates) (allocated : option JsDate)
    (shop : Shop) : Shop :=
  {| shop_id := shop_id shop; shop_userId := shop_userId shop;
     buildingId := buildingId shop;
     shopNumber := match u_shopNumber updates with
                   | Some v => v
                   | None => shopNumber shop
                   end;
     monthlyRent := match u_monthlyRent updates with
                    | Some v => v
                    | None => monthlyRent shop
                    end;
     isOccupied := match u_isOccupied updates with
                   | Some v => v
                   | None => isOccupied shop
                   end;
     isAdvancePaid := match u_isAdvancePaid updates with
                      | Some v => v
                      | None => isAdvancePaid shop
                      end;
     tenantId := match u_tenantId updates with
                 | Absent => tenantId shop
                 | Null => None
                 | Value t => Some t
                 end;
     allocated_at := allocated |}.

Definition owned_shop (id userId : positive) (shop : Shop) : bool :=
  (shop_id shop =? id)%positive && (shop_userId shop =? userId)%positive.

(** Step 1 of the recalculation in [updateShop]: the rows of this shop and
    tenant dated before the month of the allocation date go. *)
Definition delete_before (u t s : positive) (allocationDate : JsDate)
    (rows : list RentPayment) : list RentPayment :=
  filter (fun r =>
            ~ ((rp_userId r = u /\ rp_tenantId r = t /\ rp_shopId r = s) /\
               (rp_year r < getFullYear allocationDate \/
                (rp_year r = getFullYear allocationDate /\
                 rp_month r < getMonth allocationDate + 1)))) rows.

(** [updateShop(id, userId, updates)].  When no row matches, [returning()]
    is empty, [shop] is [undefined] and reading [shop.tenantId] throws. *)
Definition updateShop (id userId : positive) (updates : ShopUpdates) :
    M PropertyDb Shop :=
  let updates := normalize updates in
  let! found := gets (fun db => List.find (owned_shop id userId) (shops db)) in
  match found with
  | None => throw (TypeError "Cannot read properties of undefined (reading 'tenantId')")
  | Some old =>
      match allocated_at_column (u_allocated_at updates) (allocated_at old) with
      | inl e => throw e
      | inr allocated =>
          let shop := set_updates updates allocated old in
          run! modify (fun db =>
                 {| shops := map (fun s => if owned_shop id userId s
                                           then set_updates updates allocated s
                                           else s) (shops db);
                    rents := rents db |}) in
          run! (if in_updates (u_allocated_at updates) || in_updates (u_tenantId updates)
                then
                  match tenantId shop, allocated_at shop with
                  | Some t, Some allocationDate =>
                      if getTime allocationDate <=? getTime now then
                        fun db =>
                          let kept :=
                            {| rentPayments :=
                                 delete_before (shop_userId shop) t (shop_id shop)
                                   allocationDate (rentPayments (rents db));
                               rentPayments_seq := rentPayments_seq (rents db) |} in
                          match accrue_from (lastPeriod now) (shop_userId shop) t
                                  (shop_id shop) (monthlyRent shop) allocationDate
                                  kept with
                          | Some rents' => Ok tt {| shops := shops db; rents := rents' |}
                          | None => Throw OutOfFuel
                                      {| shops := shops db; rents := kept |}
                          end
                      else ret tt
                  | _, _ => ret tt
                  end
                else ret tt) in
          ret shop
      end
  end.

End UpdateShop.

(** ** Vocabulary of the statements about [updateShop] *)

(** A shop let to tenant 7 since 2024-01-15, and a request that only
    raises its rent to 12000.00. *)
Definition let_shop : Shop :=
  mkShop 1 1 1 "S1" 1000000 true false (Some 7%positive)
         (Some (mkDate 1705276800000 2024 0 15)).

Definition rent_raise : ShopUpdates :=
  mkUpdates Absent Absent Absent (Some 1200000) None None None.

Definition let_db : PropertyDb :=
  mkPropertyDb [let_shop] (mkRentDb [] 1).

End ShopUpdate.

(** * Backup and restore *)

Module Backup.
Import Rent Reconciler.

(** The seven exported tables the restore only moves rows of.  A row is
    its primary key, its owner and the rest of its columns. *)
Inductive Table : Type :=
| Accounts | Categories | Buildings | Shops | Tenants | Transactions | Transfers.

Global Instance Table_eq_dec : EqDecision Table.
Proof. solve_decision. Defined.

Record Row : Type := mkRow {
  row_id : positive;
  row_userId : positive;
  row_columns : string
}.

Record Store : Type := mkStore {
  table : Table -> list Row;
  rentPayments : list RentPayment;
  tenantShops : list (positive * positive)
}.

(** The database together with the number of statements it has been
    sent. *)
Record World : Type := mkWorld {
  store : Store;
  sent : nat
}.

(** A record of a backup document: the row it denotes, the properties
    that are [null] or [undefined] in it, and its date properties that are
    set but that [new Date] does not parse. *)
Record DocRow (A : Type) : Type := mkDoc {
  doc_row : A;
  doc_missing : list string;
  doc_bad_dates : list string
}.
Arguments mkDoc {A} doc_row doc_missing doc_bad_dates.
Arguments doc_row {A} d.
Arguments doc_missing {A} d.
Arguments doc_bad_dates {A} d.

(** A backup document; [None] is a key whose value is not an array. *)
Record Document : Type := mkDocument {
  doc_table : Table -> option (list (DocRow Row));
  doc_rentPayments : option (list (DocRow RentPayment))
}.

(** The answer of [POST /api/backup/import]. *)
Record Response : Type := mkResponse {
  res_status : nat;
  res_message : string;
  res_error : option string;
  res_restoreError : option string
}.

Definition set_table (T : Table) (rows : list Row) (s : Store) : Store :=
  {| table := fun T' => if decide (T' = T) then rows else table s T';
     rentPayments := rentPayments s; tenantShops := tenantShops s |}.

Definition set_rentPayments (rows : list RentPayment) (s : Store) : Store :=
  {| table := table s; rentPayments := rows; tenantShops := tenantShops s |}.

Definition set_tenantShops (rows : list (positive * positive)) (s : Store) : Store :=
  {| table := table s; rentPayments := rentPayments s; tenantShops := rows |}.

Definition set_row_user (userId : positive) (r : Row) : Row :=
  {| row_id := row_id r; row_userId := userId; row_columns := row_columns r |}.

Definition set_rent_user (userId : positive) (r : RentPayment) : RentPayment :=
  {| rp_id := rp_id r; rp_userId := userId; rp_tenantId := rp_tenantId r;
     rp_shopId := rp_shopId r; rp_month := rp_month r; rp_year := rp_year r;
     rp_amount := rp_amount r; rp_paidAmount := rp_paidAmount r;
     rp_pendingAmount := rp_pendingAmount r; rp_status := rp_status r;
     rp_paymentDate := rp_paymentDate r; rp_notes := rp_notes r |}.

Section Datastore.

(** What the datastore does with the statement it receives as its n-th:
    [Some msg] is a statement it rejects, throwing an error with that
    message (a violated constraint, a lost connection). *)
Variable faults : nat -> option string.

(** A writing statement, outside any transaction: it is applied, or it
    throws and changes nothing. *)
Definition statement (f : Store -> Store) : M World unit :=
  fun w =>
    match faults (sent w) with
    | Some msg => Throw (DbError msg) {| store := store w; sent := S (sent w) |}
    | None => Ok tt {| store := f (store w); sent := S (sent w) |}
    end.

Definition query {A} (f : Store -> A) : M World A :=
  fun w =>
    match faults (sent w) with
    | Some msg => Throw (DbError msg) {| store := store w; sent := S (sent w) |}
    | None => Ok (f (store w)) {| store := store w; sent := S (sent w) |}
    end.

(** An insert that keeps the identifiers of its rows: besides what the
    datastore may reject on its own, it is refused when a primary key
    would occur twice. *)
Definition insert_statement (duplicate : Store -> bool) (f : Store -> Store) :
    M World unit :=
  fun w =>
    match faults (sent w) with
    | Some msg => Throw (DbError msg) {| store := store w; sent := S (sent w) |}
    | None =>
        if duplicate (store w)
        then Throw (DbError "duplicate key value violates unique constraint")
               {| store := store w; sent := S (sent w) |}
        else Ok tt {| store := f (store w); sent := S (sent w) |}
    end.

Fixpoint for_each {A} (l : list A) (body : A -> M World unit) : M World unit :=
  match l with
  | [] => ret tt
  | x :: l => run! body x in for_each l body
  end.

(** [try { body } catch (e) { handler(e) }]. *)
Definition try_catch {A} (body : M World A) (handler : Error -> M World A) :
    M World A :=
  fun w =>
    match body w with
    | Ok a w' => Ok a w'
    | Throw e w' => handler e w'
    end.

Definition as_doc {A} (r : A) : DocRow A := mkDoc r [] [].

(** [getFullBackup]: the rows of the user, table by table. *)
Definition export_table (userId : positive) (T : Table) : M World (list (DocRow Row)) :=
  query (fun s => map as_doc (filter (fun r => row_userId r = userId) (table s T))).

Definition getFullBackup (userId : positive) : M World Document :=
  let! user := query (fun _ => userId) in
  let! accounts := export_table userId Accounts in
  let! cats := export_table userId Categories in
  let! builds := export_table userId Buildings in
  let! shps := export_table userId Shops in
  let! tnts := export_table userId Tenants in
  let! txs := export_table userId Transactions in
  let! trs := export_table userId Transfers in
  let! rents :=
    query (fun s => map as_doc
                      (filter (fun r => rp_userId r = userId) (rentPayments s))) in
  ret {| doc_table := fun T =>
           Some match T with
                | Accounts => accounts
                | Categories => cats
                | Buildings => builds
                | Shops => shps
                | Tenants => tnts
                | Transactions => txs
                | Transfers => trs
                end;
         doc_rentPayments := Some rents |}.

(** [deleteAllUserData]: one [delete] for each table, children first; the
    rows of the user go, and every tenant-shop link, a table without an
    owner column that is deleted without a [where]. *)
Definition delete_rows (userId : positive) (T : Table) : M World unit :=
  statement (fun s =>
    set_table T (filter (fun r => row_userId r <> userId) (table s T)) s).

Definition deleteAllUserData (userId : positive) : M World unit :=
  run! statement (fun s =>
         set_rentPayments
           (filter (fun r => rp_userId r <> userId) (rentPayments s)) s) in
  run! for_each [Transfers; Transactions] (delete_rows userId) in
  run! statement (set_tenantShops []) in
  for_each [Shops; Buildings; Tenants; Categories; Accounts] (delete_rows userId).

(** [validateBackupData]. *)
Definition table_key (T : Table) : string :=
  match T with
  | Accounts => "accounts" | Categories => "categories"
  | Buildings => "buildings" | Shops => "shops" | Tenants => "tenants"
  | Transactions => "transactions" | Transfers => "transfers"
  end.

Definition required_props (T : Table) : list string * string :=
  match T with
  | Accounts => (["name"; "accountType"], "account")
  | Categories => (["name"; "type"], "category")
  | Buildings => (["name"], "building")
  | Shops => (["name"; "buildingId"], "shop")
  | Tenants => (["name"], "tenant")
  | Transactions => (["type"; "amount"], "transaction")
  | Transfers => (["amount"; "fromAccountId"; "toAccountId"], "transfer")
  end.

(** The first thing [a] or else [b] throws. *)
Definition or_else (a b : option Error) : option Error :=
  match a with
  | Some e => Some e
  | None => b
  end.

Fixpoint first_error {A} (check : A -> option Error) (l : list A) : option Error :=
  match l with
  | [] => None
  | x :: l => or_else (check x) (first_error check l)
  end.

Definition validateRequired {A} (props : list string) (context : string)
    (obj : DocRow A) : option Error :=
  first_error (fun prop => if decide (prop ∈ doc_missing obj)
                           then Some (MissingField prop context) else None)
    props.

Definition validate_dates {A} (table : string) (fields : list string)
    (record : DocRow A) : option Error :=
  first_error (fun field => if decide (field ∈ doc_bad_dates record)
                            then Some (InvalidDate table field) else None)
    fields.

Definition rows_of {A} (o : option (list A)) : list A :=
  match o with
  | Some l => l
  | None => []
  end.

Definition validateBackupData (backup : Document) : option Error :=
  or_else
    (first_error (fun T => match doc_table backup T with
                           | Some _ => None
                           | None => Some (InvalidBackup (table_key T))
                           end)
       [Accounts; Categories; Buildings; Shops; Tenants; Transactions; Transfers])
  (or_else
    (match doc_rentPayments backup with
     | Some _ => None
     | None => Some (InvalidBackup "rentPayments")
     end)
  (or_else
    (first_error
       (fun T => first_error
                   (validateRequired (fst (required_props T)) (snd (required_props T)))
                   (rows_of (doc_table backup T)))
       [Accounts; Categories; Buildings; Shops; Tenants; Transactions; Transfers])
  (or_else
    (first_error (validateRequired ["amount"; "shopId"; "tenantId"] "rent payment")
       (rows_of (doc_rentPayments backup)))
  (or_else
    (first_error (validate_dates "transactions" ["transactionDate"])
       (rows_of (doc_table backup Transactions)))
  (or_else
    (first_error (validate_dates "transfers" ["transferDate"])
       (rows_of (doc_table backup Transfers)))
    (first_error (validate_dates "rentPayments" ["paymentDate"])
       (rows_of (doc_rentPayments backup)))))))).

(** [recalculateAllPendingRents], statement by statement. *)
Definition recalculateAllPendingRents_db (userId : positive) : M World unit :=
  let! allRentPayments :=
    query (fun s => filter (fun p => rp_userId p = userId) (rentPayments s)) in
  for_each (group_all allRentPayments) (fun g =>
    let totalPaid :=
      fold_left (fun sum p => sum + rp_paidAmount p) (g_payments g) 0 in
    let pending := Z.max (g_amount g - totalPaid) 0 in
    for_each (g_payments g) (fun p =>
      statement (fun s =>
        set_rentPayments
          (update_where_id (rp_id p)
             (set_pending pending (if pending =? 0 then "paid" else "pending"))
             (rentPayments s)) s))).

(** [resetAllSequences]: ten statements, each in its own [try], whose
    errors are logged and dropped.  Sequences are not part of the store. *)
Definition resetAllSequences : M World unit :=
  for_each (seq 0 10) (fun _ =>
    try_catch (statement (fun s => s)) (fun _ => ret tt)).

(** [importBackupData]: one insert for each array that is not empty, in
    the order accounts, categories, buildings, tenants, shops,
    transactions, transfers, rent payments; the rows are given to [userId]
    and keep their identifiers. *)
Definition imported_rows (userId : positive) (rows : list (DocRow Row)) : list Row :=
  map (fun a => set_row_user userId (doc_row a)) rows.

Definition imported_rents (userId : positive) (rows : list (DocRow RentPayment)) :
    list RentPayment :=
  map (fun rp => set_rent_user userId (doc_row rp)) rows.

Definition insert_rows (userId : positive) (T : Table) (backup : Document) :
    M World unit :=
  match doc_table backup T with
  | Some (r :: rows) =>
      insert_statement
        (fun s => negb (bool_decide
           (NoDup (map row_id (table s T ++ imported_rows userId (r :: rows))))))
        (fun s => set_table T (table s T ++ imported_rows userId (r :: rows)) s)
  | Some [] | None => ret tt
  end.

Definition insert_rents (userId : positive) (backup : Document) : M World unit :=
  match doc_rentPayments backup with
  | Some (r :: rows) =>
      insert_statement
        (fun s => negb (bool_decide
           (NoDup (map rp_id (rentPayments s ++ imported_rents userId (r :: rows))))))
        (fun s => set_rentPayments
                    (rentPayments s ++ imported_rents userId (r :: rows)) s)
  | Some [] | None => ret tt
  end.

Definition importBackupData (userId : positive) (backup : Document) : M World unit :=
  run! for_each [Accounts; Categories; Buildings; Tenants; Shops;
                 Transactions; Transfers]
         (fun T => insert_rows userId T backup) in
  run! insert_rents userId backup in
  run! recalculateAllPendingRents_db userId in
  resetAllSequences.

(** The handler of [POST /api/backup/import], from the point where the
    uploaded file has been parsed into an object. *)
Definition attempt (userId : positive) (backup : Document) : M World unit :=
  run! (match validateBackupData backup with
        | Some e => throw e
        | None => ret tt
        end) in
  run! deleteAllUserData userId in
  importBackupData userId backup.

Definition restore_previous (userId : positive) (currentData : Document) :
    M World unit :=
  run! deleteAllUserData userId in
  importBackupData userId currentData.

Definition import_handler (userId : positive) (backup : Document) : M World Response :=
  try_catch
    (let! currentData := getFullBackup userId in
     try_catch
       (run! attempt userId backup in
        ret (mkResponse 200 "Data imported successfully" None None))
       (fun error =>
          let! restoreErrorMsg :=
            try_catch
              (run! restore_previous userId currentData in ret "")
              (fun restoreError => ret (message restoreError)) in
          ret (mkResponse 400
                 (if String.eqb restoreErrorMsg ""
                  then "Import failed, previous data has been restored"
                  else "Import failed and data restoration failed. Please contact support.")
                 (Some (message error))
                 (if String.eqb restoreErrorMsg "" then None
                  else Some restoreErrorMsg))))
    (fun error =>
       ret (mkResponse 500 "Failed to process import request"
              (Some (message error)) None)).

End Datastore.

(** ** Vocabulary of the statements about the restore: Scenario E *)

(** Two users; user 1 has one account and one rent period, of 10000.00
    with 6000.00 paid, whose pending amount and status are given. *)
Definition scenarioE_store (pending : Z) (status : string) : Store :=
  mkStore (fun T => match T with
                    | Accounts => [mkRow 1 1 "Savings"; mkRow 2 2 "Other"]
                    | _ => []
                    end)
    [mkRent 1 1 7 1 1 2024 1000000 600000 pending status None None] [].

(** A well-formed document with one account. *)
Definition scenarioE_doc : Document :=
  mkDocument (fun T => match T with
                       | Accounts => Some [mkDoc (mkRow 5 9 "New") [] []]
                       | _ => Some []
                       end)
    (Some []).

(** The datastore fails once, on its [k]-th statement. *)
Definition fails_at (k : nat) (n : nat) : option string :=
  if (n =? k)%nat then Some "connection lost" else None.

(** It fails on its [k]-th statement and again on its [k']-th. *)
Definition fails_twice (k k' : nat) (n : nat) : option string :=
  if (n =? k)%nat then Some "connection lost"
  else if (n =? k')%nat then Some "connection still lost" else None.

(** From its [t]-th statement on, the datastore rejects nothing on its
    own. *)
Definition quiet_from (faults : nat -> option string) (t : nat) : Prop :=
  forall n, (t <= n)%nat -> faults n = None.

(** [c] returns from [w], in [w'], the datastore having received more
    statements. *)
Definition returns (c : M World unit) (w w' : World) : Prop :=
  c w = Ok tt w' /\ (sent w <= sent w')%nat.

(** [c] keeps [I], whether it returns or throws, whatever the datastore
    rejects. *)
Definition preserves {A} (I : Store -> Prop) (c : M World A) : Prop :=
  forall w, I (store w) -> I (store (final (c w))).

(** The rows of the other users are where they were, and the primary keys
    of the rent table are unique. *)
Definition others_kept (u : positive) (s0 s : Store) : Prop :=
  (forall T, filter (fun r => row_userId r <> u) (table s T) =
             filter (fun r => row_userId r <> u) (table s0 T)) /\
  filter (fun r => rp_userId r <> u) (rentPayments s) =
    filter (fun r => rp_userId r <> u) (rentPayments s0) /\
  unique_ids (rentPayments s).

(** The rent table while the recalculation pass runs over the rows [all]
    it has read. *)
Definition recalculating (u : positive) (s0 : Store) (all : list RentPayment)
    (s : Store) : Prop :=
  others_kept u s0 s /\
  forall p, p ∈ all ->
    exists r, r ∈ rentPayments s /\ rp_id r = rp_id p /\ rp_userId r = u.

(** Primary keys are unique in every table. *)
Definition store_ok (s : Store) : Prop :=
  (forall T, NoDup (map row_id (table s T))) /\ unique_ids (rentPayments s).

End Backup.

(** * Bank accounts and the books they keep *)

Module Books.
Import Balance.

(** [InsertBankAccount], with the columns of [BankAccount]. *)
Record InsertBankAccount : Type := mkInsertAccount {
  ins_userId : positive;
  ins_name : string;
  ins_initialBalance : option Z
}.

(** [createBankAccount].  [id] is the value the sequence of the table
    hands out for the new row; the insert is refused when a row has it. *)
Definition createBankAccount (id : positive) (insertAccount : InsertBankAccount) :
    M Bank BankAccount :=
  let initial := Reconciler.nullish (ins_initialBalance insertAccount) 0 in
  let account :=
    {| acc_userId := ins_userId insertAccount; acc_name := ins_name insertAccount;
       initialBalance := initial; currentBalance := initial |} in
  fun b =>
    match bankAccounts b !! id with
    | Some _ => Throw (DbError "duplicate key value violates unique constraint") b
    | None => Ok account (with_accounts (insert id account) b)
    end.

(** [getBankAccounts(userId)].  Its callers look a row up by its key, which
    the order of the rows does not affect. *)
Definition getBankAccounts (userId : positive) (b : Bank) :
    gmap positive BankAccount :=
  filter (fun p => acc_userId p.2 = userId) (bankAccounts b).

(** [deleteBankAccount(id)]: the transactions of the account, the
    transfers from it or to it, then the account.  Neither the owner nor
    the other end of a transfer is looked at. *)
Definition deleteBankAccount (id : positive) : M Bank unit :=
  run! modify (with_transactions
         (filter (fun p => tx_accountId p.2 <> Some id))) in
  run! modify (with_transfers
         (filter (fun p => ~ (fromAccountId p.2 = id \/ toAccountId p.2 = id)))) in
  modify (with_accounts (delete id)).

(** The requests that move money, each served as a call of its own. *)
Inductive Request : Type :=
| CreateBankAccount (id : positive) (insertAccount : InsertBankAccount)
| CreateTransaction (ins : Transaction)
| DeleteTransaction (id : positive)
| CreateTransfer (ins : Transfer)
| DeleteTransfer (id userId : positive).

Definition serve (req : Request) (b : Bank) : Bank :=
  match req with
  | CreateBankAccount id insertAccount => final (createBankAccount id insertAccount b)
  | CreateTransaction ins => final (createTransaction ins b)
  | DeleteTransaction id => final (deleteTransaction id b)
  | CreateTransfer ins => final (createTransfer ins b)
  | DeleteTransfer id userId => final (deleteTransfer id userId b)
  end.

Definition serveAll (reqs : list Request) (b : Bank) : Bank :=
  foldl (fun b req => serve req b) b reqs.

(** ** Vocabulary of the statements about the books *)

(** The sum of [f] over the rows of a table. *)
Definition sum_of {A} (f : A -> Z) (m : gmap positive A) : Z :=
  map_fold (fun _ a sum => f a + sum) 0 m.

(** What a transaction row and a transfer row contribute to the account
    [id]. *)
Definition posted (id : positive) (t : Transaction) : Z :=
  if decide (tx_accountId t = Some id)
  then signed_amount (tx_type t) (tx_amount t) else 0.

Definition moved (id : positive) (tr : Transfer) : Z :=
  (if decide (toAccountId tr = id) then tr_amount tr else 0) -
  (if decide (fromAccountId tr = id) then tr_amount tr else 0).

Definition flow (b : Bank) (id : positive) : Z :=
  sum_of (posted id) (transactions b) + sum_of (moved id) (transfers b).

(** What a transaction adds to the money in the accounts. *)
Definition booked (t : Transaction) : Z :=
  match tx_accountId t with
  | Some _ => signed_amount (tx_type t) (tx_amount t)
  | None => 0
  end.

(** The sum of [g] over the keys of the accounts. *)
Definition over_accounts (g : positive -> Z) (m : gmap positive BankAccount) : Z :=
  map_fold (fun id _ sum => g id + sum) 0 m.

(** The books are balanced: every account stands at its opening balance
    plus what its rows contribute; the rows refer to accounts that exist, a
    transfer to two different ones; the sequences are ahead of the keys. *)
Record balanced (b : Bank) : Prop := mkBalanced {
  bal_accounts : forall id a,
    bankAccounts b !! id = Some a ->
    currentBalance a = initialBalance a + flow b id;
  bal_transactions : forall i t a,
    transactions b !! i = Some t -> tx_accountId t = Some a ->
    is_Some (bankAccounts b !! a);
  bal_transfers : forall i tr,
    transfers b !! i = Some tr ->
    is_Some (bankAccounts b !! fromAccountId tr) /\
    is_Some (bankAccounts b !! toAccountId tr) /\
    fromAccountId tr <> toAccountId tr;
  bal_transactions_seq : forall i,
    is_Some (transactions b !! i) -> (i < transactions_seq b)%positive;
  bal_transfers_seq : forall i,
    is_Some (transfers b !! i) -> (i < transfers_seq b)%positive
}.

(** A request that does not ask for a transfer from an account to
    itself. *)
Definition two_ended (req : Request) : Prop :=
  match req with
  | CreateTransfer ins => fromAccountId ins <> toAccountId ins
  | _ => True
  end.

(** No row refers to the account [id]. *)
Definition unreferenced (b : Bank) (id : positive) : Prop :=
  (forall i t, transactions b !! i = Some t -> tx_accountId t <> Some id) /\
  (forall i tr, transfers b !! i = Some tr ->
                fromAccountId tr <> id /\ toAccountId tr <> id).

(** The transfers [deleteBankAccount id] deletes. *)
Definition dropped_transfers (b : Bank) (id : positive) : gmap positive Transfer :=
  filter (fun p => fromAccountId p.2 = id \/ toAccountId p.2 = id) (transfers b).

(** A day at the bank of Scenario D: an account is opened with 100.00,
    200.00 goes from account 1 to account 2, account 2 earns 50.00, the
    transfer is deleted and so is the income. *)
Definition busy_day : list Request :=
  [ CreateBankAccount 3 (mkInsertAccount 1 "C" (Some 10000));
    CreateTransfer (mkTransfer 1 1 2 20000);
    CreateTransaction
      (mkTransaction 1 (Some 2%positive) None None 5000 "income" "personal" None);
    DeleteTransfer 1 1;
    DeleteTransaction 1 ].

(** Scenario D after 200.00 went from account 1 to account 2. *)
Definition scenarioD_transferred : Bank :=
  serve (CreateTransfer (mkTransfer 1 1 2 20000)) scenarioD_bank.

End Books.

(** * The transfer form (AddTransferModal), caller of [createTransfer] *)

Module TransferForm.
Import Balance.

(** [formData].  An account is the [value] of a select item, the decimal
    form of a key, or the empty string, which is [None]; the amount comes
    from an [input type="number"], and is a number or the empty string. *)
Record FormData : Type := mkFormData {
  form_fromAccountId : option positive;
  form_toAccountId : option positive;
  form_amount : option Z
}.

(** The toasts [handleSubmit] returns on. *)
Inductive Toast : Type :=
| ToastMissingFields
| ToastSameAccount
| ToastSourceNotFound
| ToastInsufficient.

Definition toast_description (t : Toast) : string :=
  match t with
  | ToastMissingFields => "Please fill in all required fields"
  | ToastSameAccount => "Source and destination accounts must be different"
  | ToastSourceNotFound => "Source account not found."
  | ToastInsufficient =>
      "The selected account does not have enough balance for this transfer."
  end.

(** [handleSubmit]: a toast and no request, or the body of the request to
    [POST /api/transfers], to which the route adds the user of the
    session.  [accounts] is the answer of [GET /api/accounts]. *)
Definition handleSubmit (userId : positive) (accounts : gmap positive BankAccount)
    (formData : FormData) : Toast + Transfer :=
  match form_fromAccountId formData, form_toAccountId formData,
        form_amount formData with
  | Some fromId, Some toId, Some amount =>
      if decide (fromId = toId) then inl ToastSameAccount
      else
        match accounts !! fromId with
        | None => inl ToastSourceNotFound
        | Some fromAccount =>
            if currentBalance fromAccount <? amount then inl ToastInsufficient
            else inr {| tr_userId := userId; fromAccountId := fromId;
                        toAccountId := toId; tr_amount := amount |}
        end
  | _, _, _ => inl ToastMissingFields
  end.

(** Submitting the form against the server. *)
Definition submitTransfer (userId : positive) (formData : FormData) :
    M Bank (Toast + positive) :=
  let! accounts := gets (Books.getBankAccounts userId) in
  match handleSubmit userId accounts formData with
  | inl toast => ret (inl toast)
  | inr data =>
      let! id := createTransfer data in
      ret (inr id)
  end.

(** ** Vocabulary of the statements about the form *)

(** Scenario D at the form: 200.00 from account 1 to account 2. *)
Definition scenarioD_form : FormData :=
  mkFormData (Some 1%positive) (Some 2%positive) (Some 20000).

End TransferForm.

(** * The transaction form (AddTransactionModal), caller of
      [createTransaction] *)

Module TransactionForm.
Import Balance.

(** [formData].  The description is a string; the amount comes from an
    [input type="number"] and is a number or the empty string, [None]; the
    account is the [value] of a select item, the decimal form of a key, or
    the empty string, [None]. *)
Record FormData : Type := mkFormData {
  form_description : string;
  form_amount : option Z;
  form_type : string;
  form_accountId : option positive
}.

Inductive Toast : Type :=
| ToastMissingFields
| ToastInsufficientBalance.

Definition toast_description (t : Toast) : string :=
  match t with
  | ToastMissingFields => "Please fill in all required fields"
  | ToastInsufficientBalance => "Insufficient balance in selected account"
  end.

(** [handleSubmit]: a toast and no request, or the body of the request to
    [POST /api/transactions], with the context of the page, the date of the
    click, and the user the route adds.  [accounts] is the answer of
    [GET /api/accounts] and [accountType] the type column of its rows,
    which [BankAccount] does not carry. *)
Definition handleSubmit (now : JsDate) (userId : positive) (context : string)
    (accountType : positive -> string) (accounts : gmap positive BankAccount)
    (formData : FormData) : Toast + Transaction :=
  match form_amount formData, form_accountId formData with
  | Some amount, Some accountId =>
      if String.eqb (form_description formData) "" then inl ToastMissingFields
      else
        let overdrawn :=
          if String.eqb (form_type formData) "expense" then
            match accounts !! accountId with
            | Some selectedAccount =>
                let currentBalance := currentBalance selectedAccount in
                let expenseAmount := amount in
                negb (String.eqb (accountType accountId) "credit_card") &&
                (expenseAmount >? currentBalance)
            | None => false
            end
          else false in
        if overdrawn then inl ToastInsufficientBalance
        else inr {| tx_userId := userId; tx_accountId := Some accountId;
                    tx_tenantId := None; tx_shopId := None;
                    tx_amount := amount; tx_type := form_type formData;
                    tx_context := context; tx_date := Some now |}
  | _, _ => inl ToastMissingFields
  end.

(** Submitting the form against the server. *)
Definition submitTransaction (now : JsDate) (userId : positive) (context : string)
    (accountType : positive -> string) (formData : FormData) :
    M Bank (Toast + positive) :=
  let! accounts := gets (Books.getBankAccounts userId) in
  match handleSubmit now userId context accountType accounts formData with
  | inl toast => ret (inl toast)
  | inr data =>
      let! id := createTransaction data in
      ret (inr id)
  end.

(** ** Vocabulary of the statements about the form *)

(** Scenario C at the form: 1500.00 are spent from account 1. *)
Definition scenarioC_form : FormData :=
  mkFormData "Groceries" (Some 150000) "expense" (Some 1%positive).

(** The row that form stores when submitted at [now]. *)
Definition scenarioC_tx_at (now : JsDate) : Transaction :=
  mkTransaction 1 (Some 1%positive) None None 150000 "expense" "personal" (Some now).

End TransactionForm.

(** * What the rent payment form displays *)

Module RentView.
Import Rent Reconciler RentForm.


(** The body of the loop of [pendingMonths]: what is pending for the
    month [m] of [y]. *)
Definition month_pending (t s : positive) (shop : Shop)
    (rentPayments : list RentPayment) (m y : Z) : Z :=
  let payments :=
    filter (fun p => rp_tenantId p = t /\ rp_shopId p = s /\
                     rp_month p = m /\ rp_year p = y) rentPayments in
  match payments with
  | p :: _ =>
      let periodAmount := rp_amount p in
      let totalPaid := fold_left (fun sum p => sum + rp_paidAmount p) payments 0 in
      Z.max (periodAmount - totalPaid) 0
  | [] => monthlyRent shop
  end.

(** [while (y < lastYear || (y === lastYear && m <= lastMonth))] of
    [pendingMonths], each turn pushing (month, year, pending) when
    something is pending.  [None] is a loop that did not finish within
    [fuel] turns. *)
Fixpoint pendingMonths_loop (fuel : nat) (t s : positive) (shop : Shop)
    (rentPayments : list RentPayment) (lastYear lastMonth y m : Z) :
    option (list (Z * Z * Z)) :=
  if (y <? lastYear) || ((y =? lastYear) && (m <=? lastMonth)) then
    match fuel with
    | O => None
    | S fuel =>
        let pending := month_pending t s shop rentPayments m y in
        let pushed := if pending >? 0 then [(m, y, pending)] else [] in
        let m' := m + 1 in
        app pushed <$>
          (if m' >? 12
           then pendingMonths_loop fuel t s shop rentPayments lastYear lastMonth
                  (y + 1) 1
           else pendingMonths_loop fuel t s shop rentPayments lastYear lastMonth
                  y m')
    end
  else Some [].

(** [pendingMonths], the months the form offers for the selected tenant
    and shop. *)
Definition pendingMonths (now : JsDate) (form : Form) (shops : list Shop)
    (rentPayments : list RentPayment) : option (list (Z * Z * Z)) :=
  match selectedTenantId form, selectedShopId form with
  | Some t, Some s =>
      match List.find (fun shop => (shop_id shop =? s)%positive) shops with
      | Some shop =>
          match allocated_at shop with
          | Some allocated_at =>
              let y := getFullYear allocated_at in
              let m := getMonth allocated_at + 1 in
              let last := lastPeriod_createShop now in
              pendingMonths_loop (accrual_fuel (fst last) (snd last) y m)
                t s shop rentPayments (fst last) (snd last) y m
          | None => Some []
          end
      | None => Some []
      end
  | _, _ => Some []
  end.

(** The last month and its year, as the component computes them. *)
Definition lastPeriod_form (now : JsDate) : Z * Z :=
  let lastMonth := getMonth now in
  let lastYear := getFullYear now in
  if lastMonth =? 0 then (getFullYear now - 1, 12) else (lastYear, lastMonth).

(** The [while] loop of [hasPendingRentUpToLastMonth] for one shop:
    [Some true] is its [return true], [Some false] the loop running to its
    end, [None] a loop that did not finish within [fuel] turns. *)
Fixpoint pending_since (fuel : nat) (t s : positive) (shop : Shop)
    (rentPayments : list RentPayment) (lastYear lastMonth y m : Z) : option bool :=
  if (y <? lastYear) || ((y =? lastYear) && (m <=? lastMonth)) then
    match fuel with
    | O => None
    | S fuel =>
        let pending := month_pending t s shop rentPayments m y in
        if pending >? 0 then Some true
        else
          let m' := m + 1 in
          if m' >? 12
          then pending_since fuel t s shop rentPayments lastYear lastMonth (y + 1) 1
          else pending_since fuel t s shop rentPayments lastYear lastMonth y m'
    end
  else Some false.

(** [for (const shop of tenantShops)]. *)
Fixpoint hasPending_shops (now : JsDate) (tenant : positive)
    (rentPayments : list RentPayment) (tenantShops : list Shop) : option bool :=
  match tenantShops with
  | [] => Some false
  | shop :: rest =>
      match allocated_at shop with
      | None => hasPending_shops now tenant rentPayments rest
      | Some allocated_at =>
          let y := getFullYear allocated_at in
          let m := getMonth allocated_at + 1 in
          let last := lastPeriod_form now in
          match pending_since (accrual_fuel (fst last) (snd last) y m)
                  tenant (shop_id shop) shop rentPayments (fst last) (snd last) y m
          with
          | Some true => Some true
          | Some false => hasPending_shops now tenant rentPayments rest
          | None => None
          end
      end
  end.

(** [hasPendingRentUpToLastMonth(tenant)], of the tenant's key. *)
Definition hasPendingRentUpToLastMonth (now : JsDate) (tenant : positive)
    (shops : list Shop) (rentPayments : list RentPayment) : option bool :=
  let tenantShops := filter (fun shop => tenantId shop = Some tenant) shops in
  hasPending_shops now tenant rentPayments tenantShops.

(** ** Vocabulary of the statements about the display *)



End RentView.

(** * Paying rent and taking a payment back

    The mutation of the rent payment form (it records the payment, then
    posts the rent as an income of the chosen account) and the handler of
    [DELETE /api/transactions/:id], which reverses both. *)

Module Routes.
Import Balance Rent Reconciler RentForm.

(** The tables the two requests touch. *)
Record Server : Type := mkServer {
  bank : Bank;
  rentDb : RentDb
}.

Definition on_bank {A} (c : M Bank A) : M Server A :=
  fun s => match c (bank s) with
           | Ok a b => Ok a {| bank := b; rentDb := rentDb s |}
           | Throw e b => Throw e {| bank := b; rentDb := rentDb s |}
           end.

Definition on_rents {A} (c : M RentDb A) : M Server A :=
  fun s => match c (rentDb s) with
           | Ok a db => Ok a {| bank := bank s; rentDb := db |}
           | Throw e db => Throw e {| bank := bank s; rentDb := db |}
           end.

(** [try { body } catch (error) { handler(error) }]. *)
Definition catch {S A} (body : M S A) (handler : Error -> M S A) : M S A :=
  fun s => match body s with
           | Ok a s' => Ok a s'
           | Throw e s' => handler e s'
           end.

(** [getTransactions(userId)], called without context or limit.  The
    handler looks a row up by its key, which the order of the rows does
    not affect. *)
Definition getTransactions (userId : positive) (b : Bank) :
    gmap positive Transaction :=
  filter (fun p => tx_userId p.2 = userId) (transactions b).

(** The answer of a handler: status and message. *)
Record Answer : Type := mkAnswer {
  ans_status : nat;
  ans_message : string
}.

(** The handler of [DELETE /api/transactions/:id].  The row is looked up
    among the rows of the user of the session; [deleteTransaction] takes
    the key alone. *)
Definition delete_transaction (userId id : positive) : M Server Answer :=
  catch
    (let! allTransactions := gets (fun s => getTransactions userId (bank s)) in
     let transaction := allTransactions !! id in
     run! on_bank (deleteTransaction id) in
     run! (match transaction with
           | Some transaction =>
               if String.eqb (tx_type transaction) "income" &&
                  String.eqb (tx_context transaction) "property"
               then
                 match tx_tenantId transaction, tx_shopId transaction,
                       tx_date transaction with
                 | Some tenantId, Some shopId, Some date =>
                     let month := getMonth date + 1 in
                     let year := getFullYear date in
                     on_rents (modify (updateRentPaymentAfterTransactionDelete
                       {| p_userId := userId; p_tenantId := tenantId;
                          p_shopId := shopId; p_month := month; p_year := year;
                          p_amount := tx_amount transaction |}))
                 | _, _, _ => ret tt
                 end
               else ret tt
           | None => ret tt
           end) in
     ret (mkAnswer 200 "Transaction deleted successfully"))
    (fun error => ret (mkAnswer 400 "Failed to delete transaction")).

(** [transactionPayload] of the form's [onSuccess], with the user the
    route adds: the rent received, dated now. *)
Definition transactionPayload (now : JsDate) (userId accountId : positive)
    (amount : Z) (form : Form) : Transaction :=
  {| tx_userId := userId; tx_accountId := Some accountId;
     tx_tenantId := selectedTenantId form; tx_shopId := selectedShopId form;
     tx_amount := amount; tx_type := "income"; tx_context := "property";
     tx_date := Some now |}.

(** The mutation of the form: the upsert, then on success the
    transaction.  A transaction that is refused leaves the payment
    recorded. *)
Definition recordRentPayment (now : JsDate) (userId : positive) (form : Form)
    (shops : list Shop) : M Server (Toast + RentPayment) :=
  let! sent := on_rents (submitRentPayment now userId form shops) in
  match sent with
  | inl toast => ret (inl toast)
  | inr rentPaymentData =>
      run! (match selectedAccountId form, paidAmount form with
            | Some accountId, Some paidAmount =>
                run! on_bank (createTransaction
                       (transactionPayload now userId accountId paidAmount form)) in
                ret tt
            | _, _ => ret tt
            end) in
      ret (inr rentPaymentData)
  end.

(** ** Vocabulary of the statements about the two requests *)


(** The form is filled in for the period [now] falls in. *)
Definition for_this_month (now : JsDate) (form : Form) : Prop :=
  selectedMonth form = getMonth now + 1 /\ selectedYear form = getFullYear now.

(** Scenario B on the server: the January 2024 period with 6000.00 paid,
    and the account of Scenario C. *)
Definition scenarioB_server : Server :=
  mkServer scenarioC_bank (scenarioB_db 600000 400000 "pending" None).



End Routes.

(** * Removing a shop or a tenant *)

Module Tenancy.
Import Balance Rent.

(** A row of [tenants] and a row of [tenant_shops]. *)
Record Tenant : Type := mkTenant {
  tenant_id : positive;
  tenant_userId : positive;
  tenant_name : string
}.

Record TenantShop : Type := mkTenantShop {
  ts_id : positive;
  ts_tenantId : positive;
  ts_shopId : positive
}.

(** The tables [deleteShop] and [deleteTenant] touch. *)
Record Estate : Type := mkEstate {
  e_shops : list Shop;
  e_tenants : list Tenant;
  e_rents : RentDb;
  e_tenantShops : list TenantShop;
  e_transactions : gmap positive Transaction
}.

(** [new Error(what + " not found or not owned by user")].  The routes tell
    this error from the others by its message, and it is carried here by
    the constructor of an error that is known by its message. *)
Definition NotOwned (what : string) : Error :=
  DbError (what ++ " not found or not owned by user")%string.

Definition with_shops (f : list Shop -> list Shop) (e : Estate) : Estate :=
  {| e_shops := f (e_shops e); e_tenants := e_tenants e; e_rents := e_rents e;
     e_tenantShops := e_tenantShops e; e_transactions := e_transactions e |}.

Definition with_tenants (f : list Tenant -> list Tenant) (e : Estate) : Estate :=
  {| e_shops := e_shops e; e_tenants := f (e_tenants e); e_rents := e_rents e;
     e_tenantShops := e_tenantShops e; e_transactions := e_transactions e |}.

Definition with_rentPayments (f : list RentPayment -> list RentPayment)
    (e : Estate) : Estate :=
  {| e_shops := e_shops e; e_tenants := e_tenants e;
     e_rents := {| rentPayments := f (rentPayments (e_rents e));
                   rentPayments_seq := rentPayments_seq (e_rents e) |};
     e_tenantShops := e_tenantShops e; e_transactions := e_transactions e |}.

Definition with_tenantShops (f : list TenantShop -> list TenantShop)
    (e : Estate) : Estate :=
  {| e_shops := e_shops e; e_tenants := e_tenants e; e_rents := e_rents e;
     e_tenantShops := f (e_tenantShops e); e_transactions := e_transactions e |}.

Definition with_transactions
    (f : gmap positive Transaction -> gmap positive Transaction) (e : Estate) :
    Estate :=
  {| e_shops := e_shops e; e_tenants := e_tenants e; e_rents := e_rents e;
     e_tenantShops := e_tenantShops e; e_transactions := f (e_transactions e) |}.

(** [update(transactions).set({ shopId: null }).where(eq(shopId, id))]. *)
Definition clear_shopId (id : positive) (t : Transaction) : Transaction :=
  if decide (tx_shopId t = Some id)
  then {| tx_userId := tx_userId t; tx_accountId := tx_accountId t;
          tx_tenantId := tx_tenantId t; tx_shopId := None;
          tx_amount := tx_amount t; tx_type := tx_type t;
          tx_context := tx_context t; tx_date := tx_date t |}
  else t.

(** [update(transactions).set({ tenantId: null }).where(eq(tenantId, id))]. *)
Definition clear_tenantId (id : positive) (t : Transaction) : Transaction :=
  if decide (tx_tenantId t = Some id)
  then {| tx_userId := tx_userId t; tx_accountId := tx_accountId t;
          tx_tenantId := None; tx_shopId := tx_shopId t;
          tx_amount := tx_amount t; tx_type := tx_type t;
          tx_context := tx_context t; tx_date := tx_date t |}
  else t.

(** [update(shops).set({ tenantId: null, isOccupied: false,
    allocated_at: null, isAdvancePaid: false }).where(eq(tenantId, id))]. *)
Definition vacate (id : positive) (shop : Shop) : Shop :=
  if decide (tenantId shop = Some id)
  then {| shop_id := shop_id shop; shop_userId := shop_userId shop;
          buildingId := buildingId shop; shopNumber := shopNumber shop;
          monthlyRent := monthlyRent shop; isOccupied := false;
          isAdvancePaid := false; tenantId := None; allocated_at := None |}
  else shop.

(** [deleteShop(id, userId)]: the shop must be the user's; its rent
    payments and its links go, its transactions lose the shop, then the
    shop goes. *)
Definition deleteShop (id userId : positive) : M Estate unit :=
  let! shop := gets (fun e => List.find (ShopUpdate.owned_shop id userId) (e_shops e)) in
  match shop with
  | None => throw (NotOwned "Shop")
  | Some _ =>
      run! modify (with_rentPayments (filter (fun r => rp_shopId r <> id))) in
      run! modify (with_tenantShops (filter (fun l => ts_shopId l <> id))) in
      run! modify (with_transactions (fmap (clear_shopId id))) in
      modify (with_shops
                (filter (fun s => ShopUpdate.owned_shop id userId s = false)))
  end.

Definition owned_tenant (id userId : positive) (t : Tenant) : bool :=
  (tenant_id t =? id)%positive && (tenant_userId t =? userId)%positive.

(** [deleteTenant(id, userId)]: the tenant must be the user's; the rent
    payments and the links of the tenant go, the shops let to the tenant
    are vacated, the transactions lose the tenant, then the tenant goes. *)
Definition deleteTenant (id userId : positive) : M Estate unit :=
  let! tenant := gets (fun e => List.find (owned_tenant id userId) (e_tenants e)) in
  match tenant with
  | None => throw (NotOwned "Tenant")
  | Some _ =>
      run! modify (with_rentPayments (filter (fun r => rp_tenantId r <> id))) in
      run! modify (with_tenantShops (filter (fun l => ts_tenantId l <> id))) in
      run! modify (with_shops (map (vacate id))) in
      run! modify (with_transactions (fmap (clear_tenantId id))) in
      modify (with_tenants (filter (fun t => owned_tenant id userId t = false)))
  end.

(** The sweep of the scheduler, which reads the shops of every user. *)
Definition sweep (now : JsDate) (e : Estate) : option RentDb :=
  createMissingRentPaymentsForAllocatedShops now (e_shops e) (e_rents e).

(** ** Vocabulary of the statements about the two removals *)

(** The money side of a transaction. *)
Definition same_money (t t' : Transaction) : Prop :=
  tx_userId t' = tx_userId t /\ tx_accountId t' = tx_accountId t /\
  tx_amount t' = tx_amount t /\ tx_type t' = tx_type t /\
  tx_context t' = tx_context t /\ tx_date t' = tx_date t.

(** Scenario A as an estate: the shop let to tenant 7, its three accrued
    periods, and the rent received for January. *)
Definition scenarioA_estate : Estate :=
  {| e_shops := [scenarioA_shop];
     e_tenants := [mkTenant 7 1 "Tenant"];
     e_rents := scenarioA_after;
     e_tenantShops := [];
     e_transactions :=
       {[ 1%positive :=
            mkTransaction 1 (Some 1%positive) (Some 7%positive) (Some 1%positive)
              1000000 "income" "property" (Some scenarioA_now) ]} |}.

End Tenancy.

(** * Creating a shop *)

Module ShopCreate.
Import Rent ShopUpdate.

(** The argument of [createShop]: the columns of [Shop] that a request
    sets, and the allocation date under either of its two names.  A tenant
    is a serial key, hence truthy; [isOccupied] is overwritten whatever
    the request says. *)
Record InsertShop : Type := mkInsertShop {
  i_userId : positive;
  i_buildingId : positive;
  i_shopNumber : string;
  i_monthlyRent : Z;
  i_isAdvancePaid : option bool;
  i_tenantId : option positive;
  i_allocated_at : Field DateInput;
  i_allocatedAt : Field DateInput
}.

Section CreateShop.

Variable isDateOnly : string -> bool.
Variable utcDate : string -> JsDate.
Variable newDate : string -> option JsDate.
Variable now : JsDate.

(** Lines 365 to 387 of [createShop]: the allocation date the request
    denotes, when it denotes one. *)
Definition parsed_allocation (values : InsertShop) : option JsDate :=
  let allocated_at :=
    if truthy (i_allocatedAt values) && negb (truthy (i_allocated_at values))
    then i_allocatedAt values else i_allocated_at values in
  if truthy allocated_at then
    match allocated_at with
    | Value (DateString dateStr) =>
        if isDateOnly dateStr then Some (utcDate dateStr) else newDate dateStr
    | Value (DateObject d) => d
    | Absent | Null => None
    end
  else None.

(** The row handed to [insert(shops)], under the key [id]. *)
Definition new_shop (id : positive) (values : InsertShop) : Shop :=
  let allocationDate := parsed_allocation values in
  (* only set to now if tenantId is present and allocated_at is not set or invalid *)
  let allocationDate :=
    match i_tenantId values, allocationDate with
    | Some _, None => Some now
    | _, _ => allocationDate
    end in
  {| shop_id := id; shop_userId := i_userId values;
     buildingId := i_buildingId values; shopNumber := i_shopNumber values;
     monthlyRent := i_monthlyRent values;
     isOccupied :=
       match i_tenantId values with
       | Some _ =>
           let allocDate := match allocationDate with
                            | Some d => d
                            | None => now
                            end in
           getTime allocDate <=? getTime now
       | None => false
       end;
     isAdvancePaid := Reconciler.nullish (i_isAdvancePaid values) false;
     tenantId := i_tenantId values;
     allocated_at := match i_tenantId values with
                     | Some _ => allocationDate
                     | None => None
                     end |}.

(** [createShop].  [id] is the value the sequence of the table hands out
    for the new row; the insert is refused when a row has it, and is taken
    to refer to a building and a tenant that exist. *)
Definition createShop (id : positive) (values : InsertShop) : M PropertyDb Shop :=
  let shop := new_shop id values in
  fun db =>
    if existsb (fun s => (shop_id s =? id)%positive) (shops db)
    then Throw (DbError "duplicate key value violates unique constraint") db
    else
      let inserted := shops db ++ [shop] in
      match createShop_accrual now shop (rents db) with
      | Some rents' => Ok shop {| shops := inserted; rents := rents' |}
      | None => Throw OutOfFuel {| shops := inserted; rents := rents db |}
      end.

End CreateShop.

(** ** Vocabulary of the statements about [createShop] *)

(** No shop has the key [id]. *)
Definition fresh_shop (id : positive) (db : PropertyDb) : Prop :=
  existsb (fun s => (shop_id s =? id)%positive) (shops db) = false.

(** A shop for tenant 7 at 10000.00 a month, sent without a date. *)
Definition undated_shop : InsertShop :=
  mkInsertShop 1 1 "S2" 1000000 None (Some 7%positive) Absent Absent.

(** The shop of Scenario A is let again to tenant 7, from 2024-02-01. *)
Definition february_2024 : JsDate := mkDate 1706745600000 2024 1 1.

Definition relet_request : ShopUpdates :=
  mkUpdates (Value 7%positive) (Value (DateString "2024-02-01")) Absent
    None None None None.

Definition relet_db : PropertyDb := mkPropertyDb [let_shop] scenarioA_after.

End ShopCreate.

(** * The property dashboard *)

Module Dashboard.
Import Balance Rent.

(** A row of [shops] with the two columns the dashboard reads besides
    those of [Shop].  A [NULL] flag is falsy; [advance] is a decimal
    string, truthy whatever its value, or [NULL]. *)
Record ShopRow : Type := mkShopRow {
  shop : Shop;
  isActive : bool;
  advance : option Z
}.

(** What the dashboard reads. *)
Record Tables : Type := mkTables {
  rentPayments : list RentPayment;
  shops : list ShopRow;
  transactions : gmap positive Transaction
}.






(** ** Vocabulary of the statements about the dashboard *)

(** The tables with another rent table. *)
Definition set_rentPayments (rows : list RentPayment) (db : Tables) : Tables :=
  {| rentPayments := rows; shops := shops db; transactions := transactions db |}.


End Dashboard.

(** * Properties *)

(** ** Balance Mutator *)

Section BalanceFacts.
Import Balance.

Lemma set_currentBalance_same (a : BankAccount) :
  set_currentBalance (currentBalance a) a = a.
Proof. by destruct a. Qed.

Lemma set_currentBalance_twice (v w : Z) (a : BankAccount) :
  set_currentBalance v (set_currentBalance w a) = set_currentBalance v a.
Proof. by destruct a. Qed.

Lemma update_balance_found (b : Bank) (id : positive) (v : Z) (a : BankAccount) :
  bankAccounts b !! id = Some a ->
  update_balance id v b =
  Ok tt (with_accounts (fun m => <[id := set_currentBalance v a]> m) b).
Proof.
  intros Ha. unfold update_balance, modify, with_accounts, set_balance.
  by rewrite Ha.
Qed.

Lemma createTransaction_ok (b : Bank) (ins : Transaction) (id : positive)
    (acc : BankAccount) :
  tx_accountId ins = Some id ->
  bankAccounts b !! id = Some acc ->
  tx_type ins = "income" \/ tx_type ins = "expense" ->
  createTransaction ins b =
  Ok (transactions_seq b)
     (credited b id acc (signed_amount (tx_type ins) (tx_amount ins)) ins).
Proof.
  intros Hid Hacc Hty.
  unfold createTransaction, db_transaction, createTransaction_body, bind,
    select_account, gets, signed_amount, credited.
  rewrite Hid, Hacc.
  destruct Hty as [-> | ->]; cbn [String.eqb Ascii.eqb Bool.eqb ret throw].
  all: erewrite update_balance_found by eassumption.
  all: unfold insert_transaction, with_accounts; cbn.
  all: by rewrite ?Z.add_opp_r.
Qed.

Lemma createTransaction_not_found (b : Bank) (ins : Transaction) :
  match tx_accountId ins with
  | Some i => bankAccounts b !! i
  | None => None
  end = None ->
  createTransaction_body ins b = Throw AccountNotFound b.
Proof.
  intros Hnone.
  unfold createTransaction_body, bind, select_account, gets.
  rewrite Hnone. by destruct (tx_accountId ins).
Qed.

Lemma createTransaction_invalid_type (b : Bank) (ins : Transaction)
    (id : positive) (acc : BankAccount) :
  tx_accountId ins = Some id ->
  bankAccounts b !! id = Some acc ->
  tx_type ins <> "income" -> tx_type ins <> "expense" ->
  createTransaction_body ins b = Throw InvalidTransactionType b.
Proof.
  intros Hid Hacc Hi He.
  unfold createTransaction_body, bind, select_account, gets.
  rewrite Hid, Hacc.
  apply String.eqb_neq in Hi, He. by rewrite Hi, He.
Qed.

Lemma deleteTransaction_ok (b : Bank) (id a : positive) (t : Transaction)
    (acc : BankAccount) :
  transactions b !! id = Some t ->
  tx_accountId t = Some a ->
  bankAccounts b !! a = Some acc ->
  deleteTransaction id b =
  Ok tt {| bankAccounts :=
             <[a := set_currentBalance
                      (currentBalance acc - signed_amount (tx_type t) (tx_amount t))
                      acc]> (bankAccounts b);
           transactions := delete id (transactions b);
           transactions_seq := transactions_seq b;
           transfers := transfers b; transfers_seq := transfers_seq b |}.
Proof.
  intros Ht Ha Hacc.
  unfold deleteTransaction, db_transaction, deleteTransaction_body, bind,
    select_account, gets, signed_amount.
  rewrite Ht, Ha, Hacc.
  erewrite update_balance_found by eassumption.
  unfold modify, with_transactions, with_accounts; cbn.
  do 3 f_equal.
  destruct (String.eqb (tx_type t) "income"); [done|].
  destruct (String.eqb (tx_type t) "expense"); f_equal; lia.
Qed.

Lemma deleteTransaction_missing (b : Bank) (id : positive) :
  transactions b !! id = None ->
  deleteTransaction_body id b = Throw TransactionNotFound b.
Proof.
  intros Ht. unfold deleteTransaction_body, bind, gets. by rewrite Ht.
Qed.

Lemma deleteTransaction_without_account (b : Bank) (id : positive)
    (t : Transaction) :
  transactions b !! id = Some t ->
  tx_accountId t = None ->
  deleteTransaction_body id b = Throw TransactionWithoutAccount b.
Proof.
  intros Ht Ha. unfold deleteTransaction_body, bind, gets. by rewrite Ht, Ha.
Qed.

Lemma db_transaction_throw {S A} (body : M S A) (s s' : S) (e : Error) :
  body s = Throw e s' -> db_transaction body s = Throw e s.
Proof. intros H. unfold db_transaction. by rewrite H. Qed.

Lemma balance_credited (b : Bank) (id : positive) (acc : BankAccount)
    (delta : Z) (ins : Transaction) :
  balance (credited b id acc delta ins) id = Some (currentBalance acc + delta).
Proof. unfold balance, credited; cbn. by rewrite lookup_insert_eq. Qed.

(** C5.  [createTransaction] moves the balance of the referenced account up
    by the amount for an income and down by it for an expense, and stores
    the row; it throws "Account not found" when the account id does not
    resolve and "Invalid transaction type" for any other type, in both cases
    before anything is written.  [deleteTransaction] throws when the row is
    missing or carries no account, and otherwise moves the balance the
    opposite way and removes the row, so that deleting a transaction just
    created restores the accounts.  From 5000.00: income 2000.00 gives
    7000.00, expense 1500.00 gives 5500.00, deleting the income 3500.00. *)
Theorem transaction_balance_protocol :
  (forall b ins id acc,
      tx_accountId ins = Some id -> bankAccounts b !! id = Some acc ->
      (tx_type ins = "income" ->
       exists b', createTransaction ins b = Ok (transactions_seq b) b' /\
                  balance b' id = Some (currentBalance acc + tx_amount ins) /\
                  transactions b' !! transactions_seq b = Some ins) /\
      (tx_type ins = "expense" ->
       exists b', createTransaction ins b = Ok (transactions_seq b) b' /\
                  balance b' id = Some (currentBalance acc - tx_amount ins) /\
                  transactions b' !! transactions_seq b = Some ins) /\
      (tx_type ins <> "income" -> tx_type ins <> "expense" ->
       createTransaction_body ins b = Throw InvalidTransactionType b /\
       createTransaction ins b = Throw InvalidTransactionType b) /\
      (tx_type ins = "income" \/ tx_type ins = "expense" ->
       exists b1 b2,
         createTransaction ins b = Ok (transactions_seq b) b1 /\
         deleteTransaction (transactions_seq b) b1 = Ok tt b2 /\
         bankAccounts b2 = bankAccounts b)) /\
  (forall b ins,
      match tx_accountId ins with
      | Some i => bankAccounts b !! i
      | None => None
      end = None ->
      createTransaction_body ins b = Throw AccountNotFound b /\
      createTransaction ins b = Throw AccountNotFound b) /\
  (forall b id,
      transactions b !! id = None ->
      deleteTransaction_body id b = Throw TransactionNotFound b /\
      deleteTransaction id b = Throw TransactionNotFound b) /\
  (forall b id t,
      transactions b !! id = Some t -> tx_accountId t = None ->
      deleteTransaction_body id b = Throw TransactionWithoutAccount b /\
      deleteTransaction id b = Throw TransactionWithoutAccount b) /\
  (forall b id t a acc,
      transactions b !! id = Some t -> tx_accountId t = Some a ->
      bankAccounts b !! a = Some acc ->
      exists b', deleteTransaction id b = Ok tt b' /\
                 transactions b' !! id = None /\
                 (tx_type t = "income" ->
                  balance b' a = Some (currentBalance acc - tx_amount t)) /\
                 (tx_type t = "expense" ->
                  balance b' a = Some (currentBalance acc + tx_amount t))) /\
  (exists i b1 e b2 b3,
      createTransaction (scenarioC_tx "income" 200000) scenarioC_bank = Ok i b1 /\
      balance b1 1 = Some 700000 /\
      createTransaction (scenarioC_tx "expense" 150000) b1 = Ok e b2 /\
      balance b2 1 = Some 550000 /\
      deleteTransaction i b2 = Ok tt b3 /\
      balance b3 1 = Some 350000).
Proof.
  split; [|split; [|split; [|split; [|split]]]].
  - intros b ins id acc Hid Hacc. repeat split.
    + intros Hty. eexists. split; [by apply createTransaction_ok; auto|].
      rewrite balance_credited. unfold signed_amount. rewrite Hty. cbn.
      split; [done|]. by rewrite lookup_insert_eq.
    + intros Hty. eexists. split; [by apply createTransaction_ok; auto|].
      rewrite balance_credited. unfold signed_amount. rewrite Hty. cbn.
      split; [done|]. by rewrite lookup_insert_eq.
    + by apply createTransaction_invalid_type with id acc.
    + eapply db_transaction_throw.
      by apply createTransaction_invalid_type with id acc.
    + intros Hty. do 2 eexists. split; [by apply createTransaction_ok|].
      split.
      * eapply deleteTransaction_ok; cbn.
        -- apply lookup_insert_eq.
        -- exact Hid.
        -- apply lookup_insert_eq.
      * cbn. rewrite set_currentBalance_twice, insert_insert_eq.
        replace (_ + _ - _) with (currentBalance acc) by lia.
        rewrite set_currentBalance_same. by apply insert_id.
  - intros b ins Hnone. split; [by apply createTransaction_not_found|].
    eapply db_transaction_throw. by apply createTransaction_not_found.
  - intros b id Hnone. split; [by apply deleteTransaction_missing|].
    eapply db_transaction_throw. by apply deleteTransaction_missing.
  - intros b id t Ht Ha. split; [by eapply deleteTransaction_without_account|].
    eapply db_transaction_throw. by eapply deleteTransaction_without_account.
  - intros b id t a acc Ht Ha Hacc. eexists.
    split; [by eapply deleteTransaction_ok|]. cbn.
    split; [by apply lookup_delete_eq|].
    unfold balance, signed_amount; cbn. rewrite lookup_insert_eq; cbn.
    split; intros ->; cbn; do 2 f_equal; lia.
  - do 5 eexists. repeat split; vm_compute; reflexivity.
Qed.

(** *** Transfers *)

Lemma lookup_set_balance (m : gmap positive BankAccount) (i j : positive) (v : Z) :
  set_balance i v m !! j =
  if decide (i = j) then set_currentBalance v <$> m !! j else m !! j.
Proof.
  unfold set_balance. destruct (decide (i = j)) as [->|Hne].
  - destruct (m !! j) eqn:E; [by rewrite lookup_insert_eq | by rewrite E].
  - destruct (m !! i); [by rewrite lookup_insert_ne | done].
Qed.

Lemma createTransfer_accounts_missing (b : Bank) (ins : Transfer) :
  bankAccounts b !! fromAccountId ins = None \/
  bankAccounts b !! toAccountId ins = None ->
  createTransfer_body ins b = Throw TransferAccountsNotFound b.
Proof.
  intros H. unfold createTransfer_body, bind, select_account, gets.
  destruct H as [-> | ->]; [done|].
  by destruct (bankAccounts b !! fromAccountId ins).
Qed.

Lemma createTransfer_insufficient (b : Bank) (ins : Transfer)
    (accF accT : BankAccount) :
  bankAccounts b !! fromAccountId ins = Some accF ->
  bankAccounts b !! toAccountId ins = Some accT ->
  currentBalance accF < tr_amount ins ->
  createTransfer_body ins b = Throw InsufficientBalance b.
Proof.
  intros HF HT Hlt. unfold createTransfer_body, bind, select_account, gets.
  rewrite HF, HT. apply Z.ltb_lt in Hlt. by rewrite Hlt.
Qed.

Lemma createTransfer_ok (b : Bank) (ins : Transfer) (accF accT : BankAccount) :
  bankAccounts b !! fromAccountId ins = Some accF ->
  bankAccounts b !! toAccountId ins = Some accT ->
  tr_amount ins <= currentBalance accF ->
  createTransfer ins b =
  Ok (transfers_seq b)
     {| bankAccounts :=
          set_balance (toAccountId ins) (currentBalance accT + tr_amount ins)
            (set_balance (fromAccountId ins) (currentBalance accF - tr_amount ins)
               (bankAccounts b));
        transactions := transactions b;
        transactions_seq := transactions_seq b;
        transfers := <[transfers_seq b := ins]> (transfers b);
        transfers_seq := Pos.succ (transfers_seq b) |}.
Proof.
  intros HF HT Hle.
  unfold createTransfer, db_transaction, createTransfer_body, bind,
    select_account, gets.
  rewrite HF, HT. apply Z.ltb_ge in Hle. by rewrite Hle.
Qed.

(** C6, as the claim states it, fails for a transfer from an account to
    itself: the server accepts it, and the account ends up credited by the
    amount, not debited (both balances are read before either is written).
    Only the client form refuses equal accounts. *)
Lemma createTransfer_self_not_debited :
  exists b',
    createTransfer (mkTransfer 1 1 1 10000) scenarioD_bank = Ok 1%positive b' /\
    balance scenarioD_bank 1 = Some 50000 /\
    balance b' 1 = Some 60000 /\
    balance b' 1 <> Some (50000 - 10000).
Proof. eexists. repeat split; vm_compute; congruence. Qed.

(** C6, amended.  [createTransfer] throws "One or both accounts not found"
    when either account is missing; when both exist and the source holds
    less than the amount it throws "Insufficient balance in the source
    account"; either exception is raised before any write, so no balance
    changes and no transfer row exists.  Otherwise, for two distinct
    accounts, the source is debited and the destination credited by exactly
    the amount, no other account changes, and the transfer row is stored.
    Scenario D: 1000.00 out of an account holding 500.00 is refused. *)
Theorem createTransfer_checked :
  (forall b ins,
      bankAccounts b !! fromAccountId ins = None \/
      bankAccounts b !! toAccountId ins = None ->
      createTransfer_body ins b = Throw TransferAccountsNotFound b /\
      createTransfer ins b = Throw TransferAccountsNotFound b) /\
  (forall b ins accF accT,
      bankAccounts b !! fromAccountId ins = Some accF ->
      bankAccounts b !! toAccountId ins = Some accT ->
      currentBalance accF < tr_amount ins ->
      createTransfer_body ins b = Throw InsufficientBalance b /\
      createTransfer ins b = Throw InsufficientBalance b) /\
  (forall b ins accF accT,
      bankAccounts b !! fromAccountId ins = Some accF ->
      bankAccounts b !! toAccountId ins = Some accT ->
      tr_amount ins <= currentBalance accF ->
      fromAccountId ins <> toAccountId ins ->
      exists b',
        createTransfer ins b = Ok (transfers_seq b) b' /\
        balance b' (fromAccountId ins) = Some (currentBalance accF - tr_amount ins) /\
        balance b' (toAccountId ins) = Some (currentBalance accT + tr_amount ins) /\
        transfers b' !! transfers_seq b = Some ins /\
        (forall j, j <> fromAccountId ins -> j <> toAccountId ins ->
                   bankAccounts b' !! j = bankAccounts b !! j)) /\
  (createTransfer (mkTransfer 1 1 2 100000) scenarioD_bank =
     Throw InsufficientBalance scenarioD_bank /\
   createTransfer_body (mkTransfer 1 1 2 100000) scenarioD_bank =
     Throw InsufficientBalance scenarioD_bank).
Proof.
  split; [|split; [|split]].
  - intros b ins H. split; [by apply createTransfer_accounts_missing|].
    eapply db_transaction_throw. by apply createTransfer_accounts_missing.
  - intros b ins accF accT HF HT Hlt.
    split; [by eapply createTransfer_insufficient|].
    eapply db_transaction_throw. by eapply createTransfer_insufficient.
  - intros b ins accF accT HF HT Hle Hne. eexists.
    split; [by eapply createTransfer_ok|]. unfold balance; cbn.
    repeat split.
    + rewrite !lookup_set_balance.
      destruct (decide (toAccountId ins = fromAccountId ins)); [congruence|].
      destruct (decide (fromAccountId ins = fromAccountId ins)); [|done].
      by rewrite HF.
    + rewrite !lookup_set_balance.
      destruct (decide (toAccountId ins = toAccountId ins)); [|done].
      destruct (decide (fromAccountId ins = toAccountId ins)); [done|].
      by rewrite HT.
    + by rewrite lookup_insert_eq.
    + intros j HjF HjT. rewrite !lookup_set_balance.
      destruct (decide (toAccountId ins = j)); [congruence|].
      destruct (decide (fromAccountId ins = j)); [congruence|done].
  - split; vm_compute; reflexivity.
Qed.

(** *** A transfer and its deletion, with other requests in between

    Two banks are compared: one in which the transfer [ins] was created
    under the key [tid], one in which it never was.  They stay related by
    a fixed translation of the balances while unrelated requests are
    served by both. *)















Lemma createTransfer_checked_witness :
  createTransfer_body (mkTransfer 1 1 3 100) scenarioD_bank =
    Throw TransferAccountsNotFound scenarioD_bank /\
  createTransfer (mkTransfer 1 1 3 100) scenarioD_bank =
    Throw TransferAccountsNotFound scenarioD_bank.
Proof.
  apply (proj1 createTransfer_checked scenarioD_bank (mkTransfer 1 1 3 100)).
  right. reflexivity.
Defined.

Lemma transaction_balance_protocol_witness :
  createTransaction_body orphan_tx scenarioD_bank =
    Throw AccountNotFound scenarioD_bank /\
  createTransaction orphan_tx scenarioD_bank =
    Throw AccountNotFound scenarioD_bank.
Proof.
  apply (proj1 (proj2 transaction_balance_protocol) scenarioD_bank orphan_tx).
  reflexivity.
Defined.

End BalanceFacts.

(** ** Rent Accrual Generator *)

Section AccrualFacts.
Import Rent.

Lemma accrual_loop_periods (u t s : positive) (rent lastYear lastMonth : Z) :
  forall fuel y m db,
    accrual_loop fuel u t s rent lastYear lastMonth y m db =
    (fun ps => accrue_all u t s rent ps db)
      <$> accrual_periods fuel lastYear lastMonth y m.
Proof.
  induction fuel as [|fuel IH]; intros y m db; cbn;
    destruct ((y <? lastYear) || ((y =? lastYear) && (m <=? lastMonth)));
    try done.
  destruct (m + 1 >? 12); rewrite IH, <- option_fmap_compose; done.
Qed.

(** The loop finishes, from any integers at all. *)
Lemma accrual_periods_finish (lastYear lastMonth : Z) :
  forall fuel y m,
    13 * (lastYear - y) - Z.min m 12 + 13 < Z.of_nat fuel ->
    is_Some (accrual_periods fuel lastYear lastMonth y m).
Proof.
  induction fuel as [|fuel IH]; intros y m Hfuel; cbn;
    destruct ((y <? lastYear) || ((y =? lastYear) && (m <=? lastMonth))) eqn:C;
    try done.
  - exfalso. apply orb_true_iff in C as [C|C]; [|apply andb_true_iff in C as [C1 C2]];
      lia.
  - apply fmap_is_Some.
    assert (1 <= 13 * (lastYear - y) - Z.min m 12 + 13).
    { apply orb_true_iff in C as [C|C];
        [|apply andb_true_iff in C as [C1 C2]]; lia. }
    destruct (m + 1 >? 12) eqn:Hm; apply IH; lia.
Qed.

Lemma accrue_from_finishes last u t s rent A db :
  is_Some (accrue_from last u t s rent A db).
Proof.
  unfold accrue_from. rewrite accrual_loop_periods. apply fmap_is_Some.
  apply accrual_periods_finish. unfold accrual_fuel. lia.
Qed.

Lemma months_between_nil (first last : Z) :
  last < first -> months_between first last = [].
Proof.
  intros H. unfold months_between.
  replace (Z.to_nat (last - first + 1)) with 0%nat by lia. done.
Qed.

Lemma months_between_cons (first last : Z) :
  first <= last ->
  months_between first last =
  (first mod 12 + 1, first / 12) :: months_between (first + 1) last.
Proof.
  intros H. unfold months_between.
  replace (Z.to_nat (last - first + 1))
    with (S (Z.to_nat (last - (first + 1) + 1))) by lia.
  cbn [seq map]. rewrite Z.add_0_r. f_equal.
  rewrite <- seq_shift, map_map. apply map_ext. intros i.
  by replace (first + 1 + Z.of_nat i) with (first + Z.of_nat (S i)) by lia.
Qed.

(** For calendar months, the loop visits exactly the months of the
    specification's enumeration. *)
Lemma accrual_periods_months (lastYear lastMonth : Z) :
  1 <= lastMonth <= 12 ->
  forall fuel y m,
    1 <= m <= 12 ->
    13 * (lastYear - y) - Z.min m 12 + 13 < Z.of_nat fuel ->
    accrual_periods fuel lastYear lastMonth y m =
    Some (months_between (12 * y + (m - 1)) (12 * lastYear + (lastMonth - 1))).
Proof.
  intros Hlast.
  induction fuel as [|fuel IH]; intros y m Hm Hfuel; cbn;
    destruct ((y <? lastYear) || ((y =? lastYear) && (m <=? lastMonth))) eqn:C.
  - exfalso. apply orb_true_iff in C as [C|C];
      [|apply andb_true_iff in C as [C1 C2]]; lia.
  - rewrite months_between_nil; [done|].
    apply orb_false_iff in C as [C1 C2]. apply andb_false_iff in C2. lia.
  - assert (12 * y + (m - 1) <= 12 * lastYear + (lastMonth - 1)) as Hle.
    { apply orb_true_iff in C as [C|C];
        [|apply andb_true_iff in C as [C1 C2]]; lia. }
    rewrite (months_between_cons _ _ Hle).
    replace ((12 * y + (m - 1)) mod 12) with (m - 1)
      by (apply Z.mod_unique_pos with y; lia).
    replace ((12 * y + (m - 1)) / 12) with y
      by (apply Z.div_unique_pos with (m - 1); lia).
    replace (m - 1 + 1) with m by lia.
    destruct (m + 1 >? 12) eqn:Hm12.
    + rewrite IH by lia. cbn. do 3 f_equal. lia.
    + rewrite IH by lia. cbn. do 3 f_equal. lia.
  - rewrite months_between_nil; [done|].
    apply orb_false_iff in C as [C1 C2]. apply andb_false_iff in C2. lia.
Qed.

Lemma months_between_NoDup (first last : Z) : NoDup (months_between first last).
Proof.
  unfold months_between. apply NoDup_fmap_2_strong; [|apply NoDup_seq].
  intros i j _ _ Heq. injection Heq as Hmod Hdiv.
  pose proof (Z.div_mod (first + Z.of_nat i) 12).
  pose proof (Z.div_mod (first + Z.of_nat j) 12). lia.
Qed.

Lemma select_period_app u t s m y rows rows' :
  select_period u t s m y (rows ++ rows') =
  select_period u t s m y rows ++ select_period u t s m y rows'.
Proof. apply filter_app. Qed.

Lemma same_period_accrued u t s rent m y id m' y' :
  same_period u t s m' y' (accrued u t s rent m y id) = (m =? m') && (y =? y').
Proof. unfold same_period; cbn. by rewrite !Pos.eqb_refl. Qed.

Lemma select_period_other u t s rent p q id rows :
  p <> q ->
  select_period u t s (fst q) (snd q)
    (rows ++ [accrued u t s rent (fst p) (snd p) id]) =
  select_period u t s (fst q) (snd q) rows.
Proof.
  intros Hne. rewrite select_period_app.
  unfold select_period at 2. rewrite filter_cons, filter_nil.
  rewrite same_period_accrued.
  destruct (decide _) as [Heq|_]; [|by rewrite app_nil_r].
  apply andb_true_iff in Heq as [H1 H2]. destruct p, q; cbn in *.
  apply Z.eqb_eq in H1, H2. congruence.
Qed.

Lemma missing_periods_other u t s rent p id rows ps :
  p ∉ ps ->
  missing_periods u t s (rows ++ [accrued u t s rent (fst p) (snd p) id]) ps =
  missing_periods u t s rows ps.
Proof.
  unfold missing_periods. induction ps as [|q ps IH]; intros Hnotin; [done|].
  apply not_elem_of_cons in Hnotin as [Hne Hnotin].
  rewrite !filter_cons, IH by done.
  by rewrite select_period_other.
Qed.

(** What the loop leaves in the table: the rows it found, followed by one
    accrued row for each visited period that had none. *)
Lemma accrue_all_rows u t s rent : forall ps db,
  NoDup ps ->
  rentPayments (accrue_all u t s rent ps db) =
  rentPayments db ++
  accrued_rows u t s rent (rentPayments_seq db)
    (missing_periods u t s (rentPayments db) ps).
Proof.
  induction ps as [|p ps IH]; intros db Hnd.
  - cbn. by rewrite app_nil_r.
  - apply NoDup_cons in Hnd as [Hnotin Hnd].
    change (accrue_all u t s rent (p :: ps) db)
      with (accrue_all u t s rent ps (accrue_period u t s rent (fst p) (snd p) db)).
    rewrite IH by done. unfold accrue_period, missing_periods at 2.
    rewrite filter_cons.
    destruct (select_period u t s (fst p) (snd p) (rentPayments db)) eqn:E.
    + cbn. rewrite missing_periods_other by done.
      destruct (decide _); [|done]. cbn. by rewrite <- app_assoc.
    + by destruct (decide _).
Qed.

Lemma lastPeriod_createShop_eq (now : JsDate) :
  lastPeriod_createShop now = lastPeriod now.
Proof.
  unfold lastPeriod_createShop, lastPeriod.
  replace (getMonth now + 1 - 1) with (getMonth now) by lia.
  by destruct (getDate now =? 1).
Qed.

Lemma lastPeriod_previous_month (now : JsDate) :
  valid_month now ->
  1 <= snd (lastPeriod now) <= 12 /\
  12 * fst (lastPeriod now) + (snd (lastPeriod now) - 1) =
  12 * getFullYear now + getMonth now - 1.
Proof.
  unfold valid_month, lastPeriod. intros H.
  destruct (getMonth now + 1 - 1 =? 0) eqn:E; cbn; lia.
Qed.

Lemma accrue_from_expected (now A : JsDate) u t s rent db :
  valid_month A -> valid_month now ->
  accrue_from (lastPeriod now) u t s rent A db =
  Some (accrue_all u t s rent (expected_periods A now) db).
Proof.
  intros HA Hnow. unfold accrue_from. rewrite accrual_loop_periods.
  destruct (lastPeriod_previous_month now Hnow) as [Hm Hidx].
  rewrite accrual_periods_months; [|done|unfold valid_month in HA; lia|
                                   unfold accrual_fuel; lia].
  cbn. unfold expected_periods. do 3 f_equal; lia.
Qed.



(** A table extended at its end. *)
Lemma covered_app u t s rows extra p :
  covered u t s rows p -> covered u t s (rows ++ extra) p.
Proof.
  unfold covered. rewrite select_period_app. intros H Happ.
  by apply app_eq_nil in Happ as [? _].
Qed.

Lemma accrue_period_extends u t s rent m y db :
  exists extra,
    rentPayments (accrue_period u t s rent m y db) = rentPayments db ++ extra.
Proof.
  unfold accrue_period.
  destruct (select_period u t s m y (rentPayments db)).
  - by eexists.
  - exists []. by rewrite app_nil_r.
Qed.

Lemma accrue_period_covers u t s rent p db :
  covered u t s (rentPayments (accrue_period u t s rent (fst p) (snd p) db)) p.
Proof.
  unfold accrue_period, covered.
  destruct (select_period u t s (fst p) (snd p) (rentPayments db)) eqn:E.
  - unfold insert_rent; cbn [rentPayments].
    rewrite select_period_app, E, app_nil_l.
    unfold select_period. rewrite filter_cons, same_period_accrued.
    rewrite !Z.eqb_refl. cbn [andb]. by destruct (decide _).
  - by rewrite E.
Qed.

Lemma accrue_all_extends u t s rent : forall ps db,
  exists extra,
    rentPayments (accrue_all u t s rent ps db) = rentPayments db ++ extra.
Proof.
  induction ps as [|p ps IH]; intros db.
  - exists []. cbn. by rewrite app_nil_r.
  - change (accrue_all u t s rent (p :: ps) db)
      with (accrue_all u t s rent ps (accrue_period u t s rent (fst p) (snd p) db)).
    destruct (IH (accrue_period u t s rent (fst p) (snd p) db)) as [e1 ->].
    destruct (accrue_period_extends u t s rent (fst p) (snd p) db) as [e2 ->].
    exists (e2 ++ e1). by rewrite app_assoc.
Qed.

Lemma accrue_all_covers u t s rent : forall ps db p,
  p ∈ ps -> covered u t s (rentPayments (accrue_all u t s rent ps db)) p.
Proof.
  induction ps as [|q ps IH]; intros db p Hin.
  - by apply elem_of_nil in Hin.
  - change (accrue_all u t s rent (q :: ps) db)
      with (accrue_all u t s rent ps (accrue_period u t s rent (fst q) (snd q) db)).
    apply elem_of_cons in Hin as [-> | Hin]; [|by apply IH].
    destruct (accrue_all_extends u t s rent ps
                (accrue_period u t s rent (fst q) (snd q) db)) as [e ->].
    apply covered_app, accrue_period_covers.
Qed.

(** Nothing is inserted for periods that all have a row, at any rent. *)
Lemma accrue_all_covered u t s rent : forall ps db,
  (forall p, p ∈ ps -> covered u t s (rentPayments db) p) ->
  accrue_all u t s rent ps db = db.
Proof.
  induction ps as [|q ps IH]; intros db Hcov; [done|].
  change (accrue_all u t s rent (q :: ps) db)
    with (accrue_all u t s rent ps (accrue_period u t s rent (fst q) (snd q) db)).
  assert (accrue_period u t s rent (fst q) (snd q) db = db) as ->.
  { unfold accrue_period. specialize (Hcov q). unfold covered in Hcov.
    destruct (select_period u t s (fst q) (snd q) (rentPayments db));
      [|done]. exfalso. apply Hcov; [|done]. apply elem_of_cons. by left. }
  apply IH. intros p Hp. apply Hcov. apply elem_of_cons. by right.
Qed.




(** *** Running the generator again *)

Lemma accrue_from_extends last u t s rent A db db1 :
  accrue_from last u t s rent A db = Some db1 ->
  exists extra, rentPayments db1 = rentPayments db ++ extra.
Proof.
  unfold accrue_from. rewrite accrual_loop_periods.
  destruct (accrual_periods _ _ _ _ _) as [ps|]; [|done].
  intros [= <-]. apply accrue_all_extends.
Qed.

(** Once run, a second run at any monthly rent, on the table the first
    one left or on any extension of it, inserts nothing. *)
Lemma accrue_from_again last u t s rent rent' A db db1 extra :
  accrue_from last u t s rent A db = Some db1 ->
  forall db2,
    rentPayments db2 = rentPayments db1 ++ extra ->
    accrue_from last u t s rent' A db2 = Some db2.
Proof.
  unfold accrue_from. intros Hrun db2 Hext. revert Hrun.
  rewrite !accrual_loop_periods.
  destruct (accrual_periods _ _ _ _ _) as [ps|]; [|done].
  intros [= <-]. cbn. f_equal. apply accrue_all_covered.
  intros p Hp. rewrite Hext. by apply covered_app, accrue_all_covers.
Qed.

Lemma sweep_shop_extends now shop db db1 :
  sweep_shop now shop db = Some db1 ->
  exists extra, rentPayments db1 = rentPayments db ++ extra.
Proof.
  unfold sweep_shop.
  destruct (tenantId shop) as [t|], (allocated_at shop) as [A|];
    try (intros [= <-]; exists []; by rewrite app_nil_r).
  destruct (getTime A >? getTime now);
    [intros [= <-]; exists []; by rewrite app_nil_r|].
  apply accrue_from_extends.
Qed.

Lemma sweep_extends now : forall shops db db1,
  createMissingRentPaymentsForAllocatedShops now shops db = Some db1 ->
  exists extra, rentPayments db1 = rentPayments db ++ extra.
Proof.
  induction shops as [|shop shops IH]; intros db db1; cbn.
  - intros [= <-]. exists []. by rewrite app_nil_r.
  - destruct (sweep_shop now shop db) as [dbm|] eqn:E; [|done].
    intros H. apply IH in H as [e1 ->].
    apply sweep_shop_extends in E as [e2 ->].
    exists (e2 ++ e1). by rewrite app_assoc.
Qed.

Lemma sweep_shop_again now shop shop' db db1 extra :
  sweep_shop now shop db = Some db1 ->
  same_allocation shop shop' ->
  forall db2,
    rentPayments db2 = rentPayments db1 ++ extra ->
    sweep_shop now shop' db2 = Some db2.
Proof.
  intros Hrun (Hid & Hu & Ht & HA) db2 Hext. revert Hrun.
  unfold sweep_shop. rewrite Hid, Hu, Ht, HA.
  destruct (tenantId shop) as [t|], (allocated_at shop) as [A|]; try done.
  destruct (getTime A >? getTime now); [done|].
  intros Hrun. by eapply accrue_from_again.
Qed.

Lemma sweep_again now : forall shops shops' db db1,
  createMissingRentPaymentsForAllocatedShops now shops db = Some db1 ->
  Forall2 same_allocation shops shops' ->
  forall db2 extra,
    rentPayments db2 = rentPayments db1 ++ extra ->
    createMissingRentPaymentsForAllocatedShops now shops' db2 = Some db2.
Proof.
  induction shops as [|shop shops IH]; intros shops' db db1 Hrun Hsame db2 extra Hext.
  - by apply Forall2_nil_inv_l in Hsame as ->.
  - apply Forall2_cons_inv_l in Hsame as (shop' & rest' & Hs & Hrest & ->).
    cbn in Hrun |- *.
    destruct (sweep_shop now shop db) as [dbm|] eqn:E; [|done].
    destruct (sweep_extends _ _ _ _ Hrun) as [e1 He1].
    rewrite (sweep_shop_again now shop shop' db dbm (e1 ++ extra) E Hs db2).
    + by eapply IH.
    + by rewrite Hext, He1, app_assoc.
Qed.

Lemma sweep_finishes now : forall shops db,
  is_Some (createMissingRentPaymentsForAllocatedShops now shops db).
Proof.
  induction shops as [|shop shops IH]; intros db; cbn; [done|].
  assert (is_Some (sweep_shop now shop db)) as [dbm ->]; [|apply IH].
  unfold sweep_shop.
  destruct (tenantId shop), (allocated_at shop) as [A|]; try done.
  destruct (getTime A >? getTime now); [done|]. apply accrue_from_finishes.
Qed.

(** C4.  The generator is idempotent.  The sweep always finishes; run a
    second time at the same instant over the same shops, whatever their
    monthly rents have become in between, it returns the very table the
    first run left: no row is added, none is duplicated, and no field of
    any row, its amount included, is changed.  The same holds for the loop
    at the end of [createShop]. *)
Theorem accrual_idempotent :
  (forall now shops db,
      is_Some (createMissingRentPaymentsForAllocatedShops now shops db)) /\
  (forall now shops shops' db db1,
      createMissingRentPaymentsForAllocatedShops now shops db = Some db1 ->
      Forall2 same_allocation shops shops' ->
      createMissingRentPaymentsForAllocatedShops now shops' db1 = Some db1) /\
  (forall now shop shop' db db1,
      createShop_accrual now shop db = Some db1 ->
      same_allocation shop shop' ->
      createShop_accrual now shop' db1 = Some db1).
Proof.
  split; [apply sweep_finishes|]. split.
  - intros now shops shops' db db1 Hrun Hsame.
    eapply sweep_again with (extra := []); [exact Hrun|exact Hsame|].
    by rewrite app_nil_r.
  - intros now shop shop' db db1 Hrun (Hid & Hu & Ht & HA). revert Hrun.
    unfold createShop_accrual. rewrite Hid, Hu, Ht, HA.
    destruct (tenantId shop) as [t|], (allocated_at shop) as [A|];
      try (by intros [= <-]).
    destruct (getTime A <=? getTime now); [|by intros [= <-]].
    intros Hrun. eapply accrue_from_again with (extra := []); [exact Hrun|].
    by rewrite app_nil_r.
Qed.

Lemma accrual_idempotent_witness :
  createMissingRentPaymentsForAllocatedShops scenarioA_now [scenarioA_shop_raised]
    scenarioA_after = Some scenarioA_after.
Proof.
  apply (proj1 (proj2 accrual_idempotent) scenarioA_now [scenarioA_shop]
           [scenarioA_shop_raised] scenarioA_db scenarioA_after).
  - vm_compute. reflexivity.
  - repeat constructor.
Defined.

End AccrualFacts.

(** ** Rent Payment Reconciler *)

Section ReconcilerFacts.
Import Rent Reconciler.

Lemma update_where_id_lookup id f rows i :
  update_where_id id f rows !! i =
  (fun r => if (rp_id r =? id)%positive then f r else r) <$> rows !! i.
Proof. unfold update_where_id. apply list_lookup_fmap. Qed.

Lemma elem_of_update_where_id id f rows r' :
  r' ∈ update_where_id id f rows ->
  exists r, r ∈ rows /\ r' = if (rp_id r =? id)%positive then f r else r.
Proof.
  unfold update_where_id. intros H. apply list_elem_of_fmap in H as (r & -> & Hr).
  by exists r.
Qed.

Lemma select_period_elem u t s m y rows r :
  r ∈ select_period u t s m y rows ->
  r ∈ rows /\ same_period u t s m y r = true.
Proof. unfold select_period. intros H. by apply list_elem_of_filter in H as [? ?]. Qed.

Lemma select_period_head u t s m y rows r rest :
  select_period u t s m y rows = r :: rest ->
  r ∈ rows /\ same_period u t s m y r = true.
Proof.
  intros H. apply select_period_elem. rewrite H. apply elem_of_cons. by left.
Qed.

Lemma unique_ids_eq rows r r' :
  unique_ids rows -> r ∈ rows -> r' ∈ rows -> rp_id r = rp_id r' -> r = r'.
Proof.
  unfold unique_ids. induction rows as [|x rows IH]; intros Hnd Hr Hr' Hid.
  - by apply elem_of_nil in Hr.
  - cbn in Hnd. apply NoDup_cons in Hnd as [Hx Hnd].
    apply elem_of_cons in Hr as [-> | Hr], Hr' as [-> | Hr']; try done.
    + exfalso. apply Hx. rewrite Hid. apply list_elem_of_fmap. by exists r'.
    + exfalso. apply Hx. rewrite <- Hid. apply list_elem_of_fmap. by exists r.
    + by apply IH.
Qed.

Lemma ledger_ok_set_paid paid amount r :
  rp_amount r = amount ->
  ledger_ok (set_paid paid (Z.max (amount - paid) 0)
               (if Z.max (amount - paid) 0 =? 0 then "paid" else "pending") r).
Proof. intros <-. by split. Qed.






(** *** The recalculation pass *)

Lemma group_push_fresh p : forall grouped,
  group_key p ∉ map g_key grouped ->
  group_push p grouped = grouped ++ [single_group p].
Proof.
  induction grouped as [|g grouped IH]; intros Hfresh; [done|].
  cbn in Hfresh |- *. apply not_elem_of_cons in Hfresh as [Hne Hfresh].
  destruct (decide (g_key g = group_key p)) as [Heq|_]; [congruence|].
  by rewrite IH.
Qed.

Lemma group_all_acc : forall all grouped,
  NoDup (map g_key grouped ++ map group_key all) ->
  fold_left (fun grouped p => group_push p grouped) all grouped =
  grouped ++ map single_group all.
Proof.
  induction all as [|p all IH]; intros grouped Hnd; cbn.
  - by rewrite app_nil_r.
  - cbn in Hnd. apply NoDup_app in Hnd as (Hg & Hdisj & Hall).
    apply NoDup_cons in Hall as [Hp Hall].
    rewrite group_push_fresh.
    2: { intros Hin. apply (Hdisj _ Hin). apply elem_of_cons. by left. }
    rewrite IH.
    + by rewrite <- app_assoc.
    + rewrite map_app. cbn. rewrite <- app_assoc. cbn.
      apply NoDup_app. split; [done|]. split.
      * intros k Hk Hin. apply elem_of_cons in Hin as [-> | Hin].
        -- apply (Hdisj _ Hk). apply elem_of_cons. by left.
        -- apply (Hdisj _ Hk). apply elem_of_cons. by right.
      * by apply NoDup_cons.
Qed.

(** With one row for each period, every group has one row. *)
Lemma group_all_singletons all :
  NoDup (map group_key all) -> group_all all = map single_group all.
Proof. intros H. unfold group_all. by rewrite group_all_acc. Qed.

Lemma recalculate_single rows p :
  recalculate_group rows (single_group p) =
  update_where_id (rp_id p) (recalculate_as p) rows.
Proof. unfold recalculate_group, single_group. cbn. done. Qed.

Lemma fold_left_over_map {A B C} (f : A -> C -> A) (g : B -> C) :
  forall l a, fold_left f (map g l) a = fold_left (fun a x => f a (g x)) l a.
Proof. induction l as [|x l IH]; intros a; [done|]. cbn. apply IH. Qed.

Lemma fold_left_same {A B} (f g : A -> B -> A) :
  (forall a x, f a x = g a x) ->
  forall l a, fold_left f l a = fold_left g l a.
Proof.
  intros Hfg. induction l as [|x l IH]; intros a; [done|]. cbn.
  by rewrite Hfg, IH.
Qed.

Lemma fold_updates (G : RentPayment -> RentPayment -> RentPayment) :
  forall ps rows,
    fold_left (fun rows p => update_where_id (rp_id p) (G p) rows) ps rows =
    map (fun r => fold_left (fun r p => if (rp_id r =? rp_id p)%positive
                                        then G p r else r) ps r) rows.
Proof.
  induction ps as [|p ps IH]; intros rows; cbn.
  - by rewrite map_id.
  - rewrite IH. unfold update_where_id. by rewrite map_map.
Qed.

Lemma fold_skip (G : RentPayment -> RentPayment -> RentPayment) : forall ps r,
  (forall p, p ∈ ps -> rp_id p <> rp_id r) ->
  fold_left (fun r p => if (rp_id r =? rp_id p)%positive then G p r else r) ps r = r.
Proof.
  induction ps as [|p ps IH]; intros r Hne; [done|]. cbn.
  assert ((rp_id r =? rp_id p)%positive = false) as ->.
  { apply Pos.eqb_neq. intros Heq. apply (Hne p); [apply elem_of_cons; by left|done]. }
  apply IH. intros q Hq. apply Hne. apply elem_of_cons. by right.
Qed.

Lemma fold_hit (G : RentPayment -> RentPayment -> RentPayment) :
  (forall p r, rp_id (G p r) = rp_id r) ->
  forall ps r,
    NoDup (map rp_id ps) -> r ∈ ps ->
    fold_left (fun r p => if (rp_id r =? rp_id p)%positive then G p r else r) ps r
    = G r r.
Proof.
  intros Hid. induction ps as [|p ps IH]; intros r Hnd Hr.
  - by apply elem_of_nil in Hr.
  - cbn in Hnd |- *. apply NoDup_cons in Hnd as [Hp Hnd].
    apply elem_of_cons in Hr as [-> | Hr].
    + rewrite Pos.eqb_refl. apply fold_skip. intros q Hq Heq.
      apply Hp. rewrite Hid in Heq. rewrite <- Heq.
      apply list_elem_of_fmap. by exists q.
    + assert ((rp_id r =? rp_id p)%positive = false) as ->.
      { apply Pos.eqb_neq. intros Heq. apply Hp. rewrite <- Heq.
        apply list_elem_of_fmap. by exists r. }
      by apply IH.
Qed.

(** With unique primary keys and one row for each period of the user, the
    pass rewrites the pending amount and the status of each row of the user
    from the row's own amount and paid amount, and nothing else. *)
Lemma recalculate_unique_periods (userId : positive) (rows : list RentPayment) :
  unique_ids rows ->
  NoDup (map group_key (filter (fun p => rp_userId p = userId) rows)) ->
  recalculateAllPendingRents userId rows =
  map (fun r => if decide (rp_userId r = userId) then recalculated r else r) rows.
Proof.
  intros Hids Hkeys. unfold recalculateAllPendingRents.
  rewrite group_all_singletons by done.
  rewrite fold_left_over_map.
  rewrite (fold_left_same _ _ (fun rows p => recalculate_single rows p)).
  rewrite (fold_updates recalculate_as).
  apply map_ext_in. intros r Hr. apply list_elem_of_In in Hr.
  destruct (decide (rp_userId r = userId)) as [Hu|Hu].
  - rewrite fold_hit; [done|done| |].
    + unfold unique_ids in Hids. eapply sublist_NoDup; [exact Hids|].
      apply (fmap_sublist rp_id), sublist_filter.
    + apply list_elem_of_filter. by split.
  - apply fold_skip. intros p Hp Heq.
    apply list_elem_of_filter in Hp as [Hpu Hp].
    apply Hu. by rewrite <- (unique_ids_eq rows p r Hids Hp Hr Heq).
Qed.

(** *** The ledger invariant, operation by operation *)


Lemma accrue_all_Forall (P : RentPayment -> Prop) u t s rent :
  (forall m y id, P (accrued u t s rent m y id)) ->
  forall ps db,
    Forall P (rentPayments db) ->
    Forall P (rentPayments (accrue_all u t s rent ps db)).
Proof.
  intros HP. induction ps as [|p ps IH]; intros db H; [done|].
  change (accrue_all u t s rent (p :: ps) db)
    with (accrue_all u t s rent ps (accrue_period u t s rent (fst p) (snd p) db)).
  apply IH. unfold accrue_period.
  destruct (select_period u t s (fst p) (snd p) (rentPayments db)); [|done].
  cbn. apply Forall_app_2; [done|]. apply Forall_singleton, HP.
Qed.






Lemma upsert_update now data db prev rest :
  select_period (d_userId data) (d_tenantId data) (d_shopId data)
    (d_month data) (d_year data) (rentPayments db) = prev :: rest ->
  let newPaid := rp_paidAmount prev + nullish (d_paidAmount data) 0 in
  let pending := Z.max (nullish (d_amount data) (rp_amount prev) - newPaid) 0 in
  let upd :=
    set_payment newPaid pending (if pending =? 0 then "paid" else "pending")
      (nullish (d_paymentDate data) now)
      (match d_notes data with Some n => Some n | None => rp_notes prev end) in
  upsertRentPayment now data db =
  Ok (upd prev)
     {| rentPayments := update_where_id (rp_id prev) upd (rentPayments db);
        rentPayments_seq := rentPayments_seq db |}.
Proof.
  intros Hsel. unfold upsertRentPayment, bind, gets. by rewrite Hsel.
Qed.





End ReconcilerFacts.

(** ** Validation of a rent payment *)

Section RentFormFacts.
Import Rent Reconciler RentForm.








End RentFormFacts.

(** ** Updating a shop *)

Section ShopUpdateFacts.
Import Rent ShopUpdate.

Variable isDateOnly : string -> bool.
Variable utcDate : string -> JsDate.
Variable newDate : string -> option JsDate.

Lemma normalize_without_tenant (now : JsDate) (updates : ShopUpdates) :
  u_tenantId updates = Absent ->
  let updates' := normalize isDateOnly utcDate newDate now updates in
  u_tenantId updates' = Absent /\
  u_allocated_at updates' = Null /\
  u_isOccupied updates' = Some false /\
  u_monthlyRent updates' = u_monthlyRent updates /\
  u_shopNumber updates' = u_shopNumber updates /\
  u_isAdvancePaid updates' = u_isAdvancePaid updates.
Proof.
  destruct updates as [ten a1 a2 rent num occ adv]. cbn. intros ->.
  unfold normalize; cbn.
  destruct (truthy a2 && negb (truthy a1)); cbn.
  - destruct (truthy a2) eqn:E2; cbn.
    + destruct a2 as [| |[s|d]]; cbn; try done.
      all: try (destruct (isDateOnly s)); cbn; try done.
    + done.
  - destruct (truthy a1) eqn:E1; cbn.
    + destruct a1 as [| |[s|d]]; cbn; try done.
      all: try (destruct (isDateOnly s)); cbn; try done.
    + destruct (truthy a2); cbn; done.
Qed.

(** C10.  When the [updates] object has no [tenantId] key, [updateShop]
    writes a null [allocated_at] and a false [isOccupied] to the shop,
    whatever allocation date the request carries, and leaves the stored
    tenant as it was: an update of the monthly rent alone clears the
    allocation date and the occupancy of a shop that still has its tenant.
    The other columns take the values of the request, and no rent period
    is created or deleted. *)
Theorem updateShop_without_tenant (now : JsDate) (id userId : positive)
    (updates : ShopUpdates) (db : PropertyDb) (old : Shop) :
  u_tenantId updates = Absent ->
  List.find (owned_shop id userId) (shops db) = Some old ->
  exists shop db',
    updateShop isDateOnly utcDate newDate now id userId updates db = Ok shop db' /\
    allocated_at shop = None /\
    isOccupied shop = false /\
    tenantId shop = tenantId old /\
    monthlyRent shop = match u_monthlyRent updates with
                       | Some v => v
                       | None => monthlyRent old
                       end /\
    List.find (owned_shop id userId) (shops db') = Some shop /\
    rents db' = rents db.
Proof.
  intros Hten Hfind.
  destruct (normalize_without_tenant now updates Hten)
    as (Ht & Ha & Ho & Hr & Hn & Hadv).
  unfold updateShop.
  remember (normalize isDateOnly utcDate newDate now updates) as updates' eqn:Hu.
  cbn in Ht, Ha, Ho, Hr.
  unfold bind, gets, modify, ret. rewrite Hfind, Ha. cbn.
  rewrite Ht. exists (set_updates updates' None old). eexists.
  split; [by destruct (tenantId old)|].
  unfold set_updates at 1 2 3 4; cbn. rewrite Ht, Ho, Hr.
  do 4 (split; [done|]). split; [|done].
  clear -Hfind. induction (shops db) as [|s l IH]; [done|].
  cbn in Hfind |- *. destruct (owned_shop id userId s) eqn:E.
  - injection Hfind as ->. unfold owned_shop in E |- *. cbn. by rewrite E.
  - rewrite E. by apply IH.
Qed.

End ShopUpdateFacts.

Section ShopUpdateScenario.
Import Rent ShopUpdate.

(** The rent of a let shop is raised: the tenant stays, the allocation
    date and the occupancy go. *)
Lemma updateShop_without_tenant_witness :
  exists shop db',
    updateShop (fun _ => false) (fun _ => scenarioA_now) (fun _ => None)
      scenarioA_now 1 1 rent_raise let_db
      = Ok shop db' /\
    allocated_at shop = None /\
    isOccupied shop = false /\
    tenantId shop = Some 7%positive /\
    monthlyRent shop = 1200000 /\
    List.find (owned_shop 1 1) (shops db') = Some shop /\
    rents db' = rents let_db.
Proof.
  apply (updateShop_without_tenant (fun _ => false) (fun _ => scenarioA_now)
           (fun _ => None) scenarioA_now 1 1 rent_raise let_db let_shop).
  - reflexivity.
  - reflexivity.
Defined.

End ShopUpdateScenario.

(** ** Backup and restore *)

Section BackupFacts.
Import Rent Reconciler Backup.

Variable faults : nat -> option string.

Lemma quiet_from_le t t' : quiet_from faults t -> (t <= t')%nat -> quiet_from faults t'.
Proof. intros H Hle n Hn. apply H. lia. Qed.

Lemma table_set_table T rows s T' :
  table (set_table T rows s) T' = if decide (T' = T) then rows else table s T'.
Proof. done. Qed.

(** *** Runs the datastore does not disturb *)

Lemma returns_bind c k w w1 w2 :
  returns c w w1 -> returns k w1 w2 -> returns (run! c in k) w w2.
Proof.
  intros [Hc Hle1] [Hk Hle2]. split; [|lia]. unfold bind. by rewrite Hc.
Qed.

Lemma returns_statement f w :
  quiet_from faults (sent w) ->
  returns (statement faults f) w {| store := f (store w); sent := S (sent w) |}.
Proof.
  intros Hq. split; [|cbn; lia]. unfold statement. by rewrite (Hq (sent w)).
Qed.

Lemma returns_insert duplicate f w :
  quiet_from faults (sent w) -> duplicate (store w) = false ->
  returns (insert_statement faults duplicate f) w
    {| store := f (store w); sent := S (sent w) |}.
Proof.
  intros Hq Hd. split; [|cbn; lia]. unfold insert_statement.
  by rewrite (Hq (sent w)), Hd.
Qed.

(** A loop whose turns all return, each moving the invariant on. *)
Lemma returns_for_each {A} (body : A -> M World unit)
    (J : list A -> Store -> Prop) :
  (forall done x w,
      quiet_from faults (sent w) -> J done (store w) ->
      exists w', returns (body x) w w' /\ J (done ++ [x]) (store w')) ->
  forall l done w,
    quiet_from faults (sent w) -> J done (store w) ->
    exists w', returns (for_each l body) w w' /\ J (done ++ l) (store w').
Proof.
  intros Hbody. induction l as [|x l IH]; intros done w Hq HJ.
  - exists w. rewrite app_nil_r. by repeat split.
  - destruct (Hbody done x w Hq HJ) as (w1 & Hr1 & HJ1).
    destruct (IH (done ++ [x]) w1) as (w2 & Hr2 & HJ2); [|done|].
    { eapply quiet_from_le; [exact Hq|]. apply Hr1. }
    exists w2. split; [by eapply returns_bind|].
    by rewrite <- app_assoc in HJ2.
Qed.

Lemma filter_twice {A} (P : A -> Prop) `{!forall x, Decision (P x)} (l : list A) :
  filter P (filter P l) = filter P l.
Proof.
  induction l as [|x l IH]; [done|]. rewrite filter_cons.
  destruct (decide (P x)) as [HP|HP]; [|done].
  rewrite filter_cons. destruct (decide (P x)); [|done]. by rewrite IH.
Qed.

Lemma delete_loop_returns (u : positive) : forall l w,
  quiet_from faults (sent w) ->
  exists w',
    returns (for_each l (delete_rows faults u)) w w' /\
    (forall T, table (store w') T =
               if decide (T ∈ l)
               then filter (fun r => row_userId r <> u) (table (store w) T)
               else table (store w) T) /\
    rentPayments (store w') = rentPayments (store w) /\
    tenantShops (store w') = tenantShops (store w).
Proof.
  induction l as [|x l IH]; intros w Hq.
  - exists w. by repeat split.
  - pose proof (returns_statement
                  (fun s => set_table x
                     (filter (fun r => row_userId r <> u) (table s x)) s) w Hq)
      as Hr1.
    destruct (IH _ (quiet_from_le _ _ Hq (proj2 Hr1))) as (w2 & Hr2 & Ht & Hrp & Hts).
    exists w2. split; [by eapply returns_bind|].
    cbn in Ht, Hrp, Hts. split; [|done].
    intros T. rewrite Ht.
    destruct (decide (T = x)) as [->|Hne].
    + destruct (decide (x ∈ x :: l)) as [_|Hn]; [|by destruct Hn; left].
      destruct (decide (x ∈ l)); [apply filter_twice|done].
    + destruct (decide (T ∈ l)) as [Hin|Hnin].
      * destruct (decide (T ∈ x :: l)) as [_|Hn]; [done|]. destruct Hn. by right.
      * destruct (decide (T ∈ x :: l)) as [Hin|_]; [|done].
        apply elem_of_cons in Hin as [?|?]; done.
Qed.

(** [deleteAllUserData], when the datastore lets it through. *)
Lemma deleteAllUserData_returns (u : positive) (w : World) :
  quiet_from faults (sent w) ->
  exists w',
    returns (deleteAllUserData faults u) w w' /\
    (forall T, table (store w') T =
               filter (fun r => row_userId r <> u) (table (store w) T)) /\
    rentPayments (store w') =
      filter (fun r => rp_userId r <> u) (rentPayments (store w)) /\
    tenantShops (store w') = [].
Proof.
  intros Hq. unfold deleteAllUserData.
  pose proof (returns_statement
                (fun s => set_rentPayments
                   (filter (fun r => rp_userId r <> u) (rentPayments s)) s) w Hq)
    as Hr1.
  destruct (delete_loop_returns u [Transfers; Transactions] _
              (quiet_from_le _ _ Hq (proj2 Hr1))) as (w2 & Hr2 & Ht2 & Hrp2 & Hts2).
  assert (quiet_from faults (sent w2)) as Hq2.
  { eapply quiet_from_le; [exact Hq|]. destruct Hr1, Hr2. lia. }
  pose proof (returns_statement (set_tenantShops []) w2 Hq2) as Hr3.
  destruct (delete_loop_returns u [Shops; Buildings; Tenants; Categories; Accounts] _
              (quiet_from_le _ _ Hq2 (proj2 Hr3))) as (w4 & Hr4 & Ht4 & Hrp4 & Hts4).
  exists w4. split.
  { eapply returns_bind; [exact Hr1|]. eapply returns_bind; [exact Hr2|].
    eapply returns_bind; [exact Hr3|exact Hr4]. }
  cbn in *. split; [|by rewrite Hrp4, Hrp2].
  intros T. rewrite Ht4, Ht2. by destruct T.
Qed.

Lemma insert_rows_returns (u : positive) (doc : Document) (T : Table) (w : World) :
  quiet_from faults (sent w) ->
  NoDup (map row_id (table (store w) T
                     ++ imported_rows u (rows_of (doc_table doc T)))) ->
  exists w',
    returns (insert_rows faults u T doc) w w' /\
    (forall T', table (store w') T' =
                if decide (T' = T)
                then table (store w) T ++ imported_rows u (rows_of (doc_table doc T))
                else table (store w) T') /\
    rentPayments (store w') = rentPayments (store w) /\
    tenantShops (store w') = tenantShops (store w).
Proof.
  intros Hq Hnd. unfold insert_rows.
  destruct (doc_table doc T) as [[|r rows]|] eqn:E; cbn in Hnd.
  - exists w. repeat split; try done. intros T'.
    destruct (decide (T' = T)) as [->|]; [|done]. by rewrite app_nil_r.
  - eexists. split; [apply returns_insert; [done|]|].
    + apply negb_false_iff, bool_decide_eq_true. exact Hnd.
    + by repeat split.
  - exists w. repeat split; try done. intros T'.
    destruct (decide (T' = T)) as [->|]; [|done]. by rewrite app_nil_r.
Qed.

Lemma insert_loop_returns (u : positive) (doc : Document) : forall l w,
  NoDup l ->
  quiet_from faults (sent w) ->
  (forall T, T ∈ l ->
     NoDup (map row_id (table (store w) T
                        ++ imported_rows u (rows_of (doc_table doc T))))) ->
  exists w',
    returns (for_each l (fun T => insert_rows faults u T doc)) w w' /\
    (forall T, table (store w') T =
               if decide (T ∈ l)
               then table (store w) T ++ imported_rows u (rows_of (doc_table doc T))
               else table (store w) T) /\
    rentPayments (store w') = rentPayments (store w) /\
    tenantShops (store w') = tenantShops (store w).
Proof.
  induction l as [|x l IH]; intros w Hl Hq Hnd.
  - exists w. by repeat split.
  - apply NoDup_cons in Hl as [Hx Hl].
    destruct (insert_rows_returns u doc x w Hq) as (w1 & Hr1 & Ht1 & Hrp1 & Hts1).
    { apply Hnd. by left. }
    destruct (IH w1 Hl) as (w2 & Hr2 & Ht2 & Hrp2 & Hts2).
    { eapply quiet_from_le; [exact Hq|apply Hr1]. }
    { intros T HT. rewrite Ht1.
      destruct (decide (T = x)) as [->|]; [done|]. apply Hnd. by right. }
    exists w2. split; [by eapply returns_bind|].
    split; [|by rewrite Hrp2, Hts2].
    intros T. rewrite Ht2, !Ht1.
    destruct (decide (T = x)) as [->|Hne].
    + destruct (decide (x ∈ l)); [done|].
      destruct (decide (x ∈ x :: l)) as [_|Hn]; [done|]. destruct Hn. by left.
    + destruct (decide (T ∈ l)) as [Hin|Hnin].
      * destruct (decide (T ∈ x :: l)) as [_|Hn]; [done|]. destruct Hn. by right.
      * destruct (decide (T ∈ x :: l)) as [Hin|_]; [|done].
        apply elem_of_cons in Hin as [?|?]; done.
Qed.

Lemma insert_rents_returns (u : positive) (doc : Document) (w : World) :
  quiet_from faults (sent w) ->
  NoDup (map rp_id (rentPayments (store w)
                    ++ imported_rents u (rows_of (doc_rentPayments doc)))) ->
  exists w',
    returns (insert_rents faults u doc) w w' /\
    (forall T, table (store w') T = table (store w) T) /\
    rentPayments (store w') =
      rentPayments (store w) ++ imported_rents u (rows_of (doc_rentPayments doc)) /\
    tenantShops (store w') = tenantShops (store w).
Proof.
  intros Hq Hnd. unfold insert_rents.
  destruct (doc_rentPayments doc) as [[|r rows]|] eqn:E; cbn in Hnd.
  - exists w. repeat split; try done. by rewrite app_nil_r.
  - eexists. split; [apply returns_insert; [done|]|].
    + apply negb_false_iff, bool_decide_eq_true. exact Hnd.
    + by repeat split.
  - exists w. repeat split; try done. by rewrite app_nil_r.
Qed.

(** The updates of one group, and of all groups, on the rent table. *)
Lemma update_loop_returns (g : RentPayment -> RentPayment) : forall ps w,
  quiet_from faults (sent w) ->
  exists w',
    returns (for_each ps (fun p =>
               statement faults (fun s =>
                 set_rentPayments (update_where_id (rp_id p) g (rentPayments s)) s)))
      w w' /\
    (forall T, table (store w') T = table (store w) T) /\
    rentPayments (store w') =
      fold_left (fun rows p => update_where_id (rp_id p) g rows) ps
        (rentPayments (store w)) /\
    tenantShops (store w') = tenantShops (store w).
Proof.
  induction ps as [|p ps IH]; intros w Hq.
  - exists w. by repeat split.
  - pose proof (returns_statement
                  (fun s => set_rentPayments
                              (update_where_id (rp_id p) g (rentPayments s)) s) w Hq)
      as Hr1.
    destruct (IH _ (quiet_from_le _ _ Hq (proj2 Hr1))) as (w2 & Hr2 & Ht & Hrp & Hts).
    exists w2. split; [by eapply returns_bind|]. by repeat split.
Qed.

Lemma group_loop_returns : forall groups w,
  quiet_from faults (sent w) ->
  exists w',
    returns (for_each groups (fun g =>
      let totalPaid :=
        fold_left (fun sum p => sum + rp_paidAmount p) (g_payments g) 0 in
      let pending := Z.max (g_amount g - totalPaid) 0 in
      for_each (g_payments g) (fun p =>
        statement faults (fun s =>
          set_rentPayments
            (update_where_id (rp_id p)
               (set_pending pending (if pending =? 0 then "paid" else "pending"))
               (rentPayments s)) s)))) w w' /\
    (forall T, table (store w') T = table (store w) T) /\
    rentPayments (store w') =
      fold_left recalculate_group groups (rentPayments (store w)) /\
    tenantShops (store w') = tenantShops (store w).
Proof.
  induction groups as [|g groups IH]; intros w Hq.
  - exists w. by repeat split.
  - cbn [for_each].
    destruct (update_loop_returns
                (set_pending
                   (Z.max (g_amount g
                           - fold_left (fun sum p => sum + rp_paidAmount p)
                               (g_payments g) 0) 0)
                   (if Z.max (g_amount g
                              - fold_left (fun sum p => sum + rp_paidAmount p)
                                  (g_payments g) 0) 0 =? 0
                    then "paid" else "pending"))
                (g_payments g) w Hq) as (w1 & Hr1 & Ht1 & Hrp1 & Hts1).
    destruct (IH w1) as (w2 & Hr2 & Ht2 & Hrp2 & Hts2).
    { eapply quiet_from_le; [exact Hq|apply Hr1]. }
    exists w2. split; [by eapply returns_bind|].
    split; [intros T; by rewrite Ht2, Ht1|].
    split; [|by rewrite Hts2, Hts1].
    rewrite Hrp2, Hrp1. done.
Qed.

Lemma recalculate_returns (u : positive) (w : World) :
  quiet_from faults (sent w) ->
  exists w',
    returns (recalculateAllPendingRents_db faults u) w w' /\
    (forall T, table (store w') T = table (store w) T) /\
    rentPayments (store w') =
      recalculateAllPendingRents u (rentPayments (store w)) /\
    tenantShops (store w') = tenantShops (store w).
Proof.
  intros Hq.
  destruct (group_loop_returns
              (group_all (filter (fun p => rp_userId p = u) (rentPayments (store w))))
              {| store := store w; sent := S (sent w) |})
    as (w' & [Hr Hle] & Ht & Hrp & Hts).
  { eapply quiet_from_le; [exact Hq|cbn; lia]. }
  exists w'. split; [split; [|cbn in Hle; lia]|by repeat split].
  unfold recalculateAllPendingRents_db, bind, query.
  by rewrite (Hq (sent w)) by lia.
Qed.

Lemma resetAllSequences_returns (w : World) :
  quiet_from faults (sent w) ->
  exists w', returns (resetAllSequences faults) w w' /\ store w' = store w.
Proof.
  unfold resetAllSequences. generalize (seq 0 10). intros l. revert w.
  induction l as [|x l IH]; intros w Hq.
  - exists w. by repeat split.
  - destruct (IH {| store := store w; sent := S (sent w) |}) as (w2 & [Hr Hle] & Hs).
    { eapply quiet_from_le; [exact Hq|cbn; lia]. }
    exists w2. split; [|done]. split; [|cbn in Hle; lia].
    cbn [for_each]. unfold bind, try_catch, statement.
    by rewrite (Hq (sent w)) by lia.
Qed.

(** *** What holds of the store however a call ends *)

Lemma preserves_ret {A} I (a : A) : preserves I (ret a).
Proof. by intros w H. Qed.

Lemma preserves_throw {A} I e : preserves I (@throw World A e).
Proof. by intros w H. Qed.

Lemma preserves_bind {A B} I (c : M World A) (k : A -> M World B) :
  preserves I c -> (forall a, preserves I (k a)) -> preserves I (bind c k).
Proof.
  intros Hc Hk w H. unfold bind. specialize (Hc w H).
  destruct (c w) as [a w1|e w1]; cbn in *; [|done]. by apply Hk.
Qed.

Lemma preserves_statement I f :
  (forall s, I s -> I (f s)) -> preserves I (statement faults f).
Proof.
  intros Hf w H. unfold statement. destruct (faults (sent w)); cbn; auto.
Qed.

Lemma preserves_insert I duplicate f :
  (forall s, I s -> duplicate s = false -> I (f s)) ->
  preserves I (insert_statement faults duplicate f).
Proof.
  intros Hf w H. unfold insert_statement.
  destruct (faults (sent w)); cbn; [done|].
  destruct (duplicate (store w)) eqn:E; cbn; auto.
Qed.

Lemma preserves_query_bind {A B} I (f : Store -> A) (k : A -> M World B) :
  (forall s t, I s -> I (store (final (k (f s) (mkWorld s t))))) ->
  preserves I (bind (query faults f) k).
Proof.
  intros Hk w H. unfold bind, query. destruct (faults (sent w)); cbn; [done|].
  by apply Hk.
Qed.

Lemma preserves_for_each {A} I (body : A -> M World unit) : forall l,
  (forall x, x ∈ l -> preserves I (body x)) -> preserves I (for_each l body).
Proof.
  induction l as [|x l IH]; intros Hbody; [apply preserves_ret|].
  cbn [for_each]. apply preserves_bind.
  - apply Hbody. by left.
  - intros _. apply IH. intros y Hy. apply Hbody. by right.
Qed.

Lemma preserves_try_catch {A} I (body : M World A) (handler : Error -> M World A) :
  preserves I body -> (forall e, preserves I (handler e)) ->
  preserves I (try_catch body handler).
Proof.
  intros Hb Hh w H. unfold try_catch. specialize (Hb w H).
  destruct (body w) as [a w1|e w1]; cbn in *; [done|]. by apply Hh.
Qed.

Lemma filter_imported_rows u rows :
  filter (fun r => row_userId r <> u) (imported_rows u rows) = [].
Proof.
  induction rows as [|r rows IH]; [done|].
  change (imported_rows u (r :: rows))
    with (set_row_user u (doc_row r) :: imported_rows u rows).
  rewrite filter_cons, IH. cbn. by destruct (decide (u <> u)).
Qed.

Lemma filter_imported_rents u rows :
  filter (fun r => rp_userId r <> u) (imported_rents u rows) = [].
Proof.
  induction rows as [|r rows IH]; [done|].
  change (imported_rents u (r :: rows))
    with (set_rent_user u (doc_row r) :: imported_rents u rows).
  rewrite filter_cons, IH. cbn. by destruct (decide (u <> u)).
Qed.

Lemma others_kept_delete_rows u s0 T :
  preserves (others_kept u s0) (delete_rows faults u T).
Proof.
  apply preserves_statement. intros s (Ht & Hr & Hid). split; [|done].
  intros T'. rewrite table_set_table.
  destruct (decide (T' = T)) as [->|]; [|apply Ht].
  rewrite filter_twice. apply Ht.
Qed.

Lemma others_kept_deleteAllUserData u s0 :
  preserves (others_kept u s0) (deleteAllUserData faults u).
Proof.
  unfold deleteAllUserData. apply preserves_bind.
  { apply preserves_statement. intros s (Ht & Hr & Hid).
    split; [done|]. cbn. split; [by rewrite filter_twice|].
    unfold unique_ids in *. eapply sublist_NoDup; [exact Hid|].
    apply (fmap_sublist rp_id), sublist_filter. }
  intros _. apply preserves_bind.
  { apply preserves_for_each. intros T _. apply others_kept_delete_rows. }
  intros _. apply preserves_bind.
  { apply preserves_statement. by intros s (Ht & Hr & Hid). }
  intros _. apply preserves_for_each. intros T _. apply others_kept_delete_rows.
Qed.

Lemma others_kept_insert_rows u s0 doc T :
  preserves (others_kept u s0) (insert_rows faults u T doc).
Proof.
  unfold insert_rows.
  destruct (doc_table doc T) as [[|r rows]|]; try apply preserves_ret.
  apply preserves_insert. intros s (Ht & Hr & Hid) _. split; [|done].
  intros T'. rewrite table_set_table.
  destruct (decide (T' = T)) as [->|]; [|apply Ht].
  rewrite filter_app, filter_imported_rows, app_nil_r. apply Ht.
Qed.

Lemma others_kept_insert_rents u s0 doc :
  preserves (others_kept u s0) (insert_rents faults u doc).
Proof.
  unfold insert_rents.
  destruct (doc_rentPayments doc) as [[|r rows]|]; try apply preserves_ret.
  apply preserves_insert. intros s (Ht & Hr & Hid) Hdup. split; [done|].
  unfold set_rentPayments; cbn [rentPayments]. split.
  - by rewrite filter_app, filter_imported_rents, app_nil_r.
  - apply negb_false_iff, bool_decide_eq_true in Hdup. exact Hdup.
Qed.

Lemma group_push_members (P : RentPayment -> Prop) p : forall grouped,
  P p ->
  (forall g, g ∈ grouped -> forall q, q ∈ g_payments g -> P q) ->
  forall g, g ∈ group_push p grouped -> forall q, q ∈ g_payments g -> P q.
Proof.
  induction grouped as [|g0 grouped IH]; intros Hp Hacc g Hg q Hq; cbn in Hg.
  - apply list_elem_of_singleton in Hg as ->. cbn in Hq.
    by apply list_elem_of_singleton in Hq as ->.
  - destruct (decide (g_key g0 = group_key p)).
    + apply elem_of_cons in Hg as [-> | Hg].
      * cbn in Hq. apply elem_of_app in Hq as [Hq | Hq].
        -- apply (Hacc g0); [by left|done].
        -- by apply list_elem_of_singleton in Hq as ->.
      * apply (Hacc g); [by right|done].
    + apply elem_of_cons in Hg as [-> | Hg].
      * apply (Hacc g0); [by left|done].
      * apply (IH Hp) with g; [|done|done].
        intros g' Hg' q' Hq'. apply (Hacc g'); [by right|done].
Qed.

Lemma group_all_members (all : list RentPayment) g p :
  g ∈ group_all all -> p ∈ g_payments g -> p ∈ all.
Proof.
  unfold group_all.
  assert (forall l acc,
            (forall q, q ∈ l -> q ∈ all) ->
            (forall g, g ∈ acc -> forall q, q ∈ g_payments g -> q ∈ all) ->
            forall g, g ∈ fold_left (fun grouped p => group_push p grouped) l acc ->
                      forall q, q ∈ g_payments g -> q ∈ all) as H.
  { induction l as [|x l IH]; intros acc Hl Hacc; cbn; [done|].
    apply IH.
    - intros q Hq. apply Hl. by right.
    - apply group_push_members; [|done]. apply Hl. by left. }
  intros Hg Hp. apply (H all [] (fun q Hq => Hq)) with g; [|done|done].
  intros g' Hg'. by apply elem_of_nil in Hg'.
Qed.

Lemma filter_map_others u (f : RentPayment -> RentPayment) : forall rows,
  (forall r, r ∈ rows ->
     (rp_userId r <> u -> f r = r) /\ (rp_userId r = u -> rp_userId (f r) = u)) ->
  filter (fun r => rp_userId r <> u) (map f rows) =
  filter (fun r => rp_userId r <> u) rows.
Proof.
  induction rows as [|r rows IH]; intros H; [done|].
  cbn [map]. rewrite !filter_cons, IH.
  2: { intros r' Hr'. apply H. by right. }
  destruct (H r) as [Ho Hu]; [by left|].
  destruct (decide (rp_userId r <> u)) as [Hne|Heq].
  - rewrite (Ho Hne). by destruct (decide (rp_userId r <> u)).
  - apply dec_stable in Heq. specialize (Hu Heq).
    by destruct (decide (rp_userId (f r) <> u)).
Qed.

Lemma recalculating_update u s0 all p pending status :
  p ∈ all ->
  preserves (recalculating u s0 all)
    (statement faults (fun s =>
       set_rentPayments
         (update_where_id (rp_id p) (set_pending pending status) (rentPayments s)) s)).
Proof.
  intros Hp. apply preserves_statement.
  intros s [(Ht & Hr & Hid) Hall]. unfold set_rentPayments.
  split; [split; [done|split]|]; cbn [rentPayments table].
  - rewrite <- Hr. unfold update_where_id. apply filter_map_others.
    intros r Hr'. split.
    + intros Hne. destruct (rp_id r =? rp_id p)%positive eqn:E; [|done].
      apply Pos.eqb_eq in E. destruct (Hall p Hp) as (r0 & Hr0 & Hid0 & Hu0).
      rewrite <- Hid0 in E.
      by rewrite (unique_ids_eq _ r r0 Hid Hr' Hr0 E) in Hne.
    + intros Hu. by destruct (rp_id r =? rp_id p)%positive.
  - unfold unique_ids, update_where_id in *. rewrite map_map.
    erewrite map_ext; [exact Hid|].
    intros r. cbn. by destruct (rp_id r =? rp_id p)%positive.
  - intros q Hq. destruct (Hall q Hq) as (r & Hr' & Hidr & Hur).
    exists (if (rp_id r =? rp_id p)%positive
            then set_pending pending status r else r).
    split; [|by destruct (rp_id r =? rp_id p)%positive].
    unfold update_where_id. apply list_elem_of_fmap. by exists r.
Qed.

Lemma others_kept_recalculate u s0 :
  preserves (others_kept u s0) (recalculateAllPendingRents_db faults u).
Proof.
  unfold recalculateAllPendingRents_db. apply preserves_query_bind.
  intros s t H.
  set (all := filter (fun p => rp_userId p = u) (rentPayments s)).
  assert (recalculating u s0 all s) as Hrec.
  { split; [done|]. intros p Hp. exists p.
    apply list_elem_of_filter in Hp as [Hu Hp]. by repeat split. }
  eapply (preserves_for_each (recalculating u s0 all) _ (group_all all)
            _ (mkWorld s t) Hrec).
Unshelve.
  intros g Hg. apply preserves_for_each. intros p Hp.
  apply recalculating_update. by eapply group_all_members.
Qed.

Lemma others_kept_import u s0 doc :
  preserves (others_kept u s0) (importBackupData faults u doc).
Proof.
  unfold importBackupData. apply preserves_bind.
  { apply preserves_for_each. intros T _. apply others_kept_insert_rows. }
  intros _. apply preserves_bind; [apply others_kept_insert_rents|].
  intros _. apply preserves_bind; [apply others_kept_recalculate|].
  intros _. unfold resetAllSequences. apply preserves_for_each.
  intros n _. apply preserves_try_catch.
  - by apply preserves_statement.
  - intros e. apply preserves_ret.
Qed.

Lemma others_kept_attempt u s0 doc :
  preserves (others_kept u s0) (attempt faults u doc).
Proof.
  unfold attempt. apply preserves_bind.
  { destruct (validateBackupData doc); [apply preserves_throw|apply preserves_ret]. }
  intros _. apply preserves_bind; [apply others_kept_deleteAllUserData|].
  intros _. apply others_kept_import.
Qed.

(** *** The export and the way back *)

Lemma getFullBackup_ok u w stash w0 :
  getFullBackup faults u w = Ok stash w0 ->
  store w0 = store w /\
  (forall T, doc_table stash T =
             Some (map as_doc (filter (fun r => row_userId r = u) (table (store w) T)))) /\
  doc_rentPayments stash =
    Some (map as_doc (filter (fun r => rp_userId r = u) (rentPayments (store w)))).
Proof.
  unfold getFullBackup, export_table, bind, query, ret.
  repeat (match goal with
          | |- context [faults ?n] => destruct (faults n); [done|cbn]
          end).
  intros [= <- <-]. cbn. repeat split. intros T. by destruct T.
Qed.

Lemma imported_rows_own u (l : list Row) :
  imported_rows u (map as_doc (filter (fun r => row_userId r = u) l)) =
  filter (fun r => row_userId r = u) l.
Proof.
  unfold imported_rows. rewrite map_map. cbn.
  induction l as [|r l IH]; [done|]. rewrite filter_cons.
  destruct (decide (row_userId r = u)) as [<-|]; [|done].
  cbn. rewrite IH. by destruct r.
Qed.

Lemma imported_rents_own u (l : list RentPayment) :
  imported_rents u (map as_doc (filter (fun r => rp_userId r = u) l)) =
  filter (fun r => rp_userId r = u) l.
Proof.
  unfold imported_rents. rewrite map_map. cbn.
  induction l as [|r l IH]; [done|]. rewrite filter_cons.
  destruct (decide (rp_userId r = u)) as [<-|]; [|done].
  cbn. rewrite IH. by destruct r.
Qed.

Lemma regrouped_perm {A} (P : A -> Prop) `{!forall x, Decision (P x)} (l : list A) :
  filter (fun x => ~ P x) l ++ filter P l ≡ₚ l.
Proof. rewrite (comm (++)). apply filter_app_complement. Qed.

(** The compensating action, when the datastore lets it through: every
    table holds the rows of the other users followed by the exported rows
    of the user, the rent table after a recalculation pass. *)
Lemma restore_previous_returns u s0 stash w1 :
  store_ok s0 ->
  (forall T, doc_table stash T =
             Some (map as_doc (filter (fun r => row_userId r = u) (table s0 T)))) ->
  doc_rentPayments stash =
    Some (map as_doc (filter (fun r => rp_userId r = u) (rentPayments s0))) ->
  others_kept u s0 (store w1) ->
  quiet_from faults (sent w1) ->
  exists w2,
    returns (restore_previous faults u stash) w1 w2 /\
    (forall T, table (store w2) T =
               filter (fun r => row_userId r <> u) (table s0 T)
               ++ filter (fun r => row_userId r = u) (table s0 T)) /\
    rentPayments (store w2) =
      recalculateAllPendingRents u
        (filter (fun r => rp_userId r <> u) (rentPayments s0)
         ++ filter (fun r => rp_userId r = u) (rentPayments s0)) /\
    tenantShops (store w2) = [].
Proof.
  intros [Hok Hokr] Hst Hsr (Hot & Hor & _) Hq.
  destruct (deleteAllUserData_returns u w1 Hq) as (wa & Hra & Hta & Hrpa & Htsa).
  assert (quiet_from faults (sent wa)) as Hqa by (eapply quiet_from_le; [exact Hq|apply Hra]).
  destruct (insert_loop_returns u stash
              [Accounts; Categories; Buildings; Tenants; Shops; Transactions; Transfers]
              wa) as (wb & Hrb & Htb & Hrpb & Htsb); [|done| |].
  { apply (bool_decide_unpack _). by vm_compute. }
  { intros T _. rewrite Hta, Hot, Hst. cbn [rows_of]. rewrite imported_rows_own.
    rewrite (regrouped_perm (fun r => row_userId r = u)). apply Hok. }
  assert (quiet_from faults (sent wb)) as Hqb by (eapply quiet_from_le; [exact Hqa|apply Hrb]).
  destruct (insert_rents_returns u stash wb Hqb) as (wc & Hrc & Htc & Hrpc & Htsc).
  { rewrite Hrpb, Hrpa, Hor, Hsr. cbn [rows_of]. rewrite imported_rents_own.
    rewrite (regrouped_perm (fun r => rp_userId r = u)). apply Hokr. }
  assert (quiet_from faults (sent wc)) as Hqc by (eapply quiet_from_le; [exact Hqb|apply Hrc]).
  destruct (recalculate_returns u wc Hqc) as (wd & Hrd & Htd & Hrpd & Htsd).
  assert (quiet_from faults (sent wd)) as Hqd by (eapply quiet_from_le; [exact Hqc|apply Hrd]).
  destruct (resetAllSequences_returns wd Hqd) as (we & Hre & Hse).
  exists we. split.
  { unfold restore_previous, importBackupData.
    eapply returns_bind; [exact Hra|]. eapply returns_bind; [exact Hrb|].
    eapply returns_bind; [exact Hrc|]. eapply returns_bind; [exact Hrd|exact Hre]. }
  rewrite Hse. split; [|split].
  - intros T. rewrite Htd, Htc, Htb, Hta, Hot, Hst. cbn [rows_of].
    rewrite imported_rows_own. by destruct T.
  - rewrite Hrpd, Hrpc, Hrpb, Hrpa, Hor, Hsr. cbn [rows_of].
    by rewrite imported_rents_own.
  - by rewrite Htsd, Htsc, Htsb.
Qed.

Lemma filter_filter_not {A} (P : A -> Prop) `{!forall x, Decision (P x)} (l : list A) :
  filter P (filter (fun x => ~ P x) l) = [].
Proof.
  induction l as [|x l IH]; [done|]. rewrite filter_cons.
  destruct (decide (~ P x)) as [Hn|_]; [|done].
  rewrite filter_cons. by destruct (decide (P x)).
Qed.

Lemma filter_not_filter {A} (P : A -> Prop) `{!forall x, Decision (P x)} (l : list A) :
  filter (fun x => ~ P x) (filter P l) = [].
Proof.
  induction l as [|x l IH]; [done|]. rewrite filter_cons.
  destruct (decide (P x)) as [Hp|_]; [|done].
  rewrite filter_cons. by destruct (decide (~ P x)).
Qed.

Lemma regrouped_own {A} (P : A -> Prop) `{!forall x, Decision (P x)} (l : list A) :
  filter P (filter (fun x => ~ P x) l ++ filter P l) = filter P l.
Proof. by rewrite filter_app, filter_filter_not, filter_twice. Qed.

Lemma regrouped_others {A} (P : A -> Prop) `{!forall x, Decision (P x)} (l : list A) :
  filter (fun x => ~ P x) (filter (fun x => ~ P x) l ++ filter P l) =
  filter (fun x => ~ P x) l.
Proof. by rewrite filter_app, filter_not_filter, filter_twice, app_nil_r. Qed.

Lemma recalculated_ledger_ok r : ledger_ok r -> recalculated r = r.
Proof.
  intros [Hp Hs]. unfold recalculated, set_pending, set_paid.
  rewrite <- Hp, <- Hs. by destruct r.
Qed.

(** A recalculation pass changes nothing in a rent table whose rows, for
    the user, satisfy the ledger invariant, one row for each period. *)
Lemma recalculate_settled u rows :
  unique_ids rows ->
  NoDup (map group_key (filter (fun p => rp_userId p = u) rows)) ->
  Forall ledger_ok (filter (fun p => rp_userId p = u) rows) ->
  recalculateAllPendingRents u rows = rows.
Proof.
  intros Hids Hkeys Hok. rewrite recalculate_unique_periods by done.
  rewrite <- (map_id rows) at 2. apply map_ext_in. intros r Hr.
  apply list_elem_of_In in Hr.
  destruct (decide (rp_userId r = u)) as [Hu|]; [|done].
  apply recalculated_ledger_ok.
  apply (proj1 (Forall_forall _ _) Hok). by apply list_elem_of_filter.
Qed.

Lemma import_handler_rolled_back u doc w stash w0 e w1 w2 :
  getFullBackup faults u w = Ok stash w0 ->
  attempt faults u doc w0 = Throw e w1 ->
  restore_previous faults u stash w1 = Ok tt w2 ->
  import_handler faults u doc w =
  Ok (mkResponse 400 "Import failed, previous data has been restored"
        (Some (message e)) None) w2.
Proof.
  intros Hs Ha Hr. unfold import_handler, try_catch, bind.
  by rewrite Hs, Ha, Hr.
Qed.

Lemma import_handler_both_failed u doc w stash w0 e w1 e' w2 :
  getFullBackup faults u w = Ok stash w0 ->
  attempt faults u doc w0 = Throw e w1 ->
  restore_previous faults u stash w1 = Throw e' w2 ->
  message e' <> "" ->
  import_handler faults u doc w =
  Ok (mkResponse 400
        "Import failed and data restoration failed. Please contact support."
        (Some (message e)) (Some (message e'))) w2.
Proof.
  intros Hs Ha Hr Hmsg. unfold import_handler, try_catch, bind.
  rewrite Hs, Ha, Hr. cbn. apply String.eqb_neq in Hmsg. by rewrite Hmsg.
Qed.

(** C9, amended.  The handler exports the data of the user before
    anything is wiped.  When validation, the wipe or the insertion then
    fails, it wipes the data of the user again and re-imports the export.
    If nothing disturbs that, it answers that the previous data has been
    restored, together with the error of the import, and then: every table
    holds the rows of the user and the rows of the other users that it
    held before, under their identifiers; the rent table is the one a
    recalculation pass makes of them, and is the original one when the
    rent ledger of the user satisfied the invariant with one row for each
    period.  When the re-import itself throws an error with a message, the
    answer carries the error of the import and the error of the rollback
    in two distinct fields.  Primary keys are unique in every table. *)
Theorem restore_all_or_nothing (u : positive) (doc : Document) (w : World) :
  (forall stash w0,
      getFullBackup faults u w = Ok stash w0 ->
      store w0 = store w /\
      (forall T, doc_table stash T =
                 Some (map as_doc (filter (fun r => row_userId r = u)
                                     (table (store w) T)))) /\
      doc_rentPayments stash =
        Some (map as_doc (filter (fun r => rp_userId r = u)
                            (rentPayments (store w))))) /\
  (forall stash w0 e w1,
      store_ok (store w) ->
      getFullBackup faults u w = Ok stash w0 ->
      attempt faults u doc w0 = Throw e w1 ->
      quiet_from faults (sent w1) ->
      exists w2,
        restore_previous faults u stash w1 = Ok tt w2 /\
        import_handler faults u doc w =
          Ok (mkResponse 400 "Import failed, previous data has been restored"
                (Some (message e)) None) w2 /\
        (forall T,
            filter (fun r => row_userId r = u) (table (store w2) T) =
              filter (fun r => row_userId r = u) (table (store w) T) /\
            filter (fun r => row_userId r <> u) (table (store w2) T) =
              filter (fun r => row_userId r <> u) (table (store w) T)) /\
        rentPayments (store w2) =
          recalculateAllPendingRents u
            (filter (fun r => rp_userId r <> u) (rentPayments (store w))
             ++ filter (fun r => rp_userId r = u) (rentPayments (store w))) /\
        (Forall ledger_ok
           (filter (fun r => rp_userId r = u) (rentPayments (store w))) ->
         NoDup (map group_key
                  (filter (fun r => rp_userId r = u) (rentPayments (store w)))) ->
         filter (fun r => rp_userId r = u) (rentPayments (store w2)) =
           filter (fun r => rp_userId r = u) (rentPayments (store w)) /\
         filter (fun r => rp_userId r <> u) (rentPayments (store w2)) =
           filter (fun r => rp_userId r <> u) (rentPayments (store w)))) /\
  (forall stash w0 e w1 e' w2,
      getFullBackup faults u w = Ok stash w0 ->
      attempt faults u doc w0 = Throw e w1 ->
      restore_previous faults u stash w1 = Throw e' w2 ->
      message e' <> "" ->
      import_handler faults u doc w =
        Ok (mkResponse 400
              "Import failed and data restoration failed. Please contact support."
              (Some (message e)) (Some (message e'))) w2).
Proof.
  split; [intros stash w0; apply getFullBackup_ok|].
  split; [|intros stash w0 e w1 e' w2; apply import_handler_both_failed].
  intros stash w0 e w1 Hok Hs Ha Hq.
  destruct (getFullBackup_ok _ _ _ _ Hs) as (Hs0 & Hst & Hsr).
  assert (others_kept u (store w) (store w1)) as Hkept.
  { pose proof (others_kept_attempt u (store w) doc w0) as H.
    rewrite Ha in H. apply H. rewrite Hs0. by destruct Hok. }
  destruct (restore_previous_returns u (store w) stash w1 Hok Hst Hsr Hkept Hq)
    as (w2 & [Hr _] & Ht & Hrp & _).
  exists w2. split; [exact Hr|].
  split; [by eapply import_handler_rolled_back|].
  split; [|split; [exact Hrp|]].
  - intros T. rewrite Ht. split.
    + apply (regrouped_own (fun r => row_userId r = u)).
    + apply (regrouped_others (fun r => row_userId r = u)).
  - intros Hledger Hkeys. rewrite Hrp.
    rewrite recalculate_settled.
    + split.
      * apply (regrouped_own (fun r => rp_userId r = u)).
      * apply (regrouped_others (fun r => rp_userId r = u)).
    + unfold unique_ids.
      rewrite (regrouped_perm (fun r => rp_userId r = u)). apply Hok.
    + by rewrite (regrouped_own (fun r => rp_userId r = u)).
    + by rewrite (regrouped_own (fun r => rp_userId r = u)).
Qed.

End BackupFacts.

Section RestoreScenario.
Import Rent Reconciler Backup.

(** C9, as the claim states it, fails on the rent ledger: the insert of
    the uploaded accounts is rejected (statement 18: nine reads, nine
    deletes, then the insert), the handler answers that the previous data
    has been restored, and the rent period of the user, stored with a
    pending amount of zero and the status "paid", comes back with 4000.00
    pending and the status "pending". *)
Lemma restore_rewrites_rent_ledger :
  exists w2,
    import_handler (fails_at 18) 1 scenarioE_doc (mkWorld (scenarioE_store 0 "paid") 0)
      = Ok (mkResponse 400 "Import failed, previous data has been restored"
              (Some "connection lost") None) w2 /\
    rentPayments (scenarioE_store 0 "paid") =
      [mkRent 1 1 7 1 1 2024 1000000 600000 0 "paid" None None] /\
    rentPayments (store w2) =
      [mkRent 1 1 7 1 1 2024 1000000 600000 400000 "pending" None None] /\
    rentPayments (store w2) <> rentPayments (scenarioE_store 0 "paid").
Proof.
  eexists. split; [vm_compute; reflexivity|]. cbn.
  split; [reflexivity|]. split; [reflexivity|]. discriminate.
Qed.

Lemma scenarioE_store_ok pending status : store_ok (scenarioE_store pending status).
Proof.
  split.
  - intros T. destruct T; cbn; apply (bool_decide_unpack _); by vm_compute.
  - unfold unique_ids. cbn. apply (bool_decide_unpack _). by vm_compute.
Qed.

Lemma fails_at_quiet k t : (k < t)%nat -> quiet_from (fails_at k) t.
Proof.
  intros Hlt n Hn. unfold fails_at.
  destruct (Nat.eqb_spec n k); [lia|done].
Qed.

(** Scenario E: the same failed import over a settled ledger; everything
    is back, and the error of the import is reported. *)
Lemma restore_all_or_nothing_witness :
  exists w2,
    import_handler (fails_at 18) 1 scenarioE_doc
      (mkWorld (scenarioE_store 400000 "pending") 0)
      = Ok (mkResponse 400 "Import failed, previous data has been restored"
              (Some "connection lost") None) w2 /\
    (forall T,
        filter (fun r => row_userId r = 1%positive) (table (store w2) T) =
          filter (fun r => row_userId r = 1%positive)
            (table (scenarioE_store 400000 "pending") T)) /\
    filter (fun r => rp_userId r = 1%positive) (rentPayments (store w2)) =
      rentPayments (scenarioE_store 400000 "pending").
Proof.
  edestruct (proj1 (proj2 (restore_all_or_nothing (fails_at 18) 1 scenarioE_doc
                             (mkWorld (scenarioE_store 400000 "pending") 0))))
    as (w2 & _ & Hh & Ht & _ & Hrp).
  - apply scenarioE_store_ok.
  - vm_compute. reflexivity.
  - vm_compute. reflexivity.
  - apply fails_at_quiet. simpl. lia.
  - exists w2. split; [exact Hh|]. split.
    + intros T. apply Ht.
    + apply Hrp.
      * repeat constructor; vm_compute; reflexivity.
      * apply (bool_decide_unpack _). by vm_compute.
Defined.

End RestoreScenario.

(** ** The books of the bank *)

Section BooksFacts.
Import Balance Books.

Lemma sum_of_insert {A} (f : A -> Z) (m : gmap positive A) (i : positive) (a : A) :
  m !! i = None -> sum_of f (<[i := a]> m) = f a + sum_of f m.
Proof.
  intros Hi. unfold sum_of. rewrite map_fold_insert_L; [done| |done].
  intros; lia.
Qed.

Lemma sum_of_delete {A} (f : A -> Z) (m : gmap positive A) (i : positive) (a : A) :
  m !! i = Some a -> sum_of f (delete i m) = sum_of f m - f a.
Proof.
  intros Hi. unfold sum_of.
  rewrite (map_fold_delete_L _ _ i a m); [lia| |done].
  intros; lia.
Qed.

Lemma sum_of_zero {A} (f : A -> Z) (m : gmap positive A) :
  (forall i a, m !! i = Some a -> f a = 0) -> sum_of f m = 0.
Proof.
  induction m as [|i a m Hi IH] using map_ind; intros Hz.
  - apply map_fold_empty.
  - rewrite sum_of_insert by done.
    rewrite (Hz i a) by apply lookup_insert_eq.
    rewrite IH; [done|]. intros j c Hj. apply (Hz j).
    rewrite lookup_insert_ne; [done|]. intros ->. congruence.
Qed.

Lemma shifted_credit (m : gmap positive BankAccount) (i : positive)
    (a : BankAccount) (delta : Z) :
  m !! i = Some a ->
  shifted (fun j => if decide (j = i) then delta else 0) m
    (<[i := set_currentBalance (currentBalance a + delta) a]> m).
Proof.
  intros Hi j. unfold translate. destruct (decide (j = i)) as [->|Hne].
  - by rewrite lookup_insert_eq, Hi.
  - rewrite lookup_insert_ne by done.
    destruct (m !! j) as [c|]; [|done]. cbn.
    by rewrite Z.add_0_r, set_currentBalance_same.
Qed.

Lemma shifted_transfer (m : gmap positive BankAccount) (a c : positive) (x : Z)
    (accF accT : BankAccount) :
  m !! a = Some accF -> m !! c = Some accT -> a <> c ->
  shifted (transfer_shift a c x) m
    (set_balance c (currentBalance accT + x)
       (set_balance a (currentBalance accF - x) m)).
Proof.
  intros HF HT Hne j. rewrite !lookup_set_balance. unfold translate, transfer_shift.
  destruct (decide (c = j)) as [<-|Hc].
  - destruct (decide (a = c)); [done|]. rewrite HT; cbn.
    destruct (decide (c = a)); [congruence|].
    destruct (decide (c = c)); [|done]. do 2 f_equal.
  - destruct (decide (a = j)) as [<-|Ha].
    + rewrite HF; cbn. destruct (decide (a = a)); [|done].
      destruct (decide (a = c)); [done|]. do 2 f_equal. lia.
    + destruct (decide (j = a)); [congruence|].
      destruct (decide (j = c)); [congruence|].
      destruct (m !! j) as [acc|]; [|done]. cbn.
      by rewrite Z.add_0_r, set_currentBalance_same.
Qed.

Lemma shifted_is_Some d (m m' : gmap positive BankAccount) (j : positive) :
  shifted d m m' -> is_Some (m !! j) -> is_Some (m' !! j).
Proof. intros H [a Ha]. rewrite H, Ha. by eexists. Qed.

(** The books stay balanced when the balances are translated by what the
    new or vanished row contributes. *)
Lemma balanced_shifted (b b' : Bank) (d : positive -> Z) :
  balanced b ->
  shifted d (bankAccounts b) (bankAccounts b') ->
  (forall j, flow b' j = flow b j + d j) ->
  (forall i t a, transactions b' !! i = Some t -> tx_accountId t = Some a ->
                 is_Some (bankAccounts b !! a)) ->
  (forall i tr, transfers b' !! i = Some tr ->
                is_Some (bankAccounts b !! fromAccountId tr) /\
                is_Some (bankAccounts b !! toAccountId tr) /\
                fromAccountId tr <> toAccountId tr) ->
  (forall i, is_Some (transactions b' !! i) -> (i < transactions_seq b')%positive) ->
  (forall i, is_Some (transfers b' !! i) -> (i < transfers_seq b')%positive) ->
  balanced b'.
Proof.
  intros HB Hsh Hflow Htx Htr Hs1 Hs2. constructor; [| | |done|done].
  - intros id a' Ha'. rewrite Hsh in Ha'.
    destruct (bankAccounts b !! id) as [a|] eqn:Ha; [|done].
    injection Ha' as <-. rewrite Hflow.
    pose proof (bal_accounts b HB id a Ha) as Hbal.
    unfold translate. destruct a; cbn in *. lia.
  - intros i t a Hi Ha. eapply shifted_is_Some; [done|]. by eapply Htx.
  - intros i tr Hi. destruct (Htr i tr Hi) as (HF & HT & Hne).
    repeat split; [| |done]; by eapply shifted_is_Some.
Qed.

Lemma transactions_seq_fresh (b : Bank) :
  balanced b -> transactions b !! transactions_seq b = None.
Proof.
  intros HB. destruct (transactions b !! transactions_seq b) eqn:E; [|done].
  pose proof (bal_transactions_seq b HB (transactions_seq b)) as H.
  rewrite E in H. specialize (H (mk_is_Some _ _ eq_refl)). lia.
Qed.

Lemma transfers_seq_fresh (b : Bank) :
  balanced b -> transfers b !! transfers_seq b = None.
Proof.
  intros HB. destruct (transfers b !! transfers_seq b) eqn:E; [|done].
  pose proof (bal_transfers_seq b HB (transfers_seq b)) as H.
  rewrite E in H. specialize (H (mk_is_Some _ _ eq_refl)). lia.
Qed.

Lemma moved_transfer_shift (j : positive) (tr : Transfer) :
  moved j tr = transfer_shift (fromAccountId tr) (toAccountId tr) (tr_amount tr) j.
Proof.
  unfold moved, transfer_shift.
  destruct (decide (toAccountId tr = j)), (decide (j = toAccountId tr));
    try congruence;
    destruct (decide (fromAccountId tr = j)), (decide (j = fromAccountId tr));
    try congruence; lia.
Qed.

Lemma balanced_createTransaction (b : Bank) (ins : Transaction) :
  balanced b -> balanced (final (createTransaction ins b)).
Proof.
  intros HB.
  destruct (tx_accountId ins) as [id|] eqn:Hid.
  2: { unfold createTransaction. erewrite db_transaction_throw; [done|].
       apply createTransaction_not_found. by rewrite Hid. }
  destruct (bankAccounts b !! id) as [acc|] eqn:Hacc.
  2: { unfold createTransaction. erewrite db_transaction_throw; [done|].
       apply createTransaction_not_found. by rewrite Hid. }
  destruct (decide (tx_type ins = "income" \/ tx_type ins = "expense")) as [Hty|Hty].
  2: { unfold createTransaction. erewrite db_transaction_throw; [done|].
       eapply createTransaction_invalid_type; eauto. }
  rewrite (createTransaction_ok b ins id acc Hid Hacc Hty). cbn [final].
  set (delta := signed_amount (tx_type ins) (tx_amount ins)).
  pose proof (transactions_seq_fresh b HB) as Hfresh.
  apply (balanced_shifted b _ (fun j => if decide (j = id) then delta else 0) HB);
    cbn [credited bankAccounts transactions transfers transactions_seq transfers_seq].
  - by apply shifted_credit.
  - intros j. unfold flow; cbn. rewrite sum_of_insert by done.
    unfold posted. rewrite Hid.
    destruct (decide (j = id)) as [->|Hne].
    + destruct (decide (Some id = Some id)); [fold delta; lia|done].
    + destruct (decide (Some id = Some j)); [congruence|lia].
  - intros i t a Hi Ha. destruct (decide (i = transactions_seq b)) as [->|Hne].
    + rewrite lookup_insert_eq in Hi. injection Hi as <-.
      rewrite Hid in Ha. injection Ha as <-. by rewrite Hacc.
    + rewrite lookup_insert_ne in Hi by done. by eapply bal_transactions.
  - by apply bal_transfers.
  - intros i Hi. apply lookup_insert_is_Some' in Hi as [<-|Hi]; [lia|].
    pose proof (bal_transactions_seq b HB i Hi). lia.
  - by apply bal_transfers_seq.
Qed.

Lemma balanced_deleteTransaction (b : Bank) (id : positive) :
  balanced b -> balanced (final (deleteTransaction id b)).
Proof.
  intros HB.
  destruct (transactions b !! id) as [t|] eqn:Ht.
  2: { unfold deleteTransaction. erewrite db_transaction_throw; [done|].
       by apply deleteTransaction_missing. }
  destruct (tx_accountId t) as [a|] eqn:Ha.
  2: { unfold deleteTransaction. erewrite db_transaction_throw; [done|].
       by eapply deleteTransaction_without_account. }
  destruct (bal_transactions b HB id t a Ht Ha) as [acc Hacc].
  rewrite (deleteTransaction_ok b id a t acc Ht Ha Hacc). cbn [final].
  set (delta := signed_amount (tx_type t) (tx_amount t)).
  apply (balanced_shifted b _ (fun j => if decide (j = a) then - delta else 0) HB);
    cbn [bankAccounts transactions transfers transactions_seq transfers_seq].
  - rewrite <- Z.add_opp_r. by apply shifted_credit.
  - intros j. unfold flow; cbn. rewrite (sum_of_delete _ _ id t) by done.
    unfold posted. rewrite Ha.
    destruct (decide (j = a)) as [->|Hne].
    + destruct (decide (Some a = Some a)); [fold delta; lia|done].
    + destruct (decide (Some a = Some j)); [congruence|lia].
  - intros i t' a' Hi. apply lookup_delete_Some in Hi as [_ Hi].
    by eapply bal_transactions.
  - by apply bal_transfers.
  - intros i [t' Hi]. apply lookup_delete_Some in Hi as [_ Hi].
    apply (bal_transactions_seq b HB). by eexists.
  - by apply bal_transfers_seq.
Qed.

Lemma balanced_createTransfer (b : Bank) (ins : Transfer) :
  fromAccountId ins <> toAccountId ins ->
  balanced b -> balanced (final (createTransfer ins b)).
Proof.
  intros Hne HB.
  destruct (bankAccounts b !! fromAccountId ins) as [accF|] eqn:HF.
  2: { unfold createTransfer. erewrite db_transaction_throw; [done|].
       apply createTransfer_accounts_missing. by left. }
  destruct (bankAccounts b !! toAccountId ins) as [accT|] eqn:HT.
  2: { unfold createTransfer. erewrite db_transaction_throw; [done|].
       apply createTransfer_accounts_missing. by right. }
  destruct (decide (currentBalance accF < tr_amount ins)) as [Hlt|Hge].
  { unfold createTransfer. erewrite db_transaction_throw; [done|].
    by eapply createTransfer_insufficient. }
  rewrite (createTransfer_ok b ins accF accT HF HT) by lia. cbn [final].
  pose proof (transfers_seq_fresh b HB) as Hfresh.
  apply (balanced_shifted b _
           (transfer_shift (fromAccountId ins) (toAccountId ins) (tr_amount ins)) HB);
    cbn [bankAccounts transactions transfers transactions_seq transfers_seq].
  - by apply shifted_transfer.
  - intros j. unfold flow; cbn. rewrite sum_of_insert by done.
    rewrite moved_transfer_shift. lia.
  - by apply bal_transactions.
  - intros i tr Hi. destruct (decide (i = transfers_seq b)) as [->|Hi'].
    + rewrite lookup_insert_eq in Hi. injection Hi as <-.
      by rewrite HF, HT.
    + rewrite lookup_insert_ne in Hi by done. by eapply bal_transfers.
  - by apply bal_transactions_seq.
  - intros i Hi. apply lookup_insert_is_Some' in Hi as [<-|Hi]; [lia|].
    pose proof (bal_transfers_seq b HB i Hi). lia.
Qed.

Lemma deleteTransfer_ok (b : Bank) (id userId : positive) (tr : Transfer)
    (accF accT : BankAccount) :
  transfers b !! id = Some tr ->
  tr_userId tr = userId ->
  bankAccounts b !! fromAccountId tr = Some accF ->
  bankAccounts b !! toAccountId tr = Some accT ->
  deleteTransfer id userId b =
  Ok tt {| bankAccounts :=
             set_balance (toAccountId tr) (currentBalance accT - tr_amount tr)
               (set_balance (fromAccountId tr) (currentBalance accF + tr_amount tr)
                  (bankAccounts b));
           transactions := transactions b;
           transactions_seq := transactions_seq b;
           transfers := delete id (transfers b);
           transfers_seq := transfers_seq b |}.
Proof.
  intros Htr <- HF HT. unfold deleteTransfer, bind, select_account, gets.
  rewrite Htr, Pos.eqb_refl. cbn. by rewrite HF, HT.
Qed.

Lemma deleteTransfer_refused (b : Bank) (id userId : positive) :
  match transfers b !! id with
  | Some tr => tr_userId tr <> userId
  | None => True
  end ->
  final (deleteTransfer id userId b) = b.
Proof.
  unfold deleteTransfer, bind, gets.
  destruct (transfers b !! id) as [tr|]; [|done].
  intros Hne. apply Pos.eqb_neq in Hne. by rewrite Hne.
Qed.

Lemma balanced_deleteTransfer (b : Bank) (id userId : positive) :
  balanced b -> balanced (final (deleteTransfer id userId b)).
Proof.
  intros HB.
  destruct (transfers b !! id) as [tr|] eqn:Htr.
  2: { rewrite deleteTransfer_refused; [done|]. by rewrite Htr. }
  destruct (decide (tr_userId tr = userId)) as [Hu|Hu].
  2: { rewrite deleteTransfer_refused; [done|]. by rewrite Htr. }
  destruct (bal_transfers b HB id tr Htr) as ([accF HF] & [accT HT] & Hne).
  rewrite (deleteTransfer_ok b id userId tr accF accT Htr Hu HF HT). cbn [final].
  apply (balanced_shifted b _
           (transfer_shift (fromAccountId tr) (toAccountId tr) (- tr_amount tr)) HB);
    cbn [bankAccounts transactions transfers transactions_seq transfers_seq].
  - replace (currentBalance accT - tr_amount tr)
      with (currentBalance accT + - tr_amount tr) by lia.
    replace (currentBalance accF + tr_amount tr)
      with (currentBalance accF - - tr_amount tr) by lia.
    by apply shifted_transfer.
  - intros j. unfold flow; cbn. rewrite (sum_of_delete _ _ id tr) by done.
    rewrite moved_transfer_shift. unfold transfer_shift.
    destruct (decide (j = fromAccountId tr)), (decide (j = toAccountId tr)); lia.
  - by apply bal_transactions.
  - intros i tr' Hi. apply lookup_delete_Some in Hi as [_ Hi].
    by eapply bal_transfers.
  - by apply bal_transactions_seq.
  - intros i [tr' Hi]. apply lookup_delete_Some in Hi as [_ Hi].
    apply (bal_transfers_seq b HB). by eexists.
Qed.

Lemma flow_unreferenced (b : Bank) (id : positive) :
  unreferenced b id -> flow b id = 0.
Proof.
  intros [Htx Htr]. unfold flow.
  rewrite !sum_of_zero; [done| |].
  - intros i tr Hi. destruct (Htr i tr Hi) as [HF HT]. unfold moved.
    destruct (decide (toAccountId tr = id)); [done|].
    by destruct (decide (fromAccountId tr = id)).
  - intros i t Hi. unfold posted.
    destruct (decide (tx_accountId t = Some id)) as [Ha|]; [|done].
    by destruct (Htx i t Hi).
Qed.

Lemma balanced_unreferenced (b : Bank) (id : positive) :
  balanced b -> bankAccounts b !! id = None -> unreferenced b id.
Proof.
  intros HB Hid. split.
  - intros i t Hi Ha. destruct (bal_transactions b HB i t id Hi Ha) as [a Hsome].
    congruence.
  - intros i tr Hi. destruct (bal_transfers b HB i tr Hi) as ([a HF] & [c HT] & _).
    split; intros <-; congruence.
Qed.

Lemma balanced_createBankAccount (b : Bank) (id : positive)
    (insertAccount : InsertBankAccount) :
  balanced b -> balanced (final (createBankAccount id insertAccount b)).
Proof.
  intros HB. unfold createBankAccount.
  destruct (bankAccounts b !! id) as [a0|] eqn:Hid; [done|]. cbn [final].
  constructor; cbn [with_accounts bankAccounts transactions transfers
                      transactions_seq transfers_seq].
  - intros j a Hj. destruct (decide (j = id)) as [->|Hne].
    + rewrite lookup_insert_eq in Hj. injection Hj as <-. cbn.
      change (flow _ id) with (flow b id).
      rewrite flow_unreferenced; [lia|]. by apply balanced_unreferenced.
    + rewrite lookup_insert_ne in Hj by done.
      by apply (bal_accounts b HB).
  - intros i t a Hi Ha. apply lookup_insert_is_Some'. right.
    by eapply bal_transactions.
  - intros i tr Hi. destruct (bal_transfers b HB i tr Hi) as (HF & HT & Hne).
    repeat split; [| |done]; apply lookup_insert_is_Some'; by right.
  - by apply bal_transactions_seq.
  - by apply bal_transfers_seq.
Qed.

Lemma balanced_serve (req : Request) (b : Bank) :
  two_ended req -> balanced b -> balanced (serve req b).
Proof.
  intros Hreq HB. destruct req; cbn [serve].
  - by apply balanced_createBankAccount.
  - by apply balanced_createTransaction.
  - by apply balanced_deleteTransaction.
  - by apply balanced_createTransfer.
  - by apply balanced_deleteTransfer.
Qed.

(** X1.  Every account stands at its opening balance plus the incomes,
    minus the expenses posted to it, plus the transfers it received, minus
    those it sent: a bank whose books are balanced keeps them balanced
    through any series of account openings, transactions created and
    deleted, transfers between two different accounts and transfer
    deletions, whichever of the requests are refused. *)
Theorem books_stay_balanced (reqs : list Request) (b : Bank) :
  balanced b -> Forall two_ended reqs -> balanced (serveAll reqs b).
Proof.
  revert b. induction reqs as [|req reqs IH]; intros b HB Hreqs; [done|].
  apply Forall_cons in Hreqs as [Hreq Hreqs]. cbn.
  by apply IH; [apply balanced_serve|].
Qed.

Lemma balanced_scenarioD : balanced scenarioD_bank.
Proof.
  constructor; cbn.
  - intros id a Ha. unfold flow, sum_of; cbn. rewrite !map_fold_empty.
    apply lookup_insert_Some in Ha as [[<- <-]|[_ Ha]]; [done|].
    by apply lookup_singleton_Some in Ha as [<- <-].
  - intros i t a Hi. by rewrite lookup_empty in Hi.
  - intros i tr Hi. by rewrite lookup_empty in Hi.
  - intros i [t Hi]. by rewrite lookup_empty in Hi.
  - intros i [t Hi]. by rewrite lookup_empty in Hi.
Qed.

Lemma books_stay_balanced_witness : balanced (serveAll busy_day scenarioD_bank).
Proof.
  apply books_stay_balanced; [exact balanced_scenarioD|].
  unfold busy_day. repeat constructor. cbn. discriminate.
Defined.

Lemma sum_of_filter_zero {A} (f : A -> Z) (P : positive * A -> Prop)
    `{!forall x, Decision (P x)} (m : gmap positive A) :
  (forall i a, m !! i = Some a -> ~ P (i, a) -> f a = 0) ->
  sum_of f (filter P m) = sum_of f m.
Proof.
  induction m as [|i a m Hi IH] using map_ind; intros Hz.
  - by rewrite map_filter_empty.
  - assert (IH' : sum_of f (filter P m) = sum_of f m).
    { apply IH. intros j c Hj. apply Hz. rewrite lookup_insert_ne; [done|].
      intros ->. congruence. }
    rewrite map_filter_insert, sum_of_insert by done.
    destruct (decide (P (i, a))) as [HP|HP].
    + rewrite sum_of_insert; [by rewrite IH'|].
      apply map_lookup_filter_None. by left.
    + rewrite delete_id by done. rewrite IH'.
      rewrite (Hz i a); [lia|apply lookup_insert_eq|done].
Qed.

Lemma sum_of_split {A} (f : A -> Z) (P : positive * A -> Prop)
    `{!forall x, Decision (P x)} (m : gmap positive A) :
  sum_of f m = sum_of f (filter P m) + sum_of f (filter (fun x => ~ P x) m).
Proof.
  induction m as [|i a m Hi IH] using map_ind.
  - rewrite !map_filter_empty. unfold sum_of. by rewrite map_fold_empty.
  - rewrite !map_filter_insert, sum_of_insert by done.
    destruct (decide (P (i, a))) as [HP|HP].
    + destruct (decide (~ P (i, a))); [done|].
      rewrite delete_id by done.
      rewrite sum_of_insert; [lia|]. apply map_lookup_filter_None. by left.
    + destruct (decide (~ P (i, a))); [|done].
      rewrite delete_id by done.
      rewrite sum_of_insert; [lia|]. apply map_lookup_filter_None. by left.
Qed.

(** X2.  [deleteBankAccount] always goes through: the account is gone
    with its transactions and with every transfer from it or to it, so that
    no row refers to it any more, and every other account keeps its
    balance.  The other end of a deleted transfer is not adjusted: in
    books that were balanced, an account that remains stands above what
    its remaining rows add up to by exactly the transfers it had with the
    deleted account. *)
Theorem deleteBankAccount_cascade (b : Bank) (id : positive) :
  balanced b ->
  exists b',
    deleteBankAccount id b = Ok tt b' /\
    bankAccounts b' = delete id (bankAccounts b) /\
    unreferenced b' id /\
    forall j a,
      bankAccounts b' !! j = Some a ->
      currentBalance a =
      initialBalance a + flow b' j + sum_of (moved j) (dropped_transfers b id).
Proof.
  intros HB. eexists. split; [reflexivity|]. cbn. split; [done|]. split; [split|].
  - intros i t Hi. by apply map_lookup_filter_Some in Hi as [_ Hi].
  - intros i tr Hi. apply map_lookup_filter_Some in Hi as [_ Hi]. cbn in Hi.
    split; intros E; apply Hi; [by left|by right].
  - intros j a Hj. apply lookup_delete_Some in Hj as [Hne Hj].
    rewrite (bal_accounts b HB j a Hj). unfold flow, dropped_transfers; cbn.
    rewrite sum_of_filter_zero.
    + rewrite (sum_of_split (moved j)
                 (fun p => fromAccountId p.2 = id \/ toAccountId p.2 = id)
                 (transfers b)). lia.
    + intros i t Hi Ha. cbn in Ha. unfold posted.
      destruct (decide (tx_accountId t = Some j)) as [E|]; [|done].
      destruct (decide (tx_accountId t = Some id)) as [E'|E']; [congruence|done].
Qed.

Lemma balanced_scenarioD_transferred : balanced scenarioD_transferred.
Proof. apply balanced_serve; [cbn; discriminate|exact balanced_scenarioD]. Qed.

Lemma deleteBankAccount_cascade_witness :
  exists b',
    deleteBankAccount 1 scenarioD_transferred = Ok tt b' /\
    bankAccounts b' = delete 1%positive (bankAccounts scenarioD_transferred) /\
    unreferenced b' 1 /\
    forall j a,
      bankAccounts b' !! j = Some a ->
      currentBalance a =
      initialBalance a + flow b' j +
      sum_of (moved j) (dropped_transfers scenarioD_transferred 1).
Proof. exact (deleteBankAccount_cascade scenarioD_transferred 1 balanced_scenarioD_transferred). Defined.

Lemma over_accounts_insert g (m : gmap positive BankAccount) i a :
  m !! i = None -> over_accounts g (<[i := a]> m) = g i + over_accounts g m.
Proof.
  intros Hi. unfold over_accounts. rewrite map_fold_insert_L; [done| |done].
  intros; lia.
Qed.

Lemma over_accounts_ext g h (m : gmap positive BankAccount) :
  (forall i, is_Some (m !! i) -> g i = h i) -> over_accounts g m = over_accounts h m.
Proof.
  induction m as [|i a m Hi IH] using map_ind; intros Hext.
  - done.
  - rewrite !over_accounts_insert by done.
    rewrite (Hext i) by (rewrite lookup_insert_eq; by eexists).
    rewrite IH; [done|]. intros j Hj. apply Hext.
    rewrite lookup_insert_ne; [done|]. intros ->. rewrite Hi in Hj. by destruct Hj.
Qed.

Lemma over_accounts_zero (m : gmap positive BankAccount) :
  over_accounts (fun _ => 0) m = 0.
Proof.
  induction m as [|i a m Hi IH] using map_ind; [done|].
  rewrite over_accounts_insert by done. lia.
Qed.

Lemma over_accounts_add g h (m : gmap positive BankAccount) :
  over_accounts (fun i => g i + h i) m = over_accounts g m + over_accounts h m.
Proof.
  induction m as [|i a m Hi IH] using map_ind; [done|].
  rewrite !over_accounts_insert by done. lia.
Qed.

Lemma over_accounts_sub g h (m : gmap positive BankAccount) :
  over_accounts (fun i => g i - h i) m = over_accounts g m - over_accounts h m.
Proof.
  induction m as [|i a m Hi IH] using map_ind; [done|].
  rewrite !over_accounts_insert by done. lia.
Qed.

Lemma over_accounts_at (k : positive) (v : Z) (m : gmap positive BankAccount) :
  over_accounts (fun i => if decide (k = i) then v else 0) m =
  match m !! k with Some _ => v | None => 0 end.
Proof.
  induction m as [|i a m Hi IH] using map_ind; [done|].
  rewrite over_accounts_insert, IH by done.
  destruct (decide (k = i)) as [->|Hne].
  - by rewrite lookup_insert_eq, Hi, Z.add_0_r.
  - by rewrite lookup_insert_ne.
Qed.

Lemma over_accounts_sum_of {A} (f : positive -> A -> Z) (rows : gmap positive A)
    (m : gmap positive BankAccount) :
  over_accounts (fun i => sum_of (f i) rows) m =
  sum_of (fun x => over_accounts (fun i => f i x) m) rows.
Proof.
  induction rows as [|k x rows Hk IH] using map_ind.
  - unfold sum_of. rewrite map_fold_empty.
    erewrite over_accounts_ext; [apply over_accounts_zero|].
    intros i _. by rewrite map_fold_empty.
  - rewrite sum_of_insert by done. rewrite <- IH, <- over_accounts_add.
    apply over_accounts_ext. intros i _. by rewrite sum_of_insert.
Qed.

Lemma sum_of_ext {A} (f g : A -> Z) (m : gmap positive A) :
  (forall i a, m !! i = Some a -> f a = g a) -> sum_of f m = sum_of g m.
Proof.
  induction m as [|i a m Hi IH] using map_ind; intros Hext; [done|].
  rewrite !sum_of_insert by done.
  rewrite (Hext i a) by apply lookup_insert_eq.
  rewrite IH; [done|]. intros j c Hj. apply (Hext j).
  rewrite lookup_insert_ne; [done|]. intros ->. congruence.
Qed.

(** In balanced books the balances add up to the opening balances plus
    what the transactions booked. *)
Lemma balanced_total (b : Bank) :
  balanced b ->
  sum_of currentBalance (bankAccounts b) =
  sum_of initialBalance (bankAccounts b) + sum_of booked (transactions b).
Proof.
  intros HB.
  assert (Hsum : forall (F : positive -> Z) (m : gmap positive BankAccount),
             (forall id a, m !! id = Some a ->
                           currentBalance a = initialBalance a + F id) ->
             sum_of currentBalance m = sum_of initialBalance m + over_accounts F m).
  { intros F m. induction m as [|i a m Hi IH] using map_ind; intros H; [done|].
    rewrite !sum_of_insert, over_accounts_insert by done.
    rewrite (H i a) by apply lookup_insert_eq.
    rewrite IH; [lia|]. intros j c Hj. apply H.
    rewrite lookup_insert_ne; [done|]. intros ->. congruence. }
  rewrite (Hsum (flow b) _ (bal_accounts b HB)). f_equal.
  unfold flow. rewrite over_accounts_add, !over_accounts_sum_of.
  rewrite (sum_of_zero _ (transfers b)), Z.add_0_r.
  - apply sum_of_ext. intros i t Ht. unfold posted, booked.
    destruct (tx_accountId t) as [a|] eqn:Ha.
    + destruct (bal_transactions b HB i t a Ht Ha) as [acc Hacc].
      erewrite over_accounts_ext; [rewrite (over_accounts_at a), Hacc; done|].
      intros j _. cbv beta.
      destruct (decide (Some a = Some j)), (decide (a = j)); congruence.
    + erewrite over_accounts_ext; [apply over_accounts_zero|].
      intros j _. cbv beta. by destruct (decide (None = Some j)).
  - intros i tr Htr. destruct (bal_transfers b HB i tr Htr) as ([? HF] & [? HT] & _).
    unfold moved. rewrite over_accounts_sub, !over_accounts_at, HF, HT. lia.
Qed.

(** X17.  Transfers neither create nor destroy money: through any series
    of requests on balanced books, the balances of all accounts add up to
    their opening balances plus the incomes and minus the expenses of the
    transactions that remain; transfers do not figure in the total. *)
Theorem money_is_conserved (reqs : list Request) (b : Bank) :
  balanced b -> Forall two_ended reqs ->
  sum_of currentBalance (bankAccounts (serveAll reqs b)) =
  sum_of initialBalance (bankAccounts (serveAll reqs b)) +
  sum_of booked (transactions (serveAll reqs b)).
Proof.
  intros HB Hreqs. apply balanced_total.
  revert b HB Hreqs. induction reqs as [|req reqs IH]; intros b HB Hreqs; [done|].
  apply Forall_cons in Hreqs as [Hreq Hreqs]. cbn.
  by apply IH; [apply balanced_serve|].
Qed.

Lemma money_is_conserved_witness :
  sum_of currentBalance (bankAccounts (serveAll busy_day scenarioD_bank)) =
  sum_of initialBalance (bankAccounts (serveAll busy_day scenarioD_bank)) +
  sum_of booked (transactions (serveAll busy_day scenarioD_bank)).
Proof.
  apply money_is_conserved; [exact balanced_scenarioD|].
  unfold busy_day. repeat constructor. cbn. discriminate.
Defined.

End BooksFacts.

(** ** The transfer form *)

Section TransferFormFacts.
Import Balance Books TransferForm.

Lemma getBankAccounts_lookup userId b id a :
  getBankAccounts userId b !! id = Some a <->
  bankAccounts b !! id = Some a /\ acc_userId a = userId.
Proof. unfold getBankAccounts. by rewrite map_lookup_filter_Some. Qed.

(** X3.  A transfer the form lets through, checked against the accounts
    the server holds, is carried out by the server as soon as its
    destination exists: it goes between two different accounts, out of an
    account of the user that covers it, which is debited by the amount
    while the destination is credited by it. *)
Theorem transfer_form_sound (userId : positive) (formData : FormData) (b : Bank)
    (data : Transfer) :
  handleSubmit userId (getBankAccounts userId b) formData = inr data ->
  is_Some (bankAccounts b !! toAccountId data) ->
  exists accF accT b',
    submitTransfer userId formData b = Ok (inr (transfers_seq b)) b' /\
    fromAccountId data <> toAccountId data /\
    bankAccounts b !! fromAccountId data = Some accF /\
    bankAccounts b !! toAccountId data = Some accT /\
    acc_userId accF = userId /\
    tr_amount data <= currentBalance accF /\
    balance b' (fromAccountId data) = Some (currentBalance accF - tr_amount data) /\
    balance b' (toAccountId data) = Some (currentBalance accT + tr_amount data) /\
    transfers b' !! transfers_seq b = Some data.
Proof.
  intros Hsub [accT HT]. pose proof Hsub as Hsub0. unfold handleSubmit in Hsub.
  destruct (form_fromAccountId formData) as [fromId|]; [|done].
  destruct (form_toAccountId formData) as [toId|]; [|done].
  destruct (form_amount formData) as [amount|]; [|done].
  destruct (decide (fromId = toId)) as [|Hne]; [done|].
  destruct (getBankAccounts userId b !! fromId) as [accF|] eqn:HF; [|done].
  destruct (currentBalance accF <? amount) eqn:Hlt; [done|].
  injection Hsub as <-. cbn [fromAccountId toAccountId tr_amount] in *.
  apply getBankAccounts_lookup in HF as [HF Hown]. apply Z.ltb_ge in Hlt.
  exists accF, accT. eexists. split.
  { unfold submitTransfer, bind, gets. rewrite Hsub0.
    rewrite (createTransfer_ok b _ accF accT); [reflexivity|done|done|done]. }
  cbn [bankAccounts transfers fromAccountId toAccountId tr_amount].
  repeat split; try done.
  - unfold balance; cbn. rewrite !lookup_set_balance.
    destruct (decide (toId = fromId)); [congruence|].
    destruct (decide (fromId = fromId)); [|done]. by rewrite HF.
  - unfold balance; cbn. rewrite !lookup_set_balance.
    destruct (decide (toId = toId)); [|done].
    destruct (decide (fromId = toId)); [done|]. by rewrite HT.
  - apply lookup_insert_eq.
Qed.

Lemma transfer_form_sound_witness :
  exists accF accT b',
    submitTransfer 1 scenarioD_form scenarioD_bank =
      Ok (inr (transfers_seq scenarioD_bank)) b' /\
    fromAccountId (mkTransfer 1 1 2 20000) <> toAccountId (mkTransfer 1 1 2 20000) /\
    bankAccounts scenarioD_bank !! fromAccountId (mkTransfer 1 1 2 20000) = Some accF /\
    bankAccounts scenarioD_bank !! toAccountId (mkTransfer 1 1 2 20000) = Some accT /\
    acc_userId accF = 1%positive /\
    tr_amount (mkTransfer 1 1 2 20000) <= currentBalance accF /\
    balance b' (fromAccountId (mkTransfer 1 1 2 20000)) =
      Some (currentBalance accF - tr_amount (mkTransfer 1 1 2 20000)) /\
    balance b' (toAccountId (mkTransfer 1 1 2 20000)) =
      Some (currentBalance accT + tr_amount (mkTransfer 1 1 2 20000)) /\
    transfers b' !! transfers_seq scenarioD_bank = Some (mkTransfer 1 1 2 20000).
Proof.
  apply (transfer_form_sound 1 scenarioD_form scenarioD_bank (mkTransfer 1 1 2 20000)).
  - vm_compute. reflexivity.
  - vm_compute. by eexists.
Defined.

End TransferFormFacts.

(** ** The transaction form *)

Section TransactionFormFacts.
Import Balance Books TransactionForm.

(** X14.  A transaction the form lets through on an account of the user,
    checked against the accounts the server holds, is carried out by the
    server: the row is stored and the account goes up by the amount of an
    income and down by the amount of an expense.  An expense the form lets
    through does not exceed the balance of the account unless the account
    is a credit card, so that the balance it leaves is not below zero. *)
Theorem transaction_form_sound (now : JsDate) (userId : positive)
    (context : string) (accountType : positive -> string) (formData : FormData)
    (b : Bank) (data : Transaction) (a : positive) (acc : BankAccount) :
  handleSubmit now userId context accountType (getBankAccounts userId b) formData
    = inr data ->
  form_type formData = "income" \/ form_type formData = "expense" ->
  form_accountId formData = Some a ->
  bankAccounts b !! a = Some acc ->
  acc_userId acc = userId ->
  exists b',
    submitTransaction now userId context accountType formData b
      = Ok (inr (transactions_seq b)) b' /\
    transactions b' !! transactions_seq b = Some data /\
    balance b' a =
      Some (currentBalance acc + signed_amount (tx_type data) (tx_amount data)) /\
    (form_type formData = "expense" -> accountType a <> "credit_card" ->
     balance b' a = Some (currentBalance acc - tx_amount data) /\
     0 <= currentBalance acc - tx_amount data).
Proof.
  intros Hsub Hty Ha Hacc Hown. pose proof Hsub as Hsub0.
  unfold handleSubmit in Hsub. rewrite Ha in Hsub.
  destruct (form_amount formData) as [amount|]; [|done].
  destruct (String.eqb (form_description formData) ""); [done|].
  assert (Hget : getBankAccounts userId b !! a = Some acc).
  { unfold getBankAccounts. by apply map_lookup_filter_Some. }
  rewrite Hget in Hsub.
  destruct (if String.eqb (form_type formData) "expense" then _ else false)
    eqn:Hover; [done|].
  injection Hsub as <-.
  eexists. split.
  { unfold submitTransaction, bind, gets. rewrite Hsub0.
    rewrite (createTransaction_ok b _ a acc); [reflexivity|done|done|done]. }
  cbn [credited transactions tx_type tx_amount].
  split; [apply lookup_insert_eq|]. split; [apply balance_credited|].
  intros Hexp Hcard. rewrite balance_credited. unfold signed_amount.
  rewrite Hexp in Hover |- *. cbn in Hover |- *.
  apply String.eqb_neq in Hcard. rewrite Hcard in Hover. cbn in Hover.
  split; [f_equal; lia|lia].
Qed.

Lemma transaction_form_sound_witness :
  exists b',
    submitTransaction Rent.scenarioA_now 1 "personal" (fun _ => "savings")
      scenarioC_form scenarioC_bank = Ok (inr (transactions_seq scenarioC_bank)) b' /\
    transactions b' !! transactions_seq scenarioC_bank =
      Some (scenarioC_tx_at Rent.scenarioA_now) /\
    balance b' 1 =
      Some (currentBalance (mkAccount 1 "Savings" 500000 500000) +
            signed_amount (tx_type (scenarioC_tx_at Rent.scenarioA_now))
              (tx_amount (scenarioC_tx_at Rent.scenarioA_now))) /\
    (form_type scenarioC_form = "expense" ->
     (fun _ : positive => "savings") 1%positive <> "credit_card" ->
     balance b' 1 =
       Some (currentBalance (mkAccount 1 "Savings" 500000 500000) -
             tx_amount (scenarioC_tx_at Rent.scenarioA_now)) /\
     0 <= currentBalance (mkAccount 1 "Savings" 500000 500000) -
          tx_amount (scenarioC_tx_at Rent.scenarioA_now)).
Proof.
  apply (transaction_form_sound Rent.scenarioA_now 1 "personal" (fun _ => "savings")
           scenarioC_form scenarioC_bank (scenarioC_tx_at Rent.scenarioA_now) 1
           (mkAccount 1 "Savings" 500000 500000)).
  - vm_compute. reflexivity.
  - by right.
  - reflexivity.
  - reflexivity.
  - reflexivity.
Defined.

End TransactionFormFacts.

(** ** What the rent payment form displays *)

Section RentViewFacts.
Import Rent Reconciler RentForm RentView.





(** The loop visits the periods of the accrual loop, and lists those with
    something pending. *)
Lemma pendingMonths_loop_periods (t s : positive) (shop : Shop)
    (rentPayments : list RentPayment) (lastYear lastMonth : Z) :
  forall fuel y m,
    pendingMonths_loop fuel t s shop rentPayments lastYear lastMonth y m =
    (fun ps =>
       filter (fun e => 0 < e.2)
         (map (fun p => (p.1, p.2, month_pending t s shop rentPayments p.1 p.2)) ps))
      <$> accrual_periods fuel lastYear lastMonth y m.
Proof.
  induction fuel as [|fuel IH]; intros y m; cbn;
    destruct ((y <? lastYear) || ((y =? lastYear) && (m <=? lastMonth)));
    try done.
  destruct (m + 1 >? 12); rewrite IH, <- !option_fmap_compose;
    apply option_fmap_ext; intros ps; unfold compose; cbn [map fst snd];
    rewrite filter_cons; cbn [snd];
    destruct (month_pending t s shop rentPayments m y >? 0) eqn:E;
    destruct (decide (0 < month_pending t s shop rentPayments m y)); try lia; done.
Qed.


Lemma pendingMonths_expected (now A : JsDate) (form : Form) (shops : list Shop)
    (rentPayments : list RentPayment) (t s : positive) (shop : Shop) :
  selectedTenantId form = Some t -> selectedShopId form = Some s ->
  List.find (fun shop => (shop_id shop =? s)%positive) shops = Some shop ->
  allocated_at shop = Some A ->
  valid_month A -> valid_month now ->
  pendingMonths now form shops rentPayments =
    Some (filter (fun e => 0 < e.2)
            (map (fun p => (p.1, p.2, month_pending t s shop rentPayments p.1 p.2))
               (expected_periods A now))).
Proof.
  intros Ht Hs Hfind HA HvA Hvnow.
  unfold pendingMonths. rewrite Ht, Hs, Hfind, HA. cbv zeta.
  rewrite pendingMonths_loop_periods, lastPeriod_createShop_eq.
  destruct (lastPeriod_previous_month now Hvnow) as [Hm Hidx].
  rewrite accrual_periods_months; [|done|unfold valid_month in HvA; lia|
                                   unfold accrual_fuel; lia].
  cbn [fmap option_fmap option_map]. f_equal. unfold expected_periods.
  replace (12 * getFullYear A + (getMonth A + 1 - 1))
    with (12 * getFullYear A + getMonth A) by lia.
  by rewrite Hidx.
Qed.



Lemma pending_since_periods (t s : positive) (shop : Shop)
    (rentPayments : list RentPayment) (lastYear lastMonth : Z) :
  forall fuel y m ps,
    accrual_periods fuel lastYear lastMonth y m = Some ps ->
    pending_since fuel t s shop rentPayments lastYear lastMonth y m =
    Some (existsb (fun p => month_pending t s shop rentPayments p.1 p.2 >? 0) ps).
Proof.
  induction fuel as [|fuel IH]; intros y m ps; cbn;
    destruct ((y <? lastYear) || ((y =? lastYear) && (m <=? lastMonth)));
    try done; try (by intros [= <-]).
  intros Hps. apply fmap_Some in Hps as (ps' & Hps' & ->). cbn [existsb fst snd].
  destruct (month_pending t s shop rentPayments m y >? 0); [done|].
  cbn [orb]. destruct (m + 1 >? 12); by apply IH.
Qed.

Lemma lastPeriod_form_eq (now : JsDate) : lastPeriod_form now = lastPeriod now.
Proof.
  unfold lastPeriod_form, lastPeriod.
  by replace (getMonth now + 1 - 1) with (getMonth now) by lia.
Qed.

Lemma pending_since_expected (now A : JsDate) (t s : positive) (shop : Shop)
    (rentPayments : list RentPayment) :
  valid_month A -> valid_month now ->
  pending_since
    (accrual_fuel (fst (lastPeriod_form now)) (snd (lastPeriod_form now))
       (getFullYear A) (getMonth A + 1))
    t s shop rentPayments (fst (lastPeriod_form now)) (snd (lastPeriod_form now))
    (getFullYear A) (getMonth A + 1) =
  Some (existsb (fun p => month_pending t s shop rentPayments p.1 p.2 >? 0)
          (expected_periods A now)).
Proof.
  intros HvA Hvnow. apply pending_since_periods. rewrite lastPeriod_form_eq.
  destruct (lastPeriod_previous_month now Hvnow) as [Hm Hidx].
  rewrite accrual_periods_months; [|done|unfold valid_month in HvA; lia|
                                   unfold accrual_fuel; lia].
  unfold expected_periods. do 2 f_equal; lia.
Qed.

Lemma some_pending_listed (g : Z * Z -> Z) (ps : list (Z * Z)) :
  existsb (fun p => g p >? 0) ps = true <->
  exists e es, filter (fun e : Z * Z * Z => 0 < e.2)
                 (map (fun p => (p.1, p.2, g p)) ps) = e :: es.
Proof.
  induction ps as [|p ps IH]; cbn [existsb map].
  - split; [done|]. by intros (e & es & ?).
  - rewrite filter_cons. cbn [snd].
    destruct (decide (0 < g p)) as [Hp|Hp].
    + replace (g p >? 0) with true by lia. split; [|done]. by eexists _, _.
    + replace (g p >? 0) with false by lia. done.
Qed.

Lemma find_shop_by_id (shops : list Shop) (shop : Shop) :
  NoDup (shop_id <$> shops) -> shop ∈ shops ->
  List.find (fun s => (shop_id s =? shop_id shop)%positive) shops = Some shop.
Proof.
  induction shops as [|s shops IH]; intros Hnd Hin; [by apply elem_of_nil in Hin|].
  rewrite fmap_cons in Hnd. apply NoDup_cons in Hnd as [Hs Hnd]. cbn [List.find].
  apply elem_of_cons in Hin as [->|Hin].
  - by rewrite Pos.eqb_refl.
  - destruct (shop_id s =? shop_id shop)%positive eqn:E; [|by apply IH].
    apply Pos.eqb_eq in E. exfalso. apply Hs. rewrite E.
    apply list_elem_of_fmap. by exists shop.
Qed.

Lemma hasPending_shops_spec (now : JsDate) (tenant : positive)
    (rentPayments : list RentPayment) (l : list Shop) :
  valid_month now ->
  (forall shop A, shop ∈ l -> allocated_at shop = Some A -> valid_month A) ->
  exists b,
    hasPending_shops now tenant rentPayments l = Some b /\
    (b = true <->
     exists shop A,
       shop ∈ l /\ allocated_at shop = Some A /\
       existsb (fun p => month_pending tenant (shop_id shop) shop rentPayments
                           p.1 p.2 >? 0)
         (expected_periods A now) = true).
Proof.
  intros Hvnow. induction l as [|shop l IH]; intros Hv; cbn [hasPending_shops].
  - exists false. split; [done|]. split; [done|].
    intros (shop & A & Hin & _). by apply elem_of_nil in Hin.
  - destruct IH as (b & Hb & Hiff).
    { intros s A Hin. apply Hv. by apply elem_of_cons; right. }
    destruct (allocated_at shop) as [A|] eqn:HA.
    + cbv zeta. rewrite pending_since_expected;
        [|by apply (Hv shop); [apply elem_of_cons; left|]|done].
      destruct (existsb _ (expected_periods A now)) eqn:E.
      * exists true. split; [done|]. split; [|done]. intros _.
        exists shop, A. by repeat split; [apply elem_of_cons; left| |].
      * exists b. split; [done|]. rewrite Hiff. split.
        -- intros (s & A' & Hin & HA' & Hex). exists s, A'.
           by repeat split; [apply elem_of_cons; right| |].
        -- intros (s & A' & Hin & HA' & Hex).
           apply elem_of_cons in Hin as [->|Hin]; [congruence|].
           by exists s, A'.
    + exists b. split; [done|]. rewrite Hiff. split.
      * intros (s & A' & Hin & HA' & Hex). exists s, A'.
        by repeat split; [apply elem_of_cons; right| |].
      * intros (s & A' & Hin & HA' & Hex).
        apply elem_of_cons in Hin as [->|Hin]; [congruence|].
        by exists s, A'.
Qed.

(** X18.  The tenant filter of the form and its list of months agree: a
    tenant counts as having rent pending up to last month exactly when
    one of the shops let to them, once selected with the tenant, gets a
    non-empty list of pending months.  The check returns for every tenant
    (shop keys being unique). *)
Theorem tenant_pending_iff_months_listed (now : JsDate) (tenant : positive)
    (shops : list Shop) (rentPayments : list RentPayment) :
  valid_month now ->
  (forall shop A, shop ∈ shops -> allocated_at shop = Some A -> valid_month A) ->
  NoDup (shop_id <$> shops) ->
  exists b,
    hasPendingRentUpToLastMonth now tenant shops rentPayments = Some b /\
    (b = true <->
     exists shop,
       shop ∈ shops /\ tenantId shop = Some tenant /\
       forall form,
         selectedTenantId form = Some tenant ->
         selectedShopId form = Some (shop_id shop) ->
         exists e es, pendingMonths now form shops rentPayments = Some (e :: es)).
Proof.
  intros Hvnow Hv Hnd. unfold hasPendingRentUpToLastMonth.
  destruct (hasPending_shops_spec now tenant rentPayments
              (filter (fun shop => tenantId shop = Some tenant) shops) Hvnow)
    as (b & Hb & Hiff).
  { intros shop A Hin. apply list_elem_of_filter in Hin as [_ Hin]. by apply Hv. }
  exists b. split; [done|]. rewrite Hiff. split.
  - intros (shop & A & Hin & HA & Hex).
    apply list_elem_of_filter in Hin as [Ht Hin].
    exists shop. repeat split; [done..|]. intros form Hft Hfs.
    rewrite (pendingMonths_expected now A form shops rentPayments tenant
               (shop_id shop) shop Hft Hfs (find_shop_by_id _ _ Hnd Hin) HA
               (Hv _ _ Hin HA) Hvnow).
    apply (some_pending_listed
             (fun p => month_pending tenant (shop_id shop) shop rentPayments p.1 p.2))
      in Hex as (e & es & Hex).
    exists e, es. by rewrite Hex.
  - intros (shop & Hin & Ht & Hform).
    destruct (Hform (mkForm (Some tenant) (Some (shop_id shop)) 0 0 None None None)
                eq_refl eq_refl) as (e & es & Hpm).
    unfold pendingMonths in Hpm. cbn [selectedTenantId selectedShopId] in Hpm.
    rewrite (find_shop_by_id _ _ Hnd Hin) in Hpm.
    destruct (allocated_at shop) as [A|] eqn:HA; [|done].
    exists shop, A. repeat split; [by apply list_elem_of_filter|done|].
    apply (some_pending_listed
             (fun p => month_pending tenant (shop_id shop) shop rentPayments p.1 p.2)).
    exists e, es.
    pose proof (pendingMonths_expected now A
                  (mkForm (Some tenant) (Some (shop_id shop)) 0 0 None None None)
                  shops rentPayments tenant (shop_id shop) shop eq_refl eq_refl
                  (find_shop_by_id _ _ Hnd Hin) HA (Hv _ _ Hin HA) Hvnow) as Heq.
    unfold pendingMonths in Heq. cbn [selectedTenantId selectedShopId] in Heq.
    rewrite (find_shop_by_id _ _ Hnd Hin), HA in Heq.
    rewrite Heq in Hpm. by injection Hpm.
Qed.

Lemma tenant_pending_iff_months_listed_witness :
  exists b,
    hasPendingRentUpToLastMonth scenarioA_now 7 scenarioB_shops
      [scenarioB_row 600000 400000 "pending" None] = Some b /\
    (b = true <->
     exists shop,
       shop ∈ scenarioB_shops /\ tenantId shop = Some 7%positive /\
       forall form,
         selectedTenantId form = Some 7%positive ->
         selectedShopId form = Some (shop_id shop) ->
         exists e es,
           pendingMonths scenarioA_now form scenarioB_shops
             [scenarioB_row 600000 400000 "pending" None] = Some (e :: es)).
Proof.
  apply (tenant_pending_iff_months_listed scenarioA_now 7 scenarioB_shops
           [scenarioB_row 600000 400000 "pending" None]).
  - unfold valid_month. simpl. lia.
  - intros shop A Hin HA. apply elem_of_cons in Hin as [->|Hin]; [|by apply elem_of_nil in Hin].
    injection HA as <-. unfold valid_month. simpl. lia.
  - repeat constructor. by intros Hin%elem_of_nil.
Defined.

End RentViewFacts.

(** ** Paying rent and taking a payment back *)

Section RoutesFacts.
Import Balance Rent Reconciler RentForm Routes.

(** What the form sends when it sends. *)
Lemma handleSubmit_request userId form shops rentPayments data :
  handleSubmit userId form shops rentPayments = inr data ->
  exists t s paid a d,
    selectedTenantId form = Some t /\ selectedShopId form = Some s /\
    paidAmount form = Some paid /\ selectedAccountId form = Some a /\
    paymentDate form = Some d /\
    d_userId data = userId /\ d_tenantId data = t /\ d_shopId data = s /\
    d_month data = selectedMonth form /\ d_year data = selectedYear form /\
    d_amount data = Some (shopRent form shops) /\
    d_paidAmount data = Some paid /\ d_paymentDate data = Some d /\
    d_notes data = None.
Proof.
  unfold handleSubmit.
  destruct (selectedTenantId form) as [t|], (selectedShopId form) as [s|],
    (paidAmount form) as [paid|], (selectedAccountId form) as [a|],
    (paymentDate form) as [d|];
    destruct (tenantShops form shops) eqn:Hts; try done.
  destruct (isFullyPaidForPeriod form shops rentPayments); [done|].
  destruct (paid + totalPaidSoFar form rentPayments
            >? periodAmount form shops rentPayments) eqn:Hex; [done|].
  destruct (paid <=? 0) eqn:Hpos; [done|].
  intros [= <-]. exists t, s, paid, a, d. by cbn.
Qed.




Lemma same_period_set_payment u t s m y paid pending status d notes r :
  same_period u t s m y (set_payment paid pending status d notes r) =
  same_period u t s m y r.
Proof. done. Qed.

(** The payment of the form, step by step. *)
Lemma recordRentPayment_ok now userId form shops s data a acc prev rest :
  handleSubmit userId form shops (getRentPayments userId (rentDb s)) = inr data ->
  selectedAccountId form = Some a ->
  bankAccounts (bank s) !! a = Some acc ->
  select_period userId (d_tenantId data) (d_shopId data)
    (d_month data) (d_year data) (rentPayments (rentDb s)) = prev :: rest ->
  exists paid d,
    paidAmount form = Some paid /\ paymentDate form = Some d /\
    selectedTenantId form = Some (d_tenantId data) /\
    selectedShopId form = Some (d_shopId data) /\
    d_month data = selectedMonth form /\ d_year data = selectedYear form /\
    let pending := Z.max (shopRent form shops - (rp_paidAmount prev + paid)) 0 in
    let upd :=
      set_payment (rp_paidAmount prev + paid) pending
        (if pending =? 0 then "paid" else "pending") d (rp_notes prev) in
    recordRentPayment now userId form shops s =
    Ok (inr (upd prev))
       {| bank := credited (bank s) a acc paid
                    (transactionPayload now userId a paid form);
          rentDb := {| rentPayments :=
                         update_where_id (rp_id prev) upd (rentPayments (rentDb s));
                       rentPayments_seq := rentPayments_seq (rentDb s) |} |}.
Proof.
  intros Hsub Ha Hacc Hsel.
  destruct (handleSubmit_request _ _ _ _ _ Hsub)
    as (t & sh & paid & a' & d & Ht & Hs & Hp & Ha' & Hd & Hu & Hdt & Hds &
        Hm & Hy & Hamt & Hpaid & Hdate & Hnotes).
  exists paid, d. subst t sh. repeat (split; [done|]).
  intros pending upd.
  unfold recordRentPayment, on_rents, submitRentPayment, bind, gets.
  rewrite Hsub. rewrite <- Hu in Hsel.
  rewrite (upsert_update now data (rentDb s) prev rest Hsel).
  rewrite Hpaid, Hamt, Hdate, Hnotes. cbn [nullish].
  unfold ret. cbn [bank rentDb]. rewrite Ha, Hp.
  unfold on_bank. cbn [bank rentDb].
  rewrite (createTransaction_ok (bank s) _ a acc); [done|done|done|by left].
Qed.

(** The handler on a rent transaction of the user. *)
Lemma delete_transaction_rent userId id s t a acc tenantId shopId date :
  transactions (bank s) !! id = Some t ->
  tx_userId t = userId ->
  tx_accountId t = Some a ->
  bankAccounts (bank s) !! a = Some acc ->
  tx_type t = "income" -> tx_context t = "property" ->
  tx_tenantId t = Some tenantId -> tx_shopId t = Some shopId ->
  tx_date t = Some date ->
  delete_transaction userId id s =
  Ok (mkAnswer 200 "Transaction deleted successfully")
     {| bank :=
          {| bankAccounts :=
               <[a := set_currentBalance (currentBalance acc - tx_amount t) acc]>
                 (bankAccounts (bank s));
             transactions := delete id (transactions (bank s));
             transactions_seq := transactions_seq (bank s);
             transfers := transfers (bank s);
             transfers_seq := transfers_seq (bank s) |};
        rentDb :=
          updateRentPaymentAfterTransactionDelete
            {| p_userId := userId; p_tenantId := tenantId; p_shopId := shopId;
               p_month := getMonth date + 1; p_year := getFullYear date;
               p_amount := tx_amount t |} (rentDb s) |}.
Proof.
  intros Ht Hu Ha Hacc Hty Hctx Hten Hshop Hdate.
  unfold delete_transaction, catch, bind, gets, on_bank.
  rewrite (deleteTransaction_ok (bank s) id a t acc Ht Ha Hacc).
  assert (Hget : getTransactions userId (bank s) !! id = Some t).
  { unfold getTransactions. by apply map_lookup_filter_Some. }
  rewrite Hget, Hty, Hctx, Hten, Hshop, Hdate.
  unfold signed_amount. by cbn.
Qed.

Lemma credited_back (b : Bank) (a : positive) (acc : BankAccount) (x : Z) :
  bankAccounts b !! a = Some acc ->
  <[a := set_currentBalance (currentBalance acc + x - x)
           (set_currentBalance (currentBalance acc + x) acc)]>
    (<[a := set_currentBalance (currentBalance acc + x) acc]> (bankAccounts b)) =
  bankAccounts b.
Proof.
  intros Ha. rewrite insert_insert_eq, set_currentBalance_twice.
  replace (currentBalance acc + x - x) with (currentBalance acc) by lia.
  rewrite set_currentBalance_same. by apply insert_id.
Qed.


Lemma same_period_inj u t s m y m' y' r :
  same_period u t s m y r = true -> same_period u t s m' y' r = true ->
  m = m' /\ y = y'.
Proof.
  unfold same_period. intros H H'.
  repeat (apply andb_prop in H as [H ?]). repeat (apply andb_prop in H' as [H' ?]).
  lia.
Qed.

(** X6.  The handler reverses the period the date of the transaction falls
    in, and the payment form dates its transaction today.  So a payment
    the form lets through for another month than the current one is not
    taken back with its transaction: the deletion is answered with 200 and
    every account is at its balance from before the payment, but the row
    of the period paid for stays as the payment left it. *)
Theorem rent_payment_of_another_month_stays (now : JsDate) (userId : positive)
    (form : Form) (shops : list Shop) (s : Server) (data : UpsertData)
    (a : positive) (acc : BankAccount) (prev : RentPayment)
    (rest : list RentPayment) :
  handleSubmit userId form shops (getRentPayments userId (rentDb s)) = inr data ->
  selectedAccountId form = Some a ->
  bankAccounts (bank s) !! a = Some acc ->
  select_period userId (d_tenantId data) (d_shopId data)
    (d_month data) (d_year data) (rentPayments (rentDb s)) = prev :: rest ->
  unique_ids (rentPayments (rentDb s)) ->
  ~ for_this_month now form ->
  exists paid row s1 s2,
    paidAmount form = Some paid /\
    recordRentPayment now userId form shops s = Ok (inr row) s1 /\
    rp_paidAmount row = rp_paidAmount prev + paid /\
    delete_transaction userId (transactions_seq (bank s)) s1 =
      Ok (mkAnswer 200 "Transaction deleted successfully") s2 /\
    bankAccounts (bank s2) = bankAccounts (bank s) /\
    forall i, rentPayments (rentDb s) !! i = Some prev ->
              rentPayments (rentDb s2) !! i = Some row.
Proof.
  intros Hsub Ha Hacc Hsel Hids Hother.
  destruct (recordRentPayment_ok now userId form shops s data a acc prev rest
              Hsub Ha Hacc Hsel)
    as (paid & d & Hp & Hd & Ht & Hs & Hm & Hy & Hrec).
  cbv zeta in Hrec.
  set (pending := Z.max (shopRent form shops - (rp_paidAmount prev + paid)) 0) in *.
  set (upd := set_payment (rp_paidAmount prev + paid) pending
                (if pending =? 0 then "paid" else "pending") d (rp_notes prev)) in *.
  exists paid, (upd prev). do 2 eexists.
  split; [done|]. split; [exact Hrec|]. split; [done|].
  split.
  { apply (delete_transaction_rent userId _ _
             (transactionPayload now userId a paid form) a
             (set_currentBalance (currentBalance acc + paid) acc)
             (d_tenantId data) (d_shopId data) now);
      cbn [bank credited transactions bankAccounts transactionPayload
             tx_userId tx_accountId tx_type tx_context tx_tenantId tx_shopId
             tx_date]; try done; apply lookup_insert_eq. }
  cbn [bank rentDb bankAccounts transactions transactionPayload tx_amount].
  split; [by apply credited_back|].
  intros i Hi.
  assert (Hi1 : update_where_id (rp_id prev) upd (rentPayments (rentDb s)) !! i
                = Some (upd prev)).
  { rewrite update_where_id_lookup, Hi. cbn. by rewrite Pos.eqb_refl. }
  unfold updateRentPaymentAfterTransactionDelete.
  cbn [p_userId p_tenantId p_shopId p_month p_year p_amount rentPayments
         rentPayments_seq].
  destruct (select_period _ _ _ (getMonth now + 1) _ _) as [|rent rest'] eqn:Hsel';
    [exact Hi1|].
  cbn [rentPayments]. rewrite update_where_id_lookup, Hi1. cbn [fmap option_fmap option_map].
  destruct (rp_id (upd prev) =? rp_id rent)%positive eqn:E; [|done].
  exfalso. apply Pos.eqb_eq in E. cbn in E.
  apply select_period_head in Hsel' as [Hin' Hper'].
  pose proof Hsel as Hsel0. apply select_period_head in Hsel0 as [Hin Hper].
  apply elem_of_update_where_id in Hin' as (r & Hr & Hrent).
  assert (Hrid : rp_id rent = rp_id r).
  { rewrite Hrent. by destruct (rp_id r =? rp_id prev)%positive. }
  assert (r = prev) as ->.
  { apply (unique_ids_eq _ r prev Hids Hr Hin). congruence. }
  rewrite Pos.eqb_refl in Hrent. subst rent.
  subst upd. rewrite same_period_set_payment in Hper'.
  destruct (same_period_inj _ _ _ _ _ _ _ _ Hper Hper') as [E1 E2].
  apply Hother. split; congruence.
Qed.


Lemma rent_payment_of_another_month_stays_witness :
  exists paid row s1 s2,
    paidAmount (scenarioB_form 200000) = Some paid /\
    recordRentPayment scenarioB_now 1 (scenarioB_form 200000) scenarioB_shops
      scenarioB_server = Ok (inr row) s1 /\
    rp_paidAmount row =
      rp_paidAmount (scenarioB_row 600000 400000 "pending" None) + paid /\
    delete_transaction 1 (transactions_seq (bank scenarioB_server)) s1 =
      Ok (mkAnswer 200 "Transaction deleted successfully") s2 /\
    bankAccounts (bank s2) = bankAccounts (bank scenarioB_server) /\
    forall i,
      rentPayments (rentDb scenarioB_server) !! i =
        Some (scenarioB_row 600000 400000 "pending" None) ->
      rentPayments (rentDb s2) !! i = Some row.
Proof.
  eapply (rent_payment_of_another_month_stays scenarioB_now 1
            (scenarioB_form 200000) scenarioB_shops scenarioB_server _ 1 _ _ []).
  - vm_compute. reflexivity.
  - reflexivity.
  - reflexivity.
  - vm_compute. reflexivity.
  - repeat constructor. cbn. apply not_elem_of_nil.
  - intros [H _]. cbn in H. lia.
Defined.

End RoutesFacts.

(** ** Removing a shop or a tenant *)

Section TenancyFacts.
Import Balance Rent Tenancy.

(** The sweep inserts only rows accrued for a shop of its list, for the
    tenant of that shop. *)
Lemma sweep_Forall (P : RentPayment -> Prop) now : forall shops db db1,
  (forall shop t m y id,
      shop ∈ shops -> tenantId shop = Some t ->
      P (accrued (shop_userId shop) t (shop_id shop) (monthlyRent shop) m y id)) ->
  createMissingRentPaymentsForAllocatedShops now shops db = Some db1 ->
  Forall P (rentPayments db) -> Forall P (rentPayments db1).
Proof.
  induction shops as [|shop shops IH]; intros db db1 HP; cbn.
  - by intros [= <-].
  - destruct (sweep_shop now shop db) as [dbm|] eqn:E; [|done].
    intros Hrun H.
    apply (IH dbm db1); [|done|].
    { intros shop' t m y id Hin. apply HP. apply elem_of_cons. by right. }
    revert E. unfold sweep_shop.
    destruct (tenantId shop) as [t|] eqn:Ht; [|by intros [= <-]].
    destruct (allocated_at shop) as [A|]; [|by intros [= <-]].
    destruct (getTime A >? getTime now); [by intros [= <-]|].
    unfold accrue_from. rewrite accrual_loop_periods.
    destruct (accrual_periods _ _ _ _ _) as [ps|]; [|done].
    intros [= <-]. apply accrue_all_Forall; [|done].
    intros m y id. apply HP; [|done]. apply elem_of_cons. by left.
Qed.

Lemma find_owned_shop id userId shops shop :
  List.find (ShopUpdate.owned_shop id userId) shops = Some shop ->
  shop ∈ shops /\ shop_id shop = id /\ shop_userId shop = userId.
Proof.
  intros H. apply find_some in H as [Hin Ho].
  unfold ShopUpdate.owned_shop in Ho. apply andb_prop in Ho as [H1 H2].
  apply Pos.eqb_eq in H1, H2. split; [by apply list_elem_of_In|done].
Qed.

Lemma NoDup_shop_id shops s s' :
  NoDup (map shop_id shops) -> s ∈ shops -> s' ∈ shops ->
  shop_id s = shop_id s' -> s = s'.
Proof.
  induction shops as [|x shops IH]; intros Hnd Hs Hs' Hid.
  - by apply elem_of_nil in Hs.
  - cbn in Hnd. apply NoDup_cons in Hnd as [Hx Hnd].
    apply elem_of_cons in Hs as [-> | Hs], Hs' as [-> | Hs']; try done.
    + exfalso. apply Hx. rewrite Hid. apply list_elem_of_fmap. by exists s'.
    + exfalso. apply Hx. rewrite <- Hid. apply list_elem_of_fmap. by exists s.
    + by apply IH.
Qed.

Lemma clear_shopId_money id t : same_money t (clear_shopId id t).
Proof. unfold clear_shopId. by destruct (decide _). Qed.

Lemma clear_tenantId_money id t : same_money t (clear_tenantId id t).
Proof. unfold clear_tenantId. by destruct (decide _). Qed.

(** X7.  [deleteShop] refuses a shop that is not the user's before it
    writes anything.  For a shop of the user it goes through: the shop is
    gone and the other shops stay; the rent payments of the shop are gone
    and those of the other shops are as they were; no transaction refers to
    the shop any more, each transaction keeping its account, amount, type
    and date; and the scheduler's sweep, run at any later time, creates no
    rent payment for the shop. *)
Theorem deleteShop_cascade :
  (forall e id userId,
      List.find (ShopUpdate.owned_shop id userId) (e_shops e) = None ->
      deleteShop id userId e = Throw (NotOwned "Shop") e) /\
  (forall e id userId shop,
      List.find (ShopUpdate.owned_shop id userId) (e_shops e) = Some shop ->
      NoDup (map shop_id (e_shops e)) ->
      exists e',
        deleteShop id userId e = Ok tt e' /\
        (forall s, s ∈ e_shops e' <-> s ∈ e_shops e /\ shop_id s <> id) /\
        rentPayments (e_rents e') =
          filter (fun r => rp_shopId r <> id) (rentPayments (e_rents e)) /\
        (forall i t, e_transactions e' !! i = Some t -> tx_shopId t <> Some id) /\
        (forall i t, e_transactions e !! i = Some t ->
                     exists t', e_transactions e' !! i = Some t' /\ same_money t t') /\
        forall now db,
          sweep now e' = Some db ->
          Forall (fun r => rp_shopId r <> id) (rentPayments db)).
Proof.
  split.
  - intros e id userId H. unfold deleteShop, bind, gets. by rewrite H.
  - intros e id userId shop Hfind Hnd.
    pose proof (find_owned_shop _ _ _ _ Hfind) as (Hin & Hid & Hu).
    eexists. split.
    { unfold deleteShop, bind, gets. rewrite Hfind. reflexivity. }
    cbn.
    assert (Hshops : forall s,
               s ∈ filter (fun s => ShopUpdate.owned_shop id userId s = false)
                     (e_shops e) <-> s ∈ e_shops e /\ shop_id s <> id).
    { intros s. rewrite list_elem_of_filter. split.
      - intros [Ho Hs]. split; [done|]. intros E.
        assert (s = shop) as -> by (apply (NoDup_shop_id (e_shops e)); congruence).
        unfold ShopUpdate.owned_shop in Ho.
        rewrite Hid, Hu, !Pos.eqb_refl in Ho. done.
      - intros [Hs Hne]. split; [|done]. unfold ShopUpdate.owned_shop.
        apply Pos.eqb_neq in Hne. by rewrite Hne. }
    split; [exact Hshops|]. split; [done|]. split; [|split].
    + intros i t Hi. rewrite lookup_fmap in Hi.
      destruct (e_transactions e !! i) as [t0|]; [|done]. injection Hi as <-.
      unfold clear_shopId. by destruct (decide (tx_shopId t0 = Some id)).
    + intros i t Hi. exists (clear_shopId id t). split.
      * by rewrite lookup_fmap, Hi.
      * apply clear_shopId_money.
    + intros now db Hrun. unfold sweep in Hrun. cbn in Hrun.
      eapply (sweep_Forall _ now); [|exact Hrun|].
      * intros s t m y k Hs _. cbn. by apply Hshops in Hs as [_ Hne].
      * cbn. apply Forall_forall. intros r Hr.
        by apply list_elem_of_filter in Hr as [Hne _].
Qed.

Lemma deleteShop_cascade_witness :
  exists e',
    deleteShop 1 1 scenarioA_estate = Ok tt e' /\
    (forall s, s ∈ e_shops e' <-> s ∈ e_shops scenarioA_estate /\ shop_id s <> 1%positive) /\
    rentPayments (e_rents e') =
      filter (fun r => rp_shopId r <> 1%positive)
        (rentPayments (e_rents scenarioA_estate)) /\
    (forall i t, e_transactions e' !! i = Some t -> tx_shopId t <> Some 1%positive) /\
    (forall i t, e_transactions scenarioA_estate !! i = Some t ->
                 exists t', e_transactions e' !! i = Some t' /\ same_money t t') /\
    forall now db,
      sweep now e' = Some db ->
      Forall (fun r => rp_shopId r <> 1%positive) (rentPayments db).
Proof.
  apply (proj2 deleteShop_cascade scenarioA_estate 1%positive 1%positive scenarioA_shop).
  - reflexivity.
  - cbn. repeat constructor. apply not_elem_of_nil.
Defined.

Lemma vacate_tenant id shop : tenantId (vacate id shop) <> Some id.
Proof.
  unfold vacate. by destruct (decide (tenantId shop = Some id)).
Qed.

(** X8.  [deleteTenant] refuses a tenant that is not the user's before it
    writes anything.  For a tenant of the user it goes through: the rent
    payments of the tenant are gone, those of the other tenants are as
    they were; every shop stays, and a shop that was let to the tenant is
    vacant, with no tenant, no allocation date and no advance paid, at its
    number and rent; no shop and no transaction refers to the tenant any
    more; and the scheduler's sweep, run at any later time, creates no rent
    payment for the tenant. *)
Theorem deleteTenant_cascade :
  (forall e id userId,
      List.find (owned_tenant id userId) (e_tenants e) = None ->
      deleteTenant id userId e = Throw (NotOwned "Tenant") e) /\
  (forall e id userId tenant,
      List.find (owned_tenant id userId) (e_tenants e) = Some tenant ->
      exists e',
        deleteTenant id userId e = Ok tt e' /\
        rentPayments (e_rents e') =
          filter (fun r => rp_tenantId r <> id) (rentPayments (e_rents e)) /\
        Forall2 (fun shop shop' =>
                   shop_id shop' = shop_id shop /\
                   shop_userId shop' = shop_userId shop /\
                   shopNumber shop' = shopNumber shop /\
                   monthlyRent shop' = monthlyRent shop /\
                   if decide (tenantId shop = Some id)
                   then tenantId shop' = None /\ allocated_at shop' = None /\
                        isOccupied shop' = false /\ isAdvancePaid shop' = false
                   else shop' = shop)
          (e_shops e) (e_shops e') /\
        (forall i t, e_transactions e' !! i = Some t -> tx_tenantId t <> Some id) /\
        (forall i t, e_transactions e !! i = Some t ->
                     exists t', e_transactions e' !! i = Some t' /\ same_money t t') /\
        forall now db,
          sweep now e' = Some db ->
          Forall (fun r => rp_tenantId r <> id) (rentPayments db)).
Proof.
  split.
  - intros e id userId H. unfold deleteTenant, bind, gets. by rewrite H.
  - intros e id userId tenant Hfind.
    eexists. split.
    { unfold deleteTenant, bind, gets. rewrite Hfind. reflexivity. }
    cbn. split; [done|]. split; [|split; [|split]].
    + apply Forall2_fmap_r, Forall_Forall2_diag, Forall_forall.
      intros shop _. unfold compose, vacate. cbn beta.
      repeat case_decide; done.
    + intros i t Hi. rewrite lookup_fmap in Hi.
      destruct (e_transactions e !! i) as [t0|]; [|done]. injection Hi as <-.
      unfold clear_tenantId. by destruct (decide (tx_tenantId t0 = Some id)).
    + intros i t Hi. exists (clear_tenantId id t). split.
      * by rewrite lookup_fmap, Hi.
      * apply clear_tenantId_money.
    + intros now db Hrun. unfold sweep in Hrun. cbn in Hrun.
      eapply (sweep_Forall _ now); [|exact Hrun|].
      * intros s t m y k Hs Ht. cbn. intros ->.
        apply list_elem_of_fmap in Hs as (s0 & -> & _).
        by apply vacate_tenant in Ht.
      * cbn. apply Forall_forall. intros r Hr.
        by apply list_elem_of_filter in Hr as [Hne _].
Qed.

Lemma deleteTenant_cascade_witness :
  exists e',
    deleteTenant 7 1 scenarioA_estate = Ok tt e' /\
    rentPayments (e_rents e') =
      filter (fun r => rp_tenantId r <> 7%positive)
        (rentPayments (e_rents scenarioA_estate)) /\
    Forall2 (fun shop shop' =>
               shop_id shop' = shop_id shop /\
               shop_userId shop' = shop_userId shop /\
               shopNumber shop' = shopNumber shop /\
               monthlyRent shop' = monthlyRent shop /\
               if decide (tenantId shop = Some 7%positive)
               then tenantId shop' = None /\ allocated_at shop' = None /\
                    isOccupied shop' = false /\ isAdvancePaid shop' = false
               else shop' = shop)
      (e_shops scenarioA_estate) (e_shops e') /\
    (forall i t, e_transactions e' !! i = Some t -> tx_tenantId t <> Some 7%positive) /\
    (forall i t, e_transactions scenarioA_estate !! i = Some t ->
                 exists t', e_transactions e' !! i = Some t' /\ same_money t t') /\
    forall now db,
      sweep now e' = Some db ->
      Forall (fun r => rp_tenantId r <> 7%positive) (rentPayments db).
Proof.
  apply (proj2 deleteTenant_cascade scenarioA_estate 7%positive 1%positive
           (mkTenant 7 1 "Tenant")).
  reflexivity.
Defined.

End TenancyFacts.

(** ** Creating a shop *)

Section ShopCreateFacts.
Import Rent ShopUpdate ShopCreate.

Variable isDateOnly : string -> bool.
Variable utcDate : string -> JsDate.
Variable newDate : string -> option JsDate.

Lemma accrual_loop_over fuel u t s rent lastYear lastMonth y m db :
  (y <? lastYear) || ((y =? lastYear) && (m <=? lastMonth)) = false ->
  accrual_loop fuel u t s rent lastYear lastMonth y m db = Some db.
Proof. intros H. destruct fuel; cbn; by rewrite H. Qed.

(** Nothing is due yet for an allocation dated this month. *)
Lemma accrue_from_now (now : JsDate) u t s rent db :
  accrue_from (lastPeriod now) u t s rent now db = Some db.
Proof.
  unfold accrue_from. apply accrual_loop_over. unfold lastPeriod.
  replace (getMonth now + 1 - 1) with (getMonth now) by lia.
  destruct (getMonth now =? 0) eqn:E; cbn [fst snd]; lia.
Qed.

(** X9.  [createShop] on a key that is free stores the shop and returns
    it.  Sent without a tenant, the shop is vacant and has no allocation
    date, whatever date the request carries.  Sent with a tenant and no
    date that can be read, it is let as of now, occupied, and no rent
    payment is created for it.  Sent with a tenant and a date after now, it
    keeps that date, is not occupied, and no rent payment is created.  Sent
    with a tenant and a date not after now it keeps that date, is
    occupied, and the rent table is the one the accrual loop leaves. *)
Theorem createShop_allocation (now : JsDate) (id : positive) (values : InsertShop)
    (db : PropertyDb) :
  fresh_shop id db ->
  exists shop db',
    createShop isDateOnly utcDate newDate now id values db = Ok shop db' /\
    shops db' = shops db ++ [shop] /\
    shop_id shop = id /\ tenantId shop = i_tenantId values /\
    monthlyRent shop = i_monthlyRent values /\
    match i_tenantId values, parsed_allocation isDateOnly utcDate newDate values with
    | None, _ =>
        allocated_at shop = None /\ isOccupied shop = false /\ rents db' = rents db
    | Some _, None =>
        allocated_at shop = Some now /\ isOccupied shop = true /\
        rents db' = rents db
    | Some _, Some A =>
        allocated_at shop = Some A /\
        if getTime A <=? getTime now
        then isOccupied shop = true /\
             createShop_accrual now shop (rents db) = Some (rents db')
        else isOccupied shop = false /\ rents db' = rents db
    end.
Proof.
  intros Hfresh. unfold createShop. rewrite Hfresh.
  set (shop := new_shop isDateOnly utcDate newDate now id values).
  destruct (createShop_accrual now shop (rents db)) as [rents'|] eqn:Hacc.
  2: { exfalso. revert Hacc. unfold createShop_accrual.
       destruct (tenantId shop), (allocated_at shop) as [A|]; try done.
       destruct (getTime A <=? getTime now); [|done].
       intros Hacc. by destruct (accrue_from_finishes (lastPeriod_createShop now)
                          (shop_userId shop) p (shop_id shop) (monthlyRent shop)
                          A (rents db)) as [x Hx]; rewrite Hx in Hacc. }
  exists shop. eexists. split; [reflexivity|]. cbn [shops rents].
  do 4 (split; [done|]).
  revert Hacc. unfold createShop_accrual. subst shop. unfold new_shop.
  cbn [tenantId allocated_at isOccupied shop_userId shop_id monthlyRent].
  destruct (i_tenantId values) as [t|]; [|by intros [= <-]].
  destruct (parsed_allocation isDateOnly utcDate newDate values) as [A|].
  - destruct (getTime A <=? getTime now) eqn:E.
    + intros Hacc. split; [done|]. split; [done|].
      unfold createShop_accrual. cbn [tenantId allocated_at]. done.
    + by intros [= <-].
  - rewrite Z.leb_refl, lastPeriod_createShop_eq, accrue_from_now.
    by intros [= <-].
Qed.

End ShopCreateFacts.

Section ShopCreateScenario.
Import Rent ShopUpdate ShopCreate.

(** A shop sent with a tenant and no date is let as of now and owes
    nothing yet. *)
Lemma createShop_allocation_witness :
  exists shop db',
    createShop (fun _ => false) (fun _ => scenarioA_now) (fun _ => None)
      scenarioA_now 2 undated_shop let_db = Ok shop db' /\
    ShopUpdate.shops db' = ShopUpdate.shops let_db ++ [shop] /\
    shop_id shop = 2%positive /\ tenantId shop = Some 7%positive /\
    monthlyRent shop = 1000000 /\
    allocated_at shop = Some scenarioA_now /\ isOccupied shop = true /\
    ShopUpdate.rents db' = ShopUpdate.rents let_db.
Proof.
  apply (createShop_allocation (fun _ => false) (fun _ => scenarioA_now)
           (fun _ => None) scenarioA_now 2 undated_shop let_db).
  reflexivity.
Defined.

End ShopCreateScenario.

(** ** Letting a shop again *)

Section ShopReletFacts.
Import Rent ShopUpdate.

Variable isDateOnly : string -> bool.
Variable utcDate : string -> JsDate.
Variable newDate : string -> option JsDate.

(** With a tenant in the request, the request as written to the shop
    carries a date, that of the request or else now, and the occupancy
    that date gives. *)
Lemma normalize_with_tenant (now : JsDate) (updates : ShopUpdates) (t : positive) :
  u_tenantId updates = Value t ->
  let updates' := normalize isDateOnly utcDate newDate now updates in
  u_tenantId updates' = Value t /\
  u_monthlyRent updates' = u_monthlyRent updates /\
  exists d,
    u_allocated_at updates' = Value (DateObject (Some d)) /\
    u_isOccupied updates' = Some (getTime d <=? getTime now).
Proof.
  destruct updates as [ten a1 a2 rent num occ adv]. cbn. intros ->.
  unfold normalize; cbn.
  destruct a2 as [| |[s2|[d2|]]], a1 as [| |[s1|[d1|]]]; cbn;
    repeat match goal with
           | |- context [negb (String.eqb ?s "")] =>
               destruct (String.eqb s "") eqn:?; cbn
           | |- context [isDateOnly ?s] => destruct (isDateOnly s) eqn:?; cbn
           | |- context [newDate ?s] => destruct (newDate s) eqn:?; cbn
           end;
    try congruence;
    (split; [done|]); (split; [done|]); eexists; (split; [reflexivity|done]).
Qed.

Lemma owned_shop_found id userId shops shop :
  List.find (owned_shop id userId) shops = Some shop ->
  shop_id shop = id /\ shop_userId shop = userId.
Proof.
  intros H. apply find_some in H as [_ Ho].
  unfold owned_shop in Ho. apply andb_prop in Ho as [H1 H2].
  by apply Pos.eqb_eq in H1, H2.
Qed.

(** X10.  [updateShop] with a tenant in the request, on a shop of the
    user, always returns: the shop gets the tenant and an allocation date
    A, the date of the request when it carries one that can be read and
    now otherwise, and is occupied exactly when A is not after now.  When
    A is after now the rent table is left alone.  Otherwise the rent
    payments of this user, tenant and shop for the months before the month
    of A are deleted, paid or not, every other row stays, and one row at
    the shop's monthly rent is appended for each month from A through last
    month that has none, after which each of those months has a row. *)
Theorem updateShop_relet (now : JsDate) (id userId : positive)
    (updates : ShopUpdates) (db : PropertyDb) (old : Shop) (t : positive) :
  u_tenantId updates = Value t ->
  List.find (owned_shop id userId) (shops db) = Some old ->
  valid_month now ->
  exists A shop db',
    u_allocated_at (normalize isDateOnly utcDate newDate now updates) =
      Value (DateObject (Some A)) /\
    updateShop isDateOnly utcDate newDate now id userId updates db = Ok shop db' /\
    tenantId shop = Some t /\ allocated_at shop = Some A /\
    isOccupied shop = (getTime A <=? getTime now) /\
    (getTime now < getTime A -> rents db' = rents db) /\
    (getTime A <= getTime now -> valid_month A ->
     let kept := delete_before userId t id A (rentPayments (rents db)) in
     rentPayments (rents db') =
       kept ++ accrued_rows userId t id (monthlyRent shop)
                 (rentPayments_seq (rents db))
                 (missing_periods userId t id kept (expected_periods A now)) /\
     forall p, p ∈ expected_periods A now ->
               covered userId t id (rentPayments (rents db')) p).
Proof.
  intros Hten Hfind Hnow.
  destruct (normalize_with_tenant now updates t Hten) as (Ht & Hr & A & Ha & Ho).
  destruct (owned_shop_found _ _ _ _ Hfind) as [Hid Hu].
  exists A. unfold updateShop.
  remember (normalize isDateOnly utcDate newDate now updates) as updates' eqn:Hup.
  cbn in Ht, Hr, Ha, Ho.
  unfold bind, gets, modify, ret. rewrite Hfind, Ha.
  cbn [allocated_at_column in_updates orb].
  set (shop := set_updates updates' (Some A) old).
  assert (HsT : tenantId shop = Some t) by (subst shop; cbn; by rewrite Ht).
  assert (HsA : allocated_at shop = Some A) by done.
  assert (HsU : shop_userId shop = userId) by done.
  assert (HsI : shop_id shop = id) by done.
  assert (HsO : isOccupied shop = (getTime A <=? getTime now))
    by (subst shop; cbn; by rewrite Ho).
  rewrite HsT, HsA, HsU, HsI. cbn [shops rents].
  destruct (getTime A <=? getTime now) eqn:E.
  - set (kept := {| rentPayments := delete_before userId t id A (rentPayments (rents db));
                    rentPayments_seq := rentPayments_seq (rents db) |}).
    destruct (accrue_from_finishes (lastPeriod now) userId t id (monthlyRent shop)
                A kept) as [rents' Hacc].
    cbn [ShopUpdate.shops ShopUpdate.rents]. fold kept. rewrite Hacc. exists shop. eexists. split; [done|]. split; [reflexivity|].
    do 3 (split; [done|]). cbn [ShopUpdate.rents]. split; [lia|].
    intros _ HvA. rewrite accrue_from_expected in Hacc by done.
    injection Hacc as <-. split.
    + by rewrite accrue_all_rows by apply months_between_NoDup.
    + intros p Hp. by apply accrue_all_covers.
  - exists shop. eexists. split; [done|]. split; [reflexivity|].
    do 3 (split; [done|]). cbn [ShopUpdate.rents]. split; [done|]. lia.
Qed.

End ShopReletFacts.

Section ShopReletScenario.
Import Rent ShopUpdate ShopCreate.

(** Let again from February, the shop of Scenario A loses its January
    period and keeps those of February and March; nothing is added. *)
Lemma updateShop_relet_witness :
  exists A shop db',
    u_allocated_at
      (normalize (fun _ => true) (fun _ => february_2024) (fun _ => None)
         scenarioA_now relet_request) = Value (DateObject (Some A)) /\
    updateShop (fun _ => true) (fun _ => february_2024) (fun _ => None)
      scenarioA_now 1 1 relet_request relet_db = Ok shop db' /\
    tenantId shop = Some 7%positive /\ allocated_at shop = Some A /\
    isOccupied shop = (getTime A <=? getTime scenarioA_now) /\
    (getTime scenarioA_now < getTime A ->
     ShopUpdate.rents db' = ShopUpdate.rents relet_db) /\
    (getTime A <= getTime scenarioA_now -> valid_month A ->
     let kept :=
       delete_before 1 7 1 A (rentPayments (ShopUpdate.rents relet_db)) in
     rentPayments (ShopUpdate.rents db') =
       kept ++ accrued_rows 1 7 1 (monthlyRent shop)
                 (rentPayments_seq (ShopUpdate.rents relet_db))
                 (missing_periods 1 7 1 kept (expected_periods A scenarioA_now)) /\
     forall p, p ∈ expected_periods A scenarioA_now ->
               covered 1 7 1 (rentPayments (ShopUpdate.rents db')) p).
Proof.
  apply (updateShop_relet (fun _ => true) (fun _ => february_2024) (fun _ => None)
           scenarioA_now 1 1 relet_request relet_db let_shop 7).
  - reflexivity.
  - reflexivity.
  - unfold valid_month. simpl. lia.
Defined.

End ShopReletScenario.

(** ** The property dashboard *)

Section DashboardFacts.
Import Balance Rent Dashboard.














End DashboardFacts.

(** ** An import that goes through *)

Section ImportFacts.
Import Rent Reconciler Backup.

Variable faults : nat -> option string.

Lemma getFullBackup_returns u w :
  quiet_from faults (sent w) ->
  exists stash w0,
    getFullBackup faults u w = Ok stash w0 /\ (sent w <= sent w0)%nat.
Proof.
  intros Hq. unfold getFullBackup, export_table, bind, query, ret.
  repeat (match goal with
          | |- context [faults ?n] => rewrite (Hq n) by (cbn; lia); cbn
          end).
  do 2 eexists. split; [reflexivity|]. cbn. lia.
Qed.

(** X13.  An import the datastore does not disturb, of a document that
    passes the validation and whose keys are not those of rows of other
    users, is answered with 200 "Data imported successfully": afterwards
    each of the seven tables holds the rows of the other users, untouched,
    followed by the rows of the document, each given to the user under the
    key it has in the document; the rent table holds the same for the rent
    payments, after the recalculation pass; and the table of tenant-shop
    links is empty. *)
Theorem import_replaces (u : positive) (doc : Document) (w : World) :
  quiet_from faults (sent w) ->
  validateBackupData doc = None ->
  (forall T, NoDup (map row_id
               (filter (fun r => row_userId r <> u) (table (store w) T)
                ++ imported_rows u (rows_of (doc_table doc T))))) ->
  NoDup (map rp_id
           (filter (fun r => rp_userId r <> u) (rentPayments (store w))
            ++ imported_rents u (rows_of (doc_rentPayments doc)))) ->
  exists w',
    import_handler faults u doc w =
      Ok (mkResponse 200 "Data imported successfully" None None) w' /\
    (forall T, table (store w') T =
               filter (fun r => row_userId r <> u) (table (store w) T)
               ++ imported_rows u (rows_of (doc_table doc T))) /\
    rentPayments (store w') =
      recalculateAllPendingRents u
        (filter (fun r => rp_userId r <> u) (rentPayments (store w))
         ++ imported_rents u (rows_of (doc_rentPayments doc))) /\
    tenantShops (store w') = [].
Proof.
  intros Hq Hval Hrows Hrents.
  destruct (getFullBackup_returns u w Hq) as (stash & w0 & Hs & Hle0).
  destruct (getFullBackup_ok faults _ _ _ _ Hs) as (Hs0 & _ & _).
  assert (quiet_from faults (sent w0)) as Hq0 by (eapply quiet_from_le; eauto).
  destruct (deleteAllUserData_returns faults u w0 Hq0)
    as (wa & Hra & Hta & Hrpa & Htsa).
  assert (quiet_from faults (sent wa)) as Hqa
    by (eapply quiet_from_le; [exact Hq0|apply Hra]).
  destruct (insert_loop_returns faults u doc
              [Accounts; Categories; Buildings; Tenants; Shops; Transactions; Transfers]
              wa) as (wb & Hrb & Htb & Hrpb & Htsb); [|done| |].
  { apply (bool_decide_unpack _). by vm_compute. }
  { intros T _. rewrite Hta, Hs0. apply Hrows. }
  assert (quiet_from faults (sent wb)) as Hqb
    by (eapply quiet_from_le; [exact Hqa|apply Hrb]).
  destruct (insert_rents_returns faults u doc wb Hqb) as (wc & Hrc & Htc & Hrpc & Htsc).
  { rewrite Hrpb, Hrpa, Hs0. apply Hrents. }
  assert (quiet_from faults (sent wc)) as Hqc
    by (eapply quiet_from_le; [exact Hqb|apply Hrc]).
  destruct (recalculate_returns faults u wc Hqc) as (wd & Hrd & Htd & Hrpd & Htsd).
  assert (quiet_from faults (sent wd)) as Hqd
    by (eapply quiet_from_le; [exact Hqc|apply Hrd]).
  destruct (resetAllSequences_returns faults wd Hqd) as (we & Hre & Hse).
  assert (Hattempt : attempt faults u doc w0 = Ok tt we).
  { unfold attempt. rewrite Hval.
    assert (returns (run! deleteAllUserData faults u in importBackupData faults u doc)
              w0 we) as [H _]; [|exact H].
    unfold importBackupData.
    eapply returns_bind; [exact Hra|]. eapply returns_bind; [exact Hrb|].
    eapply returns_bind; [exact Hrc|]. eapply returns_bind; [exact Hrd|exact Hre]. }
  exists we. split.
  { unfold import_handler, try_catch, bind. rewrite Hs. unfold bind.
    by rewrite Hattempt. }
  rewrite Hse. split; [|split].
  - intros T. rewrite Htd, Htc, Htb, Hta, Hs0. by destruct T.
  - by rewrite Hrpd, Hrpc, Hrpb, Hrpa, Hs0.
  - by rewrite Htsd, Htsc, Htsb.
Qed.

End ImportFacts.

Section ImportScenario.
Import Rent Reconciler Backup.

(** Scenario E with a datastore that rejects nothing: the account of the
    document replaces the account of user 1, and the rent period of user
    1 is gone with the rest of the user's data. *)
Lemma import_replaces_witness :
  exists w',
    import_handler (fun _ => None) 1 scenarioE_doc
      (mkWorld (scenarioE_store 400000 "pending") 0) =
      Ok (mkResponse 200 "Data imported successfully" None None) w' /\
    (forall T, table (store w') T =
               filter (fun r => row_userId r <> 1%positive)
                 (table (scenarioE_store 400000 "pending") T)
               ++ imported_rows 1 (rows_of (doc_table scenarioE_doc T))) /\
    rentPayments (store w') =
      recalculateAllPendingRents 1
        (filter (fun r => rp_userId r <> 1%positive)
           (rentPayments (scenarioE_store 400000 "pending"))
         ++ imported_rents 1 (rows_of (doc_rentPayments scenarioE_doc))) /\
    tenantShops (store w') = [].
Proof.
  apply (import_replaces (fun _ => None) 1 scenarioE_doc
           (mkWorld (scenarioE_store 400000 "pending") 0)).
  - by intros n _.
  - reflexivity.
  - intros T. destruct T; apply (bool_decide_unpack _); by vm_compute.
  - apply (bool_decide_unpack _). by vm_compute.
Defined.

End ImportScenario.
